(** * Streaming recovery of concatenated JSON objects and batched ingestion

    A shallow embedding of the movie-dump tooling:
    - [Convert]   : [fixJsonFile] of [convert.ts], which rewrites a dump of
                    concatenated objects into a JSON array;
    - [JsonToDb]  : [sendMoviesToSurrealDB], [sendBatchToSurrealDB],
                    [escapeStr] and [formatMovieForDB] of [json-to-db.ts];
    - [Surql]     : [escapeStr] and [formatMovieObject] of the statement
                    generator [convertMoviesToOptimizedSurql].

    Conventions.  A JavaScript string is a [string]; the scanners only ever
    compare a character with the backslash, the double quote and the two
    braces.  [readline] hands the input over line by line, so an input
    stream is a [list string] of lines without their terminators.  A counter
    that the code increments and decrements is a [Z]; a counter that only
    grows is a [nat].  A JSON number field is a binary64 [float]; record
    identifiers are integral and are kept in [Z]. *)

From Stdlib Require Import String Ascii ZArith List Bool Arith Lia.
From Stdlib Require Import PrimFloat DecimalString.
Import ListNotations.

Local Open Scope list_scope.
Local Open Scope Z_scope.

(* ================================================================= *)
(** ** JavaScript built-ins used by the scripts *)

Module JS.

Definition backslash : ascii := "092"%char.
Definition dquote    : ascii := "034"%char.
Definition squote    : ascii := "039"%char.
Definition lbrace    : ascii := "{"%char.
Definition rbrace    : ascii := "}"%char.
Definition LF        : ascii := "010"%char.
Definition CR        : ascii := "013"%char.
Definition TAB       : ascii := "009"%char.
Definition FF        : ascii := "012"%char.

(** [s += char] *)
Definition push (s : string) (char : ascii) : string :=
  (s ++ String char EmptyString)%string.

(** Truthiness of a string: every string but the empty one. *)
Definition truthy_string (s : string) : bool :=
  match s with EmptyString => false | String _ _ => true end.

(** Truthiness of a number: every number but [+0], [-0] and [NaN]. *)
Definition truthy_number (x : float) : bool :=
  negb (PrimFloat.eqb x 0%float || PrimFloat.is_nan x).

(** [x || d] on an optional string property; [None] stands for a property
    that is missing ([undefined]) or [null]. *)
Definition or_string (x : option string) (d : string) : string :=
  match x with
  | Some s => if truthy_string s then s else d
  | None => d
  end.

(** [x || d] on an optional number property. *)
Definition or_number (x : option float) (d : float) : float :=
  match x with
  | Some n => if truthy_number n then n else d
  | None => d
  end.

(** [ToString] of an integral number, as a template literal applies it. *)
Definition ToString (z : Z) : string :=
  NilEmpty.string_of_int (Z.to_int z).

(** White space and line terminators among the first 256 code units. *)
Definition is_white_space (c : ascii) : bool :=
  match nat_of_ascii c with
  | 9%nat | 10%nat | 11%nat | 12%nat | 13%nat | 32%nat | 160%nat => true
  | _ => false
  end.

Fixpoint trimStart (s : string) : string :=
  match s with
  | EmptyString => EmptyString
  | String c s' => if is_white_space c then trimStart s' else s
  end.

Fixpoint trimEnd (s : string) : string :=
  match s with
  | EmptyString => EmptyString
  | String c s' =>
      match trimEnd s' with
      | EmptyString => if is_white_space c then EmptyString
                       else String c EmptyString
      | t => String c t
      end
  end.

(** [s.trim()] *)
Definition trim (s : string) : string := trimEnd (trimStart s).

(** [s.replace(/c/g, by)] for a one-character pattern. *)
Fixpoint replace (c : ascii) (by_ : string) (s : string) : string :=
  match s with
  | EmptyString => EmptyString
  | String a s' =>
      if Ascii.eqb a c then (by_ ++ replace c by_ s')%string
      else String a (replace c by_ s')
  end.

(** [xs.join(sep)] *)
Fixpoint join (sep : string) (xs : list string) : string :=
  match xs with
  | [] => EmptyString
  | [x] => x
  | x :: rest => (x ++ sep ++ join sep rest)%string
  end.

(** [new Date(s)], kept as the constructor applied to its argument. *)
Inductive Date : Type := new_Date (s : string).

End JS.

(** Test inputs are written with apostrophes where the JSON text has double
    quotes: [json "{'a':1}"] is the seven characters of the object. *)
Definition json (s : string) : string :=
  JS.replace JS.squote (String JS.dquote EmptyString) s.

(* ================================================================= *)
(** ** The domain records (interfaces [Genre], [Collection], [Movie]) *)

Module Genre.
Record t : Type := mk { id : Z; name : string }.
End Genre.

Module Collection.
Record t : Type := mk {
  id : Z;
  name : option string;
  poster_path : option string;
  backdrop_path : option string
}.
End Collection.

(** An optional property is an [option]: [None] is a property that is absent
    or [null].  [genres] is declared mandatory but the formatters guard it
    with [movie.genres && ...], so it is optional here as well. *)
Module Movie.
Record t : Type := mk {
  id : Z;
  title : option string;
  budget : option float;
  overview : option string;
  poster_path : option string;
  release_date : option string;
  revenue : option float;
  runtime : option float;
  tagline : option string;
  vote_average : option float;
  original_language : option string;
  genres : option (list Genre.t);
  belongs_to_collection : option Collection.t
}.

(** The object [{ "id": n }] with every other property absent. *)
Definition bare (n : Z) : t :=
  mk n None None None None None None None None None None None None.
End Movie.

(** The [escapeStr] helper; [json-to-db.ts] and the statement generator carry
    the same six replacements in the same order. *)
Definition escapeStr (str : option string) : string :=
  match str with
  | None => EmptyString
  | Some s =>
      if negb (JS.truthy_string s) then EmptyString
      else
        let s1 := JS.replace JS.backslash "\\" s in
        let s2 := JS.replace JS.squote "\'" s1 in
        let s3 := JS.replace JS.LF "\n" s2 in
        let s4 := JS.replace JS.CR "\r" s3 in
        let s5 := JS.replace JS.TAB "\t" s4 in
        JS.replace JS.FF "\f" s5
  end.

(* ================================================================= *)
(** ** [convert.ts] *)

Module Convert.

Definition NL : string := String JS.LF EmptyString.

(** The loop variables of [fixJsonFile]; [writeStream] is the list of the
    chunks written so far, oldest first. *)
Record State : Type := mkState {
  isFirstObject : bool;
  lineBuffer : string;
  openBraces : Z;
  inQuotes : bool;
  escapeNext : bool;
  writeStream : list string
}.

(** The body of the loop over the characters of a line. *)
Definition for_char (st : State) (char : ascii) : State :=
  if escapeNext st then
    mkState (isFirstObject st) (lineBuffer st) (openBraces st) (inQuotes st)
            false (writeStream st)
  else if Ascii.eqb char JS.backslash then
    mkState (isFirstObject st) (lineBuffer st) (openBraces st) (inQuotes st)
            true (writeStream st)
  else if Ascii.eqb char JS.dquote then
    mkState (isFirstObject st) (lineBuffer st) (openBraces st)
            (negb (inQuotes st)) (escapeNext st) (writeStream st)
  else if negb (inQuotes st) then
    if Ascii.eqb char JS.lbrace then
      mkState (isFirstObject st) (lineBuffer st) (openBraces st + 1)
              (inQuotes st) (escapeNext st) (writeStream st)
    else if Ascii.eqb char JS.rbrace then
      if openBraces st - 1 =? 0 then
        let comma :=
          if negb (isFirstObject st) then [("," ++ NL)%string] else [] in
        mkState false EmptyString (openBraces st - 1)
                (inQuotes st) (escapeNext st)
                (writeStream st ++ comma ++ [JS.trim (lineBuffer st)])
      else
        mkState (isFirstObject st) (lineBuffer st) (openBraces st - 1)
                (inQuotes st) (escapeNext st) (writeStream st)
    else st
  else st.

Fixpoint for_chars (st : State) (line : string) : State :=
  match line with
  | EmptyString => st
  | String char rest => for_chars (for_char st char) rest
  end.

(** One iteration of [for await (const line of rl)]: the whole line goes
    into [lineBuffer] first, the characters are examined afterwards. *)
Definition for_line (st : State) (line : string) : State :=
  let st0 :=
    mkState (isFirstObject st) (lineBuffer st ++ line)%string
            (openBraces st) (inQuotes st) (escapeNext st) (writeStream st) in
  let st1 := for_chars st0 line in
  if JS.truthy_string (lineBuffer st1) then
    mkState (isFirstObject st1) (lineBuffer st1 ++ NL)%string
            (openBraces st1) (inQuotes st1) (escapeNext st1)
            (writeStream st1)
  else st1.

Definition start : State :=
  mkState true EmptyString 0 false false [("[" ++ NL)%string].

(** [fixJsonFile]: the chunks written to the output file, in order. *)
Definition fixJsonFile (lines : list string) : list string :=
  writeStream (fold_left for_line lines start) ++ [(NL ++ "]")%string].

End Convert.

(* ================================================================= *)
(** ** [json-to-db.ts] *)

Module JsonToDb.

(** *** [formatMovieForDB] *)

(** The record handed to [db.create].  The template literals
    [`genre:${ id }`] and the like are evaluated to their text. *)
Module Row.
Record t : Type := mk {
  id : Z;
  title : string;
  budget : float;
  overview : string;
  poster : string;
  release_date : JS.Date;
  revenue : float;
  runtime : float;
  tagline : string;
  vote_average : float;
  language : string;
  genre : list string;
  collection : option string   (* [None] is [null] *)
}.
End Row.

Definition formatMovieForDB (movie : Movie.t) : Row.t :=
  {| Row.id := Movie.id movie;
     Row.title := JS.or_string (Movie.title movie) EmptyString;
     Row.budget := JS.or_number (Movie.budget movie) 0%float;
     Row.overview := JS.or_string (Movie.overview movie) EmptyString;
     Row.poster := JS.or_string (Movie.poster_path movie) "/empty";
     Row.release_date :=
       match Movie.release_date movie with
       | Some d => if JS.truthy_string d then JS.new_Date d
                   else JS.new_Date "0001-01-01"
       | None => JS.new_Date "0001-01-01"
       end;
     Row.revenue := JS.or_number (Movie.revenue movie) 0%float;
     Row.runtime := JS.or_number (Movie.runtime movie) 0%float;
     Row.tagline := JS.or_string (Movie.tagline movie) EmptyString;
     Row.vote_average := JS.or_number (Movie.vote_average movie) 0%float;
     Row.language :=
       ("language:" ++ JS.or_string (Movie.original_language movie) "en")%string;
     Row.genre :=
       match Movie.genres movie with
       | Some (g :: gs) =>
           map (fun genre => ("genre:" ++ JS.ToString (Genre.id genre))%string)
               (g :: gs)
       | _ => ["genre:0"%string]
       end;
     Row.collection :=
       match Movie.belongs_to_collection movie with
       | Some c => Some ("collection:" ++ JS.ToString (Collection.id c))%string
       | None => None
       end |}.

(** *** The SurrealDB client

    The client is an external library.  It is modelled as a store with
    one optional open transaction, in which [BEGIN], [COMMIT] and [CANCEL]
    have their transactional meaning, and in which any call may be
    rejected: [faults] lists, call by call, whether the next calls throw
    (a call beyond the end of the list succeeds). *)

Inductive Statement : Type :=
| BEGIN_TRANSACTION
| COMMIT_TRANSACTION
| CANCEL_TRANSACTION
| CREATE (movie : Row.t).

(** What a [catch] clause can receive. *)
Inductive Thrown : Type :=
| SyntaxError                  (* from [JSON.parse] *)
| DbError (stmt : Statement).  (* from the client, for the rejected call *)

Record Surreal : Type := mkSurreal {
  store : list (list Row.t);    (* committed transactions, oldest first *)
  txn : option (list Row.t);    (* records created in the open transaction *)
  faults : list bool
}.

Definition apply (db : Surreal) (stmt : Statement) : Surreal :=
  match stmt with
  | BEGIN_TRANSACTION =>
      {| store := store db; txn := Some []; faults := faults db |}
  | COMMIT_TRANSACTION =>
      match txn db with
      | Some rows =>
          {| store := store db ++ [rows]; txn := None; faults := faults db |}
      | None => db
      end
  | CANCEL_TRANSACTION =>
      {| store := store db; txn := None; faults := faults db |}
  | CREATE movie =>
      match txn db with
      | Some rows =>
          {| store := store db; txn := Some (rows ++ [movie]);
             faults := faults db |}
      | None =>
          {| store := store db ++ [[movie]]; txn := None;
             faults := faults db |}
      end
  end.

(** One awaited call: the new client state and the exception, if any. *)
Definition call (db : Surreal) (stmt : Statement) : Surreal * option Thrown :=
  match faults db with
  | true :: rest =>
      ({| store := store db; txn := txn db; faults := rest |},
       Some (DbError stmt))
  | false :: rest =>
      (apply {| store := store db; txn := txn db; faults := rest |} stmt,
       None)
  | [] => (apply db stmt, None)
  end.

(** [db.query(...)] and [db.create('movie', movie)] *)
Definition query (db : Surreal) (stmt : Statement) := call db stmt.
Definition create (db : Surreal) (movie : Row.t) := call db (CREATE movie).

(** *** [sendBatchToSurrealDB] *)

(** [for (const movie of formattedMovies) await db.create('movie', movie)] *)
Fixpoint create_each (db : Surreal) (formattedMovies : list Row.t)
  : Surreal * option Thrown :=
  match formattedMovies with
  | [] => (db, None)
  | movie :: rest =>
      match create db movie with
      | (db', None) => create_each db' rest
      | (db', Some error) => (db', Some error)
      end
  end.

Definition sendBatchToSurrealDB (db : Surreal) (movies : list Movie.t)
  : Surreal * option Thrown :=
  match query db BEGIN_TRANSACTION with
  | (db0, Some error) => (db0, Some error)          (* outside the [try] *)
  | (db0, None) =>
      let formattedMovies := map formatMovieForDB movies in
      let tried :=
        match create_each db0 formattedMovies with
        | (db1, None) => query db1 COMMIT_TRANSACTION
        | (db1, Some error) => (db1, Some error)
        end in
      match tried with
      | (db2, None) => (db2, None)
      | (db2, Some error) =>
          match query db2 CANCEL_TRANSACTION with
          | (db3, None) => (db3, Some error)        (* [throw error] *)
          | (db3, Some error') => (db3, Some error')
          end
      end
  end.

(** *** The scanner of [sendMoviesToSurrealDB]

    The loop variables that recover object boundaries, and the body of
    the [for] loop over the characters of a line up to the point where an
    object is complete.  [scan_char] returns the text handed to
    [JSON.parse] when the character closes an object; the buffer is then
    empty, as both the [try] block and its [catch] leave it. *)

Record Scanner : Type := mkScanner {
  objectBuffer : string;
  openBraces : Z;
  inQuotes : bool;
  escapeNext : bool
}.

Definition scan_char (s : Scanner) (char : ascii) : Scanner * option string :=
  let buf := JS.push (objectBuffer s) char in
  if escapeNext s then
    (mkScanner buf (openBraces s) (inQuotes s) false, None)
  else if Ascii.eqb char JS.backslash then
    (mkScanner buf (openBraces s) (inQuotes s) true, None)
  else if Ascii.eqb char JS.dquote then
    (mkScanner buf (openBraces s) (negb (inQuotes s)) (escapeNext s), None)
  else if negb (inQuotes s) then
    if Ascii.eqb char JS.lbrace then
      (mkScanner buf (openBraces s + 1) (inQuotes s) (escapeNext s), None)
    else if Ascii.eqb char JS.rbrace then
      if openBraces s - 1 =? 0 then
        (mkScanner EmptyString (openBraces s - 1) (inQuotes s) (escapeNext s),
         Some buf)
      else
        (mkScanner buf (openBraces s - 1) (inQuotes s) (escapeNext s), None)
    else
      (mkScanner buf (openBraces s) (inQuotes s) (escapeNext s), None)
  else
    (mkScanner buf (openBraces s) (inQuotes s) (escapeNext s), None).

(** [if (objectBuffer && openBraces > 0) objectBuffer += "\n"] *)
Definition end_of_line (s : Scanner) : Scanner :=
  if JS.truthy_string (objectBuffer s) && (0 <? openBraces s) then
    mkScanner (JS.push (objectBuffer s) JS.LF)
              (openBraces s) (inQuotes s) (escapeNext s)
  else s.

(** The scanner on its own: the texts it completes, in order. *)
Fixpoint scan_chars (s : Scanner) (line : string) : Scanner * list string :=
  match line with
  | EmptyString => (s, [])
  | String char rest =>
      let (s1, out) := scan_char s char in
      let (s2, outs) := scan_chars s1 rest in
      (s2, match out with Some o => o :: outs | None => outs end)
  end.

Definition scan_line (s : Scanner) (line : string) : Scanner * list string :=
  let (s1, outs) := scan_chars s line in (end_of_line s1, outs).

Fixpoint scan_lines (s : Scanner) (lines : list string)
  : Scanner * list string :=
  match lines with
  | [] => (s, [])
  | line :: rest =>
      let (s1, outs1) := scan_line s line in
      let (s2, outs2) := scan_lines s1 rest in
      (s2, outs1 ++ outs2)
  end.

Definition idle : Scanner := mkScanner EmptyString 0 false false.

(** *** The ingestion state and console output *)

Inductive Output : Type :=
| Clear                                   (* [console.clear()] *)
| RecordsCreated (movies batches : nat)   (* "Records created: m (b batches)" *)
| Completed (movies batches : nat)        (* "Completed! ... m movies ... b batches." *)
| ErrorParsingObject (err : Thrown)       (* "Error parsing object:" err *)
| Error (error : Thrown).                 (* "Error:" error *)

Record Ingest : Type := mkIngest {
  movieCount : nat;
  batchCount : nat;
  currentBatch : list Movie.t;
  db : Surreal;
  console : list Output
}.

Section Pipeline.

(** [JSON.parse(text) as Movie]; [None] when it throws. *)
Variable JSON_parse : string -> option Movie.t.
Variable batchSize : Z.

(** The [try { ... } catch (err) { ... }] run on a completed object. *)
Definition on_object (st : Ingest) (text : string) : Ingest :=
  match JSON_parse text with
  | None =>
      mkIngest (movieCount st) (batchCount st) (currentBatch st) (db st)
               (console st ++ [ErrorParsingObject SyntaxError])
  | Some movie =>
      let batch := currentBatch st ++ [movie] in
      let count := S (movieCount st) in
      if Z.of_nat (length batch) >=? batchSize then
        match sendBatchToSurrealDB (db st) batch with
        | (db', None) =>
            mkIngest count (S (batchCount st)) [] db'
                     (console st
                      ++ [Clear; RecordsCreated count (S (batchCount st))])
        | (db', Some err) =>
            (* the rejection lands in the same [catch] *)
            mkIngest count (batchCount st) batch db'
                     (console st ++ [ErrorParsingObject err])
        end
      else
        mkIngest count (batchCount st) batch (db st) (console st)
  end.

Definition for_char (st : Scanner * Ingest) (char : ascii)
  : Scanner * Ingest :=
  match scan_char (fst st) char with
  | (s, None) => (s, snd st)
  | (s, Some text) => (s, on_object (snd st) text)
  end.

Fixpoint for_chars (st : Scanner * Ingest) (line : string)
  : Scanner * Ingest :=
  match line with
  | EmptyString => st
  | String char rest => for_chars (for_char st char) rest
  end.

Definition for_line (st : Scanner * Ingest) (line : string)
  : Scanner * Ingest :=
  let (s, ing) := for_chars st line in (end_of_line s, ing).

Definition for_lines (st : Scanner * Ingest) (lines : list string)
  : Scanner * Ingest :=
  fold_left for_line lines st.

(** After the loop: the final batch, the completion message, and the
    outer [catch].  The second component is the error the outer [catch]
    received, if any. *)
Definition finish (st : Ingest) : Ingest * option Thrown :=
  match currentBatch st with
  | [] =>
      (mkIngest (movieCount st) (batchCount st) [] (db st)
                (console st
                 ++ [Completed (movieCount st) (batchCount st)]),
       None)
  | _ :: _ =>
      match sendBatchToSurrealDB (db st) (currentBatch st) with
      | (db', None) =>
          (mkIngest (movieCount st) (S (batchCount st)) (currentBatch st)
                    db'
                    (console st
                     ++ [Clear;
                         RecordsCreated (movieCount st) (S (batchCount st));
                         Completed (movieCount st) (S (batchCount st))]),
           None)
      | (db', Some error) =>
          (mkIngest (movieCount st) (batchCount st) (currentBatch st) db'
                    (console st ++ [Error error]),
           Some error)
      end
  end.

(** [sendMoviesToSurrealDB], from the point where the session [db] is
    open to the end of the outer [try]/[catch]. *)
Definition sendMoviesToSurrealDB (db : Surreal) (lines : list string)
  : Ingest * option Thrown :=
  finish (snd (for_lines (idle, mkIngest 0 0 [] db []) lines)).

End Pipeline.

End JsonToDb.


(* ================================================================= *)
(** ** The statement generator [convertMoviesToOptimizedSurql] *)

Module Surql.

(** The constants bound at the head of [formatMovieObject]. *)
Record Bindings : Type := mkBindings {
  title : string;
  overview : string;
  tagline : string;
  poster : string;
  release_date : string;
  budget : float;
  revenue : float;
  runtime : float;
  vote_average : float;
  language : string;
  genres : string;
  collection : string
}.

Definition bindings (movie : Movie.t) : Bindings :=
  {| title := escapeStr (Some (JS.or_string (Movie.title movie) EmptyString));
     overview :=
       escapeStr (Some (JS.or_string (Movie.overview movie) EmptyString));
     tagline :=
       escapeStr (Some (JS.or_string (Movie.tagline movie) EmptyString));
     poster := escapeStr (Some (JS.or_string (Movie.poster_path movie) "/empty"));
     release_date := JS.or_string (Movie.release_date movie) "0001-01-01";
     budget := JS.or_number (Movie.budget movie) 0%float;
     revenue := JS.or_number (Movie.revenue movie) 0%float;
     runtime := JS.or_number (Movie.runtime movie) 0%float;
     vote_average := JS.or_number (Movie.vote_average movie) 0%float;
     language := JS.or_string (Movie.original_language movie) "en";
     genres :=
       match Movie.genres movie with
       | Some (g :: gs) =>
           ("["
            ++ JS.join ", "
                 (map (fun genre =>
                         ("genre:" ++ JS.ToString (Genre.id genre))%string)
                      (g :: gs))
            ++ "]")%string
       | _ => "[genre:0]"%string
       end;
     collection :=
       match Movie.belongs_to_collection movie with
       | Some c => ("collection:" ++ JS.ToString (Collection.id c))%string
       | None => "NULL"%string
       end |}.

Section Template.

(** [`${ x }`] for a number field, which need not be integral. *)
Variable NumberToString : float -> string.

Definition formatMovieObject (movie : Movie.t) : string :=
  let b := bindings movie in
  JS.join (String JS.LF EmptyString)
    [ "  {"%string;
      ("    id: " ++ JS.ToString (Movie.id movie) ++ ",")%string;
      ("    title: '" ++ title b ++ "',")%string;
      ("    budget: " ++ NumberToString (budget b) ++ ",")%string;
      ("    overview: '" ++ overview b ++ "',")%string;
      ("    poster: '" ++ poster b ++ "',")%string;
      ("    release_date: <datetime>'" ++ release_date b ++ "',")%string;
      ("    revenue: " ++ NumberToString (revenue b) ++ ",")%string;
      ("    runtime: " ++ NumberToString (runtime b) ++ ",")%string;
      ("    tagline: '" ++ tagline b ++ "',")%string;
      ("    vote_average: " ++ NumberToString (vote_average b) ++ ",")%string;
      ("    language: language:" ++ language b ++ ",")%string;
      ("    genre: " ++ genres b ++ ",")%string;
      ("    collection: " ++ collection b)%string;
      "  }"%string ].

End Template.

End Surql.

(* ================================================================= *)
(** ** Vocabulary of the statements *)

(** *** Object texts

    An object text is described by its tokens: a string literal with its
    body, an opening or closing brace, a line break, or any other
    character met outside a string literal. *)

Inductive token : Type :=
| Other (c : ascii)
| Open
| Close
| Str (body : string)
| Break.

(** The body of a string literal: every double quote in it is escaped, and
    it does not end on a pending backslash.  [esc] tells whether the
    previous character was an unescaped backslash. *)
Fixpoint body_ok (esc : bool) (body : string) : bool :=
  match body with
  | EmptyString => negb esc
  | String c rest =>
      if esc then body_ok false rest
      else if Ascii.eqb c JS.backslash then body_ok true rest
      else if Ascii.eqb c JS.dquote then false
      else body_ok false rest
  end.

(** A character [readline] leaves inside a line. *)
Definition in_line (c : ascii) : bool :=
  negb (Ascii.eqb c JS.LF || Ascii.eqb c JS.CR).

Fixpoint one_line (s : string) : bool :=
  match s with
  | EmptyString => true
  | String c rest => in_line c && one_line rest
  end.

Definition token_ok (t : token) : bool :=
  match t with
  | Other c =>
      negb (Ascii.eqb c JS.backslash || Ascii.eqb c JS.dquote
            || Ascii.eqb c JS.lbrace || Ascii.eqb c JS.rbrace)
      && in_line c
  | Str body => body_ok false body && one_line body
  | Open | Close | Break => true
  end.

Definition render_token (t : token) : string :=
  match t with
  | Other c => String c EmptyString
  | Open => String JS.lbrace EmptyString
  | Close => String JS.rbrace EmptyString
  | Str body => String JS.dquote (JS.push body JS.dquote)
  | Break => String JS.LF EmptyString
  end.

(** The text of [ts], line breaks included. *)
Fixpoint render (ts : list token) : string :=
  match ts with
  | [] => EmptyString
  | t :: rest => (render_token t ++ render rest)%string
  end.

(** The nesting depth reached after [ts] when started at depth [d],
    provided no closing brace brings it down to zero on the way. *)
Fixpoint nesting (d : Z) (ts : list token) : option Z :=
  match ts with
  | [] => Some d
  | Open :: rest => nesting (d + 1) rest
  | Close :: rest => if 1 <? d then nesting (d - 1) rest else None
  | _ :: rest => nesting d rest
  end.

(** The depth after one token. *)
Definition depth_after (d : Z) (t : token) : Z :=
  match t with Open => d + 1 | Close => d - 1 | _ => d end.

(** The lines [readline] makes of the text of [ts], of which [cur] is the
    part of the current line already seen. *)
Fixpoint split_lines (cur : string) (ts : list token) : list string :=
  match ts with
  | [] => [cur]
  | Break :: rest => cur :: split_lines EmptyString rest
  | t :: rest => split_lines (cur ++ render_token t) rest
  end.

(** The text of the object whose content between the outer braces is
    [inner], and the input lines that carry it. *)
Definition object_text (inner : list token) : string :=
  String JS.lbrace (JS.push (render inner) JS.rbrace).

Definition object_lines (inner : list token) : list string :=
  split_lines EmptyString (Open :: inner ++ [Close]).

(** A string literal whose body holds an escaped double quote between
    [pre] and [post]. *)
Definition escaped_quote : string :=
  String JS.backslash (String JS.dquote EmptyString).

Definition quoting (pre post : string) : token :=
  Str (pre ++ escaped_quote ++ post).

(** *** Decoding *)

(** The entities [JSON.parse] yields on a list of texts, in order. *)
Definition decode (JSON_parse : string -> option Movie.t)
  (texts : list string) : list Movie.t :=
  flat_map (fun text => match JSON_parse text with
                        | Some movie => [movie]
                        | None => []
                        end) texts.

(** The texts on which [JSON.parse] throws. *)
Definition rejected (JSON_parse : string -> option Movie.t)
  (texts : list string) : list string :=
  filter (fun text => match JSON_parse text with
                      | Some _ => false
                      | None => true
                      end) texts.

(** The number of "Error parsing object: SyntaxError" lines on a console. *)
Definition syntax_errors (console : list JsonToDb.Output) : nat :=
  length (filter (fun o => match o with
                           | JsonToDb.ErrorParsingObject JsonToDb.SyntaxError =>
                               true
                           | _ => false
                           end) console).

(** The count messages on a console. *)
Definition reports_counts (o : JsonToDb.Output) : bool :=
  match o with
  | JsonToDb.RecordsCreated _ _ | JsonToDb.Completed _ _ => true
  | _ => false
  end.

(** The records committed to the store, oldest first. *)
Definition committed (db : JsonToDb.Surreal) : list JsonToDb.Row.t :=
  concat (JsonToDb.store db).

(** A session in which no call is rejected. *)
Definition reliable (db : JsonToDb.Surreal) : Prop := JsonToDb.faults db = [].

(** The texts the scanner of [sendMoviesToSurrealDB] completes on an
    input. *)
Definition objects (lines : list string) : list string :=
  snd (JsonToDb.scan_lines JsonToDb.idle lines).

(** The books balance between two ingestion states across the texts
    [texts]: every decodable text is counted and sits either in the store
    or in the open batch, every committed transaction is counted, earlier
    transactions are still there, and every undecodable text has its line
    on the console. *)
Definition accounts_for (JSON_parse : string -> option Movie.t)
  (texts : list string) (st st' : JsonToDb.Ingest) : Prop :=
  JsonToDb.movieCount st'
  = (JsonToDb.movieCount st + length (decode JSON_parse texts))%nat
  /\ committed (JsonToDb.db st')
     ++ map JsonToDb.formatMovieForDB (JsonToDb.currentBatch st')
     = committed (JsonToDb.db st)
       ++ map JsonToDb.formatMovieForDB
            (JsonToDb.currentBatch st ++ decode JSON_parse texts)
  /\ (exists more,
        JsonToDb.store (JsonToDb.db st')
        = JsonToDb.store (JsonToDb.db st) ++ more
        /\ JsonToDb.batchCount st'
           = (JsonToDb.batchCount st + length more)%nat)
  /\ syntax_errors (JsonToDb.console st')
     = (syntax_errors (JsonToDb.console st)
        + length (rejected JSON_parse texts))%nat.

(** The completion message. *)
Definition is_completed (o : JsonToDb.Output) : bool :=
  match o with JsonToDb.Completed _ _ => true | _ => false end.

(** Whether one of the next [n] calls of the session is rejected. *)
Definition rejects_within (n : nat) (db : JsonToDb.Surreal) : bool :=
  existsb (fun fault => fault) (firstn n (JsonToDb.faults db)).

(** *** Defaults and escaping *)

(** An optional property that is absent or falsy. *)
Definition falsy_string (x : option string) : bool :=
  match x with Some (String _ _) => false | _ => true end.

Definition falsy_number (x : option float) : bool :=
  match x with Some n => negb (JS.truthy_number n) | None => true end.

(** The date the formatters fall back on. *)
Definition epoch : string := "0001-01-01".

(** Every character of [s] satisfies [p]. *)
Fixpoint all_chars (p : ascii -> bool) (s : string) : bool :=
  match s with
  | EmptyString => true
  | String c rest => p c && all_chars p rest
  end.

(** The characters [escapeStr] is to take out of a string. *)
Definition is_control (c : ascii) : bool :=
  Ascii.eqb c JS.LF || Ascii.eqb c JS.CR || Ascii.eqb c JS.TAB
  || Ascii.eqb c JS.FF.

(** Every single quote of [s] comes right after a backslash; [prev] tells
    whether the character before [s] is one. *)
Fixpoint quotes_escaped (prev : bool) (s : string) : bool :=
  match s with
  | EmptyString => true
  | String c rest =>
      (if Ascii.eqb c JS.squote then prev else true)
      && quotes_escaped (Ascii.eqb c JS.backslash) rest
  end.

(** Whether the text [s], put after a character for which [prev] tells
    whether it is a backslash, ends on a backslash. *)
Fixpoint ends_on_backslash (prev : bool) (s : string) : bool :=
  match s with
  | EmptyString => prev
  | String c rest => ends_on_backslash (Ascii.eqb c JS.backslash) rest
  end.

(** *** Sample data

    [JSON.parse] on the texts used in the examples: three well-formed
    objects, and a [SyntaxError] on everything else the examples feed it
    (an object with a missing value). *)
Definition JSON_parse_sample (text : string) : option Movie.t :=
  if String.eqb text (json "{'id':1}") then Some (Movie.bare 1)
  else if String.eqb text (json "{'id':2}") then Some (Movie.bare 2)
  else if String.eqb text (json "{'id':3}") then Some (Movie.bare 3)
  else None.

Definition empty_db (faults : list bool) : JsonToDb.Surreal :=
  JsonToDb.mkSurreal [] None faults.

(* ================================================================= *)
(** ** The statement file of [convertMoviesToOptimizedSurql] *)

Module Generator.

Definition NL : string := String JS.LF EmptyString.

Inductive Output : Type :=
| Processed (movies batches : nat)   (* "Processed m movies (b batches)..." *)
| ErrorParsingObject                 (* "Error parsing object:" err *)
| Completed (movies batches : nat)   (* "Completed! Generated ... m movies in b batches." *)
| OutputSaved (outputPath : string). (* "Output saved to: path" *)

(** The loop variables next to the scanner's; [writeStream] is the list
    of the chunks written so far, oldest first. *)
Record State : Type := mkState {
  movieCount : nat;
  batchCount : nat;
  currentBatch : list Movie.t;
  writeStream : list string;
  console : list Output
}.

Section Generate.

Variable JSON_parse : string -> option Movie.t.
Variable batchSize : Z.
Variable NumberToString : float -> string.
(** [new Date().toISOString()] *)
Variable now : string.
Variable outputPath : string.

(** The loop of [writeBatchToFile] over the movies: each object, then a
    comma for all but the last item. *)
Fixpoint write_movies (movies : list Movie.t) : list string :=
  match movies with
  | [] => []
  | movie :: rest =>
      Surql.formatMovieObject NumberToString movie
      :: match rest with
         | [] => [NL]
         | _ :: _ => ("," ++ NL)%string :: write_movies rest
         end
  end.

Definition writeBatchToFile (writeStream : list string)
  (movies : list Movie.t) (batchNumber : nat) : list string :=
  writeStream
  ++ [ ("-- Batch " ++ JS.ToString (Z.of_nat batchNumber + 1) ++ NL)%string;
       ("LET $movies = [" ++ NL)%string ]
  ++ write_movies movies
  ++ [ ("];" ++ NL ++ NL)%string;
       ("FOR $movie IN $movies {" ++ NL)%string;
       ("  CREATE movie CONTENT $movie;" ++ NL)%string;
       ("};" ++ NL ++ NL)%string ].

(** The [try { ... } catch (err) { ... }] run on a completed object. *)
Definition on_object (st : State) (text : string) : State :=
  match JSON_parse text with
  | None =>
      mkState (movieCount st) (batchCount st) (currentBatch st)
              (writeStream st) (console st ++ [ErrorParsingObject])
  | Some movie =>
      let batch := currentBatch st ++ [movie] in
      let count := S (movieCount st) in
      if Z.of_nat (length batch) >=? batchSize then
        mkState count (S (batchCount st)) []
                (writeBatchToFile (writeStream st) batch (batchCount st))
                (console st ++ [Processed count (S (batchCount st))])
      else
        mkState count (batchCount st) batch (writeStream st) (console st)
  end.

(** The loop over the lines; its scanner variables and their updates are
    those of [sendMoviesToSurrealDB], character for character. *)
Definition for_char (st : JsonToDb.Scanner * State) (char : ascii)
  : JsonToDb.Scanner * State :=
  match JsonToDb.scan_char (fst st) char with
  | (s, None) => (s, snd st)
  | (s, Some text) => (s, on_object (snd st) text)
  end.

Fixpoint for_chars (st : JsonToDb.Scanner * State) (line : string)
  : JsonToDb.Scanner * State :=
  match line with
  | EmptyString => st
  | String char rest => for_chars (for_char st char) rest
  end.

Definition for_line (st : JsonToDb.Scanner * State) (line : string)
  : JsonToDb.Scanner * State :=
  let (s, gen) := for_chars st line in (JsonToDb.end_of_line s, gen).

Definition header : list string :=
  [ ("-- Optimized SurrealDB Movie Import Statements" ++ NL)%string;
    ("-- Generated on " ++ now ++ NL)%string;
    ("-- Configured for maximum ingest performance with SurrealDB 2.2.1"
     ++ NL ++ NL)%string;
    ("BEGIN TRANSACTION;" ++ NL ++ NL)%string ].

(** After the loop: the remaining movies, the commit and the messages. *)
Definition finish (st : State) : State :=
  let st1 :=
    match currentBatch st with
    | [] => st
    | _ :: _ =>
        mkState (movieCount st) (S (batchCount st)) (currentBatch st)
                (writeBatchToFile (writeStream st) (currentBatch st)
                                  (batchCount st))
                (console st)
    end in
  mkState (movieCount st1) (batchCount st1) (currentBatch st1)
          (writeStream st1 ++ [("COMMIT TRANSACTION;" ++ NL)%string])
          (console st1
           ++ [Completed (movieCount st1) (batchCount st1);
               OutputSaved outputPath]).

Definition convertMoviesToOptimizedSurql (lines : list string) : State :=
  finish (snd (fold_left for_line lines
                 (JsonToDb.idle, mkState 0 0 [] header []))).

End Generate.

End Generator.

(* ================================================================= *)
(** ** The importer scripts *)

Module Importer.

(** [new RecordId(tb, id)] *)
Inductive Id : Type :=
| IdNumber (n : Z)
| IdString (s : string).

Record RecordId : Type := mkRecordId { tb : string; id : Id }.

(** The parameters bound to the [CREATE movie SET ...] query. *)
Module Params.
Record t : Type := mk {
  id : Z;
  title : string;
  budget : float;
  overview : string;
  poster : string;
  release_date : string;
  revenue : float;
  runtime : float;
  tagline : string;
  vote_average : float;
  language : RecordId;
  genre : list RecordId;
  collection : option RecordId   (* [None] is [null] *)
}.
End Params.

Inductive Thrown : Type :=
| TypeError       (* [movie.genres.length] on a movie without [genres] *)
| QueryError.     (* the query is rejected *)

(** The object literal passed to [db.query]; reading [movie.genres.length]
    throws when the movie has no [genres]. *)
Definition movie_params (movie : Movie.t) : Params.t + Thrown :=
  match Movie.genres movie with
  | None => inr TypeError
  | Some genres =>
      inl {| Params.id := Movie.id movie;
             Params.title := JS.or_string (Movie.title movie) EmptyString;
             Params.budget := JS.or_number (Movie.budget movie) 0%float;
             Params.overview :=
               JS.or_string (Movie.overview movie) EmptyString;
             Params.poster := JS.or_string (Movie.poster_path movie) "/empty";
             Params.release_date :=
               JS.or_string (Movie.release_date movie) "0001-01-01";
             Params.revenue := JS.or_number (Movie.revenue movie) 0%float;
             Params.runtime := JS.or_number (Movie.runtime movie) 0%float;
             Params.tagline := JS.or_string (Movie.tagline movie) EmptyString;
             Params.vote_average :=
               JS.or_number (Movie.vote_average movie) 0%float;
             Params.language :=
               mkRecordId "language"
                 (IdString (JS.or_string (Movie.original_language movie) "en"));
             Params.genre :=
               match genres with
               | [] => [mkRecordId "genre" (IdNumber 0)]
               | _ :: _ =>
                   map (fun genre => mkRecordId "genre"
                                       (IdNumber (Genre.id genre)))
                       genres
               end;
             Params.collection :=
               match Movie.belongs_to_collection movie with
               | Some c =>
                   Some (mkRecordId "collection"
                                    (IdNumber (Collection.id c)))
               | None => None
               end |}
  end.

(** The session: the movies created so far, oldest first, and for each
    query to come whether it is rejected (a query beyond the end of the
    list is accepted).  The queries run outside any transaction. *)
Record Session : Type := mkSession {
  created : list Params.t;
  faults : list bool
}.

(** [await db.query("CREATE movie SET ...", params)] *)
Definition query (db : Session) (params : Params.t)
  : Session * option Thrown :=
  match faults db with
  | true :: rest => (mkSession (created db) rest, Some QueryError)
  | false :: rest => (mkSession (created db ++ [params]) rest, None)
  | [] => (mkSession (created db ++ [params]) [], None)
  end.

(** [for (const movie of movies) { await db.query(...) }] at the top level
    of the script: the first exception ends the script. *)
Fixpoint import_movies (db : Session) (movies : list Movie.t)
  : Session * option Thrown :=
  match movies with
  | [] => (db, None)
  | movie :: rest =>
      match movie_params movie with
      | inr error => (db, Some error)
      | inl params =>
          match query db params with
          | (db', None) => import_movies db' rest
          | (db', Some error) => (db', Some error)
          end
      end
  end.

End Importer.

(* ================================================================= *)
(** ** [collections.ts] *)

Module Collections.

(** [s.split(c)] for a one-character separator. *)
Fixpoint split (c : ascii) (s : string) : list string :=
  match s with
  | EmptyString => [EmptyString]
  | String a rest =>
      if Ascii.eqb a c then EmptyString :: split c rest
      else match split c rest with
           | piece :: pieces => String a piece :: pieces
           | [] => [String a EmptyString]
           end
  end.

(** [`${ item.collection.split(":")[1] }`]: the second piece, or the text
    of [undefined] when there is none. *)
Definition id_of (collection : string) : string :=
  match nth_error (split ":" collection) 1 with
  | Some id => id
  | None => "undefined"
  end.

(** [xs.slice(i, j)] for [0 <= i <= j]. *)
Definition slice {A : Type} (xs : list A) (i j : nat) : list A :=
  firstn (j - i) (skipn i xs).

Definition batchSize : nat := 40.

Inductive Output : Type :=
| Processed (done total : nat)  (* "Processed d of t collections. Waiting for rate limit..." *)
| Saved (count : nat).          (* "Saved data for c collections to collection_data.json" *)

(** What the script has done that does not depend on the order in which
    the requests of one window complete: the data gathered, the progress
    messages, the pauses taken, and the file written. *)
Record State (Data : Type) : Type := mkState {
  collectionData : list Data;
  console : list Output;
  pauses : nat;
  written : option (list Data)
}.
Arguments mkState {Data}.
Arguments collectionData {Data}.
Arguments console {Data}.
Arguments pauses {Data}.
Arguments written {Data}.

Section Fetch.

Variable Data : Type.
(** The [async (item) => ...] of a window, by collection id: the decoded
    response, or [None] for the [null] returned when the request throws. *)
Variable fetch : string -> option Data.

(** [results.filter(data => data !== null)] after [Promise.all]. *)
Definition fetch_window (batch : list string) : list Data :=
  flat_map (fun collection => match fetch (id_of collection) with
                              | Some data => [data]
                              | None => []
                              end) batch.

(** [for (let i = 0; i < collections.length; i += batchSize)], with one
    unit of [fuel] per iteration. *)
Fixpoint windows (fuel : nat) (collections : list string) (i : nat)
  (st : State Data) : State Data :=
  match fuel with
  | O => st
  | S fuel' =>
      if (i <? length collections)%nat then
        let batch := slice collections i (i + batchSize) in
        let data := collectionData st ++ fetch_window batch in
        let st' :=
          if (i + batchSize <? length collections)%nat then
            mkState data
                    (console st
                     ++ [Processed (i + length batch) (length collections)])
                    (S (pauses st)) (written st)
          else
            mkState data (console st) (pauses st) (written st) in
        windows fuel' collections (i + batchSize)%nat st'
      else st
  end.

(** The script: the outer loop over [collections] ends the process at the
    end of its first iteration, and does nothing on an empty list. *)
Definition main (collections : list string) : State Data :=
  match collections with
  | [] => mkState [] [] 0 None
  | _ :: _ =>
      let st := windows (length collections) collections 0
                        (mkState [] [] 0 None) in
      mkState (collectionData st)
              (console st ++ [Saved (length (collectionData st))])
              (pauses st) (Some (collectionData st))
  end.

End Fetch.

End Collections.

(* ================================================================= *)
(** ** Vocabulary of the further properties *)

(** The texts of a list put end to end. *)
Fixpoint glue (xs : list string) : string :=
  match xs with
  | [] => EmptyString
  | x :: rest => (x ++ glue rest)%string
  end.

(** The six characters [escapeStr] rewrites. *)
Definition is_special (c : ascii) : bool :=
  Ascii.eqb c JS.backslash || Ascii.eqb c JS.squote || is_control c.

(** The number of characters of [s] that satisfy [p]. *)
Fixpoint count_chars (p : ascii -> bool) (s : string) : nat :=
  match s with
  | EmptyString => 0%nat
  | String c rest => ((if p c then 1 else 0) + count_chars p rest)%nat
  end.

(** Reading an escaped text back: the character behind a backslash. *)
Definition unescaped (d : ascii) : ascii :=
  if Ascii.eqb d "n" then JS.LF
  else if Ascii.eqb d "r" then JS.CR
  else if Ascii.eqb d "t" then JS.TAB
  else if Ascii.eqb d "f" then JS.FF
  else d.

Fixpoint unescape (s : string) : string :=
  match s with
  | EmptyString => EmptyString
  | String c rest =>
      if Ascii.eqb c JS.backslash then
        match rest with
        | String d rest' => String (unescaped d) (unescape rest')
        | EmptyString => String c EmptyString
        end
      else String c (unescape rest)
  end.

(** Scanning token by token: a line break ends the line, any other
    token is scanned as its text. *)
Fixpoint walk (s : JsonToDb.Scanner) (ts : list token)
  : JsonToDb.Scanner * list string :=
  match ts with
  | [] => (s, [])
  | Break :: rest => walk (JsonToDb.end_of_line s) rest
  | t :: rest =>
      let (s1, outs1) := JsonToDb.scan_chars s (render_token t) in
      let (s2, outs2) := walk s1 rest in
      (s2, outs1 ++ outs2)
  end.

(** What may stand between two objects: line breaks and characters that
    are neither braces, quotes nor backslashes. *)
Definition is_separator (t : token) : bool :=
  match t with
  | Break => true
  | Other c => token_ok (Other c)
  | _ => false
  end.

Definition is_break (t : token) : bool :=
  match t with Break => true | _ => false end.

(** A separator followed by an object: its tokens, whether they are well
    formed, and the text the scanner makes of them, which keeps the
    separator without its line breaks. *)
Definition item_tokens (item : list token * list token) : list token :=
  fst item ++ Open :: snd item ++ [Close].

Definition item_ok (item : list token * list token) : bool :=
  forallb is_separator (fst item)
  && forallb token_ok (snd item)
  && match nesting 1 (snd item) with
     | Some d => d =? 1
     | None => false
     end.

Definition item_text (item : list token * list token) : string :=
  (render (filter (fun t => negb (is_break t)) (fst item))
   ++ object_text (snd item))%string.

(** A token of an object without nested objects, on one line. *)
Definition is_flat (t : token) : bool :=
  match t with
  | Open | Close | Break => false
  | _ => token_ok t
  end.

(** A text without its line feeds. *)
Definition without_LF (s : string) : string :=
  JS.replace JS.LF EmptyString s.

(** [sep] put between the elements of a list. *)
Fixpoint intersperse {A : Type} (sep : A) (xs : list A) : list A :=
  match xs with
  | [] => []
  | x :: rest =>
      x :: match rest with
           | [] => []
           | _ :: _ => sep :: intersperse sep rest
           end
  end.

(** The separator [fixJsonFile] writes between two objects. *)
Definition comma : string := ("," ++ Convert.NL)%string.

(** [fixJsonFile] and the scanner of [sendMoviesToSurrealDB] in step:
    the same depth and flags, and one chunk written for each of [objs],
    with commas between them. *)
Definition in_step (st : Convert.State) (s : JsonToDb.Scanner)
  (objs : list string) : Prop :=
  Convert.openBraces st = JsonToDb.openBraces s
  /\ Convert.inQuotes st = JsonToDb.inQuotes s
  /\ Convert.escapeNext st = JsonToDb.escapeNext s
  /\ Convert.writeStream st
     = ("[" ++ Convert.NL)%string :: intersperse comma objs
  /\ Convert.isFirstObject st = match objs with [] => true | _ :: _ => false end.

(** A dump in which every object starts on a line of its own, after any
    number of blank lines. *)
Definition own_lines (items : list (nat * list token)) : list string :=
  flat_map (fun item => repeat EmptyString (fst item) ++ object_lines (snd item))
           items.

Definition object_ok (inner : list token) : bool :=
  forallb token_ok inner
  && match nesting 1 inner with
     | Some d => d =? 1
     | None => false
     end.

(** The chunks [writeBatchToFile] writes for a list of batches, the first
    of which has number [k]. *)
Fixpoint write_batches (NumberToString : float -> string) (k : nat)
  (batches : list (list Movie.t)) : list string :=
  match batches with
  | [] => []
  | batch :: rest =>
      Generator.writeBatchToFile NumberToString [] batch k
      ++ write_batches NumberToString (S k) rest
  end.

(** The number of batches and the size of the last one when [M] entities
    are cut into batches of [B]. *)
Definition batch_count (M B : nat) : nat := ((M + B - 1) / B)%nat.

Definition last_batch_size (M B : nat) : nat :=
  if (M =? 0)%nat then 0%nat
  else if (M mod B =? 0)%nat then B else (M mod B)%nat.

(** A record link written the way [formatMovieForDB] writes it: the table
    and the id with a colon between them. *)
Definition record_link (r : Importer.RecordId) : string :=
  (Importer.tb r ++ ":"
   ++ match Importer.id r with
      | Importer.IdNumber n => JS.ToString n
      | Importer.IdString text => text
      end)%string.

(** The record [formatMovieForDB] would build from the parameters of the
    importer. *)
Definition row_of_params (p : Importer.Params.t) : JsonToDb.Row.t :=
  {| JsonToDb.Row.id := Importer.Params.id p;
     JsonToDb.Row.title := Importer.Params.title p;
     JsonToDb.Row.budget := Importer.Params.budget p;
     JsonToDb.Row.overview := Importer.Params.overview p;
     JsonToDb.Row.poster := Importer.Params.poster p;
     JsonToDb.Row.release_date := JS.new_Date (Importer.Params.release_date p);
     JsonToDb.Row.revenue := Importer.Params.revenue p;
     JsonToDb.Row.runtime := Importer.Params.runtime p;
     JsonToDb.Row.tagline := Importer.Params.tagline p;
     JsonToDb.Row.vote_average := Importer.Params.vote_average p;
     JsonToDb.Row.language := record_link (Importer.Params.language p);
     JsonToDb.Row.genre := map record_link (Importer.Params.genre p);
     JsonToDb.Row.collection :=
       option_map record_link (Importer.Params.collection p) |}.

(** A text without a colon. *)
Definition no_colon (s : string) : bool :=
  all_chars (fun c => negb (Ascii.eqb c ":")) s.

(** The progress messages of [collections.ts] for [total] collections:
    one after each of the windows [from], [from + 1], ... that is not the
    last. *)
Definition progress (from count total : nat) : list Collections.Output :=
  map (fun k => Collections.Processed (Collections.batchSize * S k) total)
      (seq from count).

(** *** Dumps

    A dump: objects, each after its separator, and then a tail. *)
Definition dump (items : list (list token * list token)) (tail : list token)
  : list string :=
  split_lines EmptyString (flat_map item_tokens items ++ tail).

(** No closing brace of [ts] is met at depth one, when [ts] starts at
    depth [d]: the text of [ts] closes no object. *)
Fixpoint closes_no_object (d : Z) (ts : list token) : bool :=
  match ts with
  | [] => true
  | Close :: rest => negb (d =? 1) && closes_no_object (d - 1) rest
  | t :: rest => closes_no_object (depth_after d t) rest
  end.

(** An ingestion state with another console. *)
Definition with_console (st : JsonToDb.Ingest)
  (console : list JsonToDb.Output) : JsonToDb.Ingest :=
  JsonToDb.mkIngest (JsonToDb.movieCount st) (JsonToDb.batchCount st)
                    (JsonToDb.currentBatch st) (JsonToDb.db st) console.

(* ================================================================= *)
(** ** Tactics *)

(** The tests a scanner makes on a closing brace and on a double quote. *)
Ltac at_rbrace :=
  change (Ascii.eqb JS.rbrace JS.backslash) with false;
  change (Ascii.eqb JS.rbrace JS.dquote) with false;
  change (Ascii.eqb JS.rbrace JS.lbrace) with false;
  change (Ascii.eqb JS.rbrace JS.rbrace) with true;
  cbv iota.

Ltac at_dquote :=
  change (Ascii.eqb JS.dquote JS.backslash) with false;
  change (Ascii.eqb JS.dquote JS.dquote) with true;
  cbv iota.

(** The projections of the scanner records. *)
Ltac scanner_fields :=
  cbn [JsonToDb.escapeNext JsonToDb.inQuotes JsonToDb.openBraces
       JsonToDb.objectBuffer
       Convert.escapeNext Convert.inQuotes Convert.openBraces
       Convert.lineBuffer Convert.isFirstObject Convert.writeStream negb].

(* ================================================================= *)
(** ** Strings *)

Section StringFacts.

Lemma append_nil_r (s : string) : (s ++ EmptyString)%string = s.
Proof. induction s as [|c s IH]; simpl; [reflexivity | now rewrite IH]. Qed.

Lemma append_assoc (a b c : string) :
  ((a ++ b) ++ c)%string = (a ++ (b ++ c))%string.
Proof. induction a as [|x a IH]; simpl; [reflexivity | now rewrite IH]. Qed.

Lemma push_append (a b : string) (c : ascii) :
  JS.push (a ++ b) c = (a ++ JS.push b c)%string.
Proof. unfold JS.push. apply append_assoc. Qed.

Lemma append_push (a b : string) (c : ascii) :
  (JS.push a c ++ b)%string = (a ++ String c b)%string.
Proof. unfold JS.push. now rewrite append_assoc. Qed.

Lemma trimEnd_push (s : string) (c : ascii) :
  JS.is_white_space c = false -> JS.trimEnd (JS.push s c) = JS.push s c.
Proof.
  intros Hc. induction s as [|x s IH]; simpl.
  - now rewrite Hc.
  - fold (JS.push s c). rewrite IH.
    destruct s; reflexivity.
Qed.

(** A text that starts and ends with a brace is its own [trim]. *)
Lemma trim_braced (inner : string) :
  JS.trim (String JS.lbrace (JS.push inner JS.rbrace))
  = String JS.lbrace (JS.push inner JS.rbrace).
Proof.
  unfold JS.trim. cbn [JS.trimStart].
  change (JS.is_white_space JS.lbrace) with false. cbv iota.
  change (String JS.lbrace (JS.push inner JS.rbrace))
    with (JS.push (String JS.lbrace inner) JS.rbrace).
  now apply trimEnd_push.
Qed.

End StringFacts.

(* ================================================================= *)
(** ** The scanner of [json-to-db.ts] *)

Section ScannerFacts.

Import JsonToDb.

(** A text is handed over only by a closing brace met outside a string
    literal and outside an escape, at depth one. *)
Lemma scan_char_emits (s : Scanner) (char : ascii) (text : string) :
  snd (scan_char s char) = Some text ->
  escapeNext s = false /\ inQuotes s = false /\ char = JS.rbrace
  /\ openBraces s = 1 /\ text = JS.push (objectBuffer s) char
  /\ fst (scan_char s char) = idle.
Proof.
  unfold scan_char.
  destruct s as [buf d q e]; cbn [escapeNext inQuotes openBraces objectBuffer].
  destruct e; [discriminate|].
  destruct (Ascii.eqb char JS.backslash); [discriminate|].
  destruct (Ascii.eqb char JS.dquote); [discriminate|].
  destruct q; cbn [negb]; [discriminate|].
  destruct (Ascii.eqb char JS.lbrace); [discriminate|].
  destruct (Ascii.eqb char JS.rbrace) eqn:Hr; [|discriminate].
  destruct (d - 1 =? 0) eqn:Hd; [|discriminate].
  cbn [fst snd]. intros [= <-].
  apply Ascii.eqb_eq in Hr. apply Z.eqb_eq in Hd.
  repeat split; try assumption; try lia.
  unfold idle. now rewrite Hd.
Qed.

(** The depth falls from a positive value to zero exactly when a text is
    handed over. *)
Lemma scan_char_emits_iff (s : Scanner) (char : ascii) :
  (exists text, snd (scan_char s char) = Some text)
  <-> (0 < openBraces s /\ openBraces (fst (scan_char s char)) = 0).
Proof.
  split.
  - intros [text H]. apply scan_char_emits in H.
    destruct H as (_ & _ & _ & Hd & _ & Hs). rewrite Hs. cbn. lia.
  - unfold scan_char.
    destruct s as [buf d q e]; cbn [escapeNext inQuotes openBraces objectBuffer].
    destruct e; [cbn; lia|].
    destruct (Ascii.eqb char JS.backslash); [cbn; lia|].
    destruct (Ascii.eqb char JS.dquote); [cbn; lia|].
    destruct q; cbn [negb]; [cbn; lia|].
    destruct (Ascii.eqb char JS.lbrace); [cbn; lia|].
    destruct (Ascii.eqb char JS.rbrace); [|cbn; lia].
    destruct (d - 1 =? 0) eqn:Hd; [intros _; eexists; reflexivity|].
    apply Z.eqb_neq in Hd. cbn. lia.
Qed.

(** After a backslash the next character changes neither the quote state
    nor the depth, whatever it is. *)
Lemma scan_char_escaped (s : Scanner) (char : ascii) :
  escapeNext s = true ->
  scan_char s char
  = (mkScanner (JS.push (objectBuffer s) char) (openBraces s) (inQuotes s)
               false, None).
Proof. intros H. unfold scan_char. now rewrite H. Qed.

Lemma scan_chars_app (s : Scanner) (a b : string) :
  scan_chars s (a ++ b)
  = (fst (scan_chars (fst (scan_chars s a)) b),
     snd (scan_chars s a) ++ snd (scan_chars (fst (scan_chars s a)) b)).
Proof.
  revert s. induction a as [|c a IH]; intros s; cbn [append scan_chars].
  - cbn [fst snd app]. now destruct (scan_chars s b).
  - destruct (scan_char s c) as [s1 out]. rewrite IH.
    destruct (scan_chars s1 a) as [s2 outs]. cbn [fst snd].
    destruct (scan_chars s2 b) as [s3 outs']. cbn [fst snd].
    destruct out; reflexivity.
Qed.

Lemma scan_lines_app (s : Scanner) (a b : list string) :
  scan_lines s (a ++ b)
  = (fst (scan_lines (fst (scan_lines s a)) b),
     snd (scan_lines s a) ++ snd (scan_lines (fst (scan_lines s a)) b)).
Proof.
  revert s. induction a as [|l a IH]; intros s; cbn [app scan_lines].
  - cbn [fst snd app]. now destruct (scan_lines s b).
  - destruct (scan_line s l) as [s1 outs1]. rewrite IH.
    destruct (scan_lines s1 a) as [s2 outs2]. cbn [fst snd].
    destruct (scan_lines s2 b) as [s3 outs3]. cbn [fst snd].
    now rewrite app_assoc.
Qed.

(** Inside a string literal the scanner stays inside it up to the end of
    the body, escaped quotes included. *)
Lemma scan_body (body buf : string) (d : Z) (esc : bool) :
  body_ok esc body = true ->
  scan_chars (mkScanner buf d true esc) body
  = (mkScanner (buf ++ body) d true false, []).
Proof.
  revert buf esc.
  induction body as [|c body IH]; intros buf esc H; cbn [scan_chars body_ok] in *.
  - destruct esc; [discriminate|]. now rewrite append_nil_r.
  - unfold scan_char; scanner_fields.
    destruct esc.
    + rewrite (IH _ _ H). now rewrite append_push.
    + destruct (Ascii.eqb c JS.backslash).
      * rewrite (IH _ _ H). now rewrite append_push.
      * destruct (Ascii.eqb c JS.dquote); [discriminate|].
        rewrite (IH _ _ H). now rewrite append_push.
Qed.

Lemma scan_token (t : token) (buf : string) (d : Z) :
  token_ok t = true ->
  (t = Close -> d - 1 <> 0) ->
  scan_chars (mkScanner buf d false false) (render_token t)
  = (mkScanner (buf ++ render_token t) (depth_after d t) false false, []).
Proof.
  intros Hok Hclose. destruct t as [c| | |body|]; cbn [render_token depth_after].
  - cbn [token_ok] in Hok. apply andb_true_iff in Hok.
    destruct Hok as [Hok _]. apply negb_true_iff in Hok.
    repeat (apply orb_false_iff in Hok; destruct Hok as [Hok ?]).
    cbn [scan_chars]. unfold scan_char.
    scanner_fields.
    now rewrite Hok, H1, H0, H.
  - reflexivity.
  - cbn [scan_chars]. unfold scan_char.
    scanner_fields.
    at_rbrace.
    specialize (Hclose eq_refl). apply Z.eqb_neq in Hclose.
    now rewrite Hclose.
  - cbn [token_ok] in Hok. apply andb_true_iff in Hok.
    destruct Hok as [Hok _].
    change (String JS.dquote (JS.push body JS.dquote))
      with (String JS.dquote EmptyString ++ (body ++ String JS.dquote EmptyString))%string.
    rewrite !scan_chars_app.
    change (scan_chars (mkScanner buf d false false)
                       (String JS.dquote EmptyString))
      with (mkScanner (JS.push buf JS.dquote) d true false, @nil string).
    cbn [fst snd]. rewrite (scan_body _ _ _ _ Hok). cbn [fst snd app].
    cbn [scan_chars]. unfold scan_char.
    scanner_fields.
    at_dquote.
    cbn [fst snd]. f_equal. f_equal.
    rewrite push_append. now rewrite append_push.
  - reflexivity.
Qed.

Lemma scan_tokens (ts : list token) (buf : string) (d d' : Z) :
  forallb token_ok ts = true ->
  nesting d ts = Some d' ->
  scan_chars (mkScanner buf d false false) (render ts)
  = (mkScanner (buf ++ render ts) d' false false, []).
Proof.
  revert buf d.
  induction ts as [|t ts IH]; intros buf d Hok Hn; cbn [render].
  - cbn in Hn. injection Hn as <-. cbn. now rewrite append_nil_r.
  - cbn [forallb] in Hok. apply andb_true_iff in Hok. destruct Hok as [Ht Hts].
    rewrite scan_chars_app.
    assert (Hstep : (t = Close -> d - 1 <> 0)
                    /\ nesting (depth_after d t) ts = Some d').
    { destruct t; cbn [nesting depth_after] in *; try (split; [discriminate|assumption]).
      destruct (1 <? d) eqn:Hd; [|discriminate].
      apply Z.ltb_lt in Hd. split; [intros _; lia | assumption]. }
    destruct Hstep as [Hc Hn'].
    rewrite (scan_token t buf d Ht Hc). cbn [fst snd].
    rewrite (IH _ _ Hts Hn'). cbn [fst snd app].
    now rewrite append_assoc.
Qed.

Lemma truthy_append (a b : string) :
  JS.truthy_string a = true -> JS.truthy_string (a ++ b) = true.
Proof. now destruct a. Qed.

Lemma truthy_push (a : string) (c : ascii) :
  JS.truthy_string (JS.push a c) = true.
Proof. now destruct a. Qed.

Lemma depth_after_positive (d d' : Z) (t : token) (ts : list token) :
  0 < d -> nesting d (t :: ts) = Some d' ->
  0 < depth_after d t /\ (t = Close -> d - 1 <> 0)
  /\ nesting (depth_after d t) ts = Some d'.
Proof.
  intros Hd Hn. destruct t; cbn [nesting depth_after] in *;
    try (repeat split; [lia | discriminate | assumption]).
  destruct (1 <? d) eqn:H1; [|discriminate]. apply Z.ltb_lt in H1.
  repeat split; [lia | intros _; lia | assumption].
Qed.

(** Inside an object that is still open, up to the brace that closes it:
    [cur] is the part of the current line already scanned, from [s0] at
    the start of the line to a buffer [buf] at depth [d]. *)
Lemma scan_object_rest (ts : list token) (cur : string) (s0 : Scanner)
  (buf : string) (d : Z) :
  scan_chars s0 cur = (mkScanner buf d false false, []) ->
  JS.truthy_string buf = true ->
  0 < d ->
  forallb token_ok ts = true ->
  nesting d ts = Some 1 ->
  scan_lines s0 (split_lines cur (ts ++ [Close]))
  = (idle, [JS.push (buf ++ render ts) JS.rbrace]).
Proof.
  revert cur s0 buf d.
  induction ts as [|t ts IH]; intros cur s0 buf d Hcur Hbuf Hd Hok Hn.
  - cbn in Hn. injection Hn as ->.
    cbn [app split_lines render render_token scan_lines]. unfold scan_line.
    rewrite scan_chars_app, Hcur. cbn [fst snd].
    rewrite append_nil_r. reflexivity.
  - cbn [forallb] in Hok. apply andb_true_iff in Hok. destruct Hok as [Ht Hts].
    destruct (depth_after_positive d 1 t ts Hd Hn) as (Hd' & Hc & Hn').
    assert (Hinline :
      scan_chars s0 (cur ++ render_token t)
      = (mkScanner (buf ++ render_token t) (depth_after d t) false false, [])).
    { rewrite scan_chars_app, Hcur. cbn [fst snd].
      now rewrite (scan_token t buf d Ht Hc). }
    cbn [render].
    destruct t as [c| | |body|]; cbn [app split_lines];
      try (rewrite (IH _ s0 _ _ Hinline (truthy_append _ _ Hbuf) Hd' Hts Hn');
           now rewrite append_assoc).
    (* a line break *)
    cbn [scan_lines]. unfold scan_line. rewrite Hcur.
    unfold end_of_line. cbn [objectBuffer openBraces inQuotes escapeNext].
    rewrite Hbuf. apply Z.ltb_lt in Hd. rewrite Hd. cbn [andb].
    apply Z.ltb_lt in Hd.
    rewrite (IH EmptyString _ (JS.push buf JS.LF) d eq_refl
                (truthy_push _ _) Hd Hts Hn').
    cbn [app render_token]. now rewrite append_push.
Qed.

(** A well-formed object, on one line or several, is handed over whole,
    once, and leaves the scanner idle. *)
Lemma scan_object (inner : list token) :
  forallb token_ok inner = true ->
  nesting 1 inner = Some 1 ->
  scan_lines idle (object_lines inner) = (idle, [object_text inner]).
Proof.
  intros Hok Hn. unfold object_lines. cbn [split_lines app render_token].
  rewrite (scan_object_rest inner _ idle (String JS.lbrace EmptyString) 1);
    try easy.
Qed.

End ScannerFacts.

(* ================================================================= *)
(** ** The scanner of [convert.ts] *)

Section ConvertFacts.

Import JsonToDb.

(** The brace and quote tracking of [fixJsonFile] is that of
    [sendMoviesToSurrealDB]; what differs is the buffer. *)
Lemma for_char_scan (st : Convert.State) (buf : string) (char : ascii) :
  Convert.for_char st char
  = match scan_char (mkScanner buf (Convert.openBraces st)
                               (Convert.inQuotes st) (Convert.escapeNext st))
                    char with
    | (s, None) =>
        Convert.mkState (Convert.isFirstObject st) (Convert.lineBuffer st)
                        (openBraces s) (inQuotes s) (escapeNext s)
                        (Convert.writeStream st)
    | (s, Some _) =>
        Convert.mkState false EmptyString
                        (openBraces s) (inQuotes s) (escapeNext s)
                        (Convert.writeStream st
                         ++ (if negb (Convert.isFirstObject st)
                             then [("," ++ Convert.NL)%string] else [])
                         ++ [JS.trim (Convert.lineBuffer st)])
    end.
Proof.
  unfold Convert.for_char, scan_char.
  destruct st as [first lb d q e ws];
    cbn [Convert.escapeNext Convert.inQuotes Convert.openBraces
         Convert.lineBuffer Convert.isFirstObject Convert.writeStream
         escapeNext inQuotes openBraces objectBuffer].
  destruct e; [reflexivity|].
  destruct (Ascii.eqb char JS.backslash); [reflexivity|].
  destruct (Ascii.eqb char JS.dquote); [reflexivity|].
  destruct q; cbn [negb]; [reflexivity|].
  destruct (Ascii.eqb char JS.lbrace); [reflexivity|].
  destruct (Ascii.eqb char JS.rbrace); [|reflexivity].
  destruct (d - 1 =? 0); reflexivity.
Qed.

(** While no object closes, [fixJsonFile] writes nothing and keeps its
    buffer. *)
Lemma for_chars_quiet (line : string) (st : Convert.State) (buf : string)
  (s' : Scanner) :
  scan_chars (mkScanner buf (Convert.openBraces st) (Convert.inQuotes st)
                        (Convert.escapeNext st)) line = (s', []) ->
  Convert.for_chars st line
  = Convert.mkState (Convert.isFirstObject st) (Convert.lineBuffer st)
                    (openBraces s') (inQuotes s') (escapeNext s')
                    (Convert.writeStream st).
Proof.
  revert st buf.
  induction line as [|c line IH]; intros st buf H;
    cbn [scan_chars Convert.for_chars] in *.
  - injection H as <-. now destruct st.
  - rewrite (for_char_scan st buf c).
    destruct (scan_char _ c) as [s1 out].
    destruct (scan_chars s1 line) as [s2 outs] eqn:Hrest.
    destruct out as [text|]; [discriminate|].
    injection H as -> ->.
    destruct s1 as [b1 d1 q1 e1]. cbn [openBraces inQuotes escapeNext].
    now rewrite (IH (Convert.mkState _ _ d1 q1 e1 _) b1 Hrest).
Qed.

Lemma convert_for_chars_app (a b : string) (st : Convert.State) :
  Convert.for_chars st (a ++ b)
  = Convert.for_chars (Convert.for_chars st a) b.
Proof.
  revert st. induction a as [|c a IH]; intros st; cbn; [reflexivity | apply IH].
Qed.

(** Inside an object that is still open, up to the brace that closes it:
    [fixJsonFile] gathers the lines and writes them when the brace
    comes. *)
Lemma fixJsonFile_object_rest (ts : list token) (cur : string)
  (st : Convert.State) (b buf : string) (d : Z) :
  scan_chars (mkScanner b (Convert.openBraces st) (Convert.inQuotes st)
                        (Convert.escapeNext st)) cur
  = (mkScanner buf d false false, []) ->
  JS.truthy_string (Convert.lineBuffer st ++ cur) = true ->
  0 < d ->
  forallb token_ok ts = true ->
  nesting d ts = Some 1 ->
  fold_left Convert.for_line (split_lines cur (ts ++ [Close])) st
  = Convert.mkState false EmptyString 0 false false
      (Convert.writeStream st
       ++ (if negb (Convert.isFirstObject st)
           then [("," ++ Convert.NL)%string] else [])
       ++ [JS.trim (JS.push (Convert.lineBuffer st ++ cur ++ render ts)
                            JS.rbrace)]).
Proof.
  revert cur st b buf d.
  induction ts as [|t ts IH]; intros cur st b buf d Hcur Hbuf Hd Hok Hn.
  - cbn in Hn. injection Hn as ->.
    cbn [app split_lines render render_token fold_left].
    unfold Convert.for_line. rewrite convert_for_chars_app.
    rewrite (for_chars_quiet cur (Convert.mkState _ _ _ _ _ _) b _ Hcur).
    cbn [Convert.isFirstObject Convert.lineBuffer Convert.writeStream
         openBraces inQuotes escapeNext Convert.for_chars].
    unfold Convert.for_char.
    scanner_fields.
    at_rbrace. change (1 - 1 =? 0) with true. cbv iota.
    cbn [Convert.lineBuffer JS.truthy_string].
    unfold JS.push. now rewrite append_nil_r, append_assoc.
  - cbn [forallb] in Hok. apply andb_true_iff in Hok. destruct Hok as [Ht Hts].
    destruct (depth_after_positive d 1 t ts Hd Hn) as (Hd' & Hc & Hn').
    assert (Hinline :
      scan_chars (mkScanner b (Convert.openBraces st) (Convert.inQuotes st)
                            (Convert.escapeNext st)) (cur ++ render_token t)
      = (mkScanner (buf ++ render_token t) (depth_after d t) false false, [])).
    { rewrite scan_chars_app, Hcur. cbn [fst snd].
      now rewrite (scan_token t buf d Ht Hc). }
    assert (Hbuf' : JS.truthy_string
                      (Convert.lineBuffer st ++ cur ++ render_token t) = true).
    { rewrite <- append_assoc. now apply truthy_append. }
    cbn [render].
    destruct t as [c| | |body|]; cbn [app split_lines];
      try (rewrite (IH _ st b _ _ Hinline Hbuf' Hd' Hts Hn');
           now rewrite !append_assoc).
    (* a line break *)
    cbn [fold_left]. unfold Convert.for_line at 2.
    rewrite (for_chars_quiet cur (Convert.mkState _ _ _ _ _ _) b _ Hcur).
    cbn [Convert.isFirstObject Convert.lineBuffer Convert.writeStream
         openBraces inQuotes escapeNext].
    rewrite Hbuf.
    rewrite (IH EmptyString (Convert.mkState _ _ d false false _) buf buf d
                eq_refl); try assumption.
    + cbn [Convert.isFirstObject Convert.lineBuffer Convert.writeStream
           render_token append].
      unfold Convert.NL. now rewrite !append_assoc.
    + cbn [Convert.lineBuffer]. rewrite append_nil_r.
      unfold Convert.NL. apply truthy_push.
Qed.

(** A well-formed object, on one line or several, is written whole
    between the brackets. *)
Lemma fixJsonFile_object (inner : list token) :
  forallb token_ok inner = true ->
  nesting 1 inner = Some 1 ->
  Convert.fixJsonFile (object_lines inner)
  = [ ("[" ++ Convert.NL)%string; object_text inner;
      (Convert.NL ++ "]")%string ].
Proof.
  intros Hok Hn. unfold Convert.fixJsonFile, object_lines.
  cbn [split_lines app render_token].
  rewrite (fixJsonFile_object_rest inner _ Convert.start EmptyString
             (String JS.lbrace EmptyString) 1); try easy.
  cbn [Convert.start Convert.writeStream Convert.isFirstObject
       Convert.lineBuffer negb app append].
  change (JS.push (String JS.lbrace (render inner)) JS.rbrace)
    with (String JS.lbrace (JS.push (render inner) JS.rbrace)).
  now rewrite trim_braced.
Qed.

End ConvertFacts.

(* ================================================================= *)
(** ** Object boundaries *)

(** C1, on [fixJsonFile].  Two objects that close on one input line: the
    first chunk written between the brackets is the whole line, both
    objects together, and the second is empty, whereas the scanner of
    [sendMoviesToSurrealDB] hands over each object with exactly its own
    text. *)
Theorem fixJsonFile_two_objects_on_a_line :
  Convert.fixJsonFile [json "{'a':1}{'b':2}"]
  = [ ("[" ++ Convert.NL)%string;
      json "{'a':1}{'b':2}";
      ("," ++ Convert.NL)%string;
      EmptyString;
      (Convert.NL ++ "]")%string ]
  /\ objects [json "{'a':1}{'b':2}"] = [json "{'a':1}"; json "{'b':2}"].
Proof. split; vm_compute; reflexivity. Qed.

(** An object spread over three lines is handed over with its line
    breaks. *)
Example object_on_three_lines :
  object_lines [Break; Str "id"; Other ":"; Other "1"; Break]
  = [ "{"%string; json "'id':1"; "}"%string ]
  /\ JsonToDb.scan_lines JsonToDb.idle [ "{"%string; json "'id':1"; "}"%string ]
     = (JsonToDb.idle,
        [ ("{" ++ Convert.NL ++ json "'id':1" ++ Convert.NL ++ "}")%string ]).
Proof. split; vm_compute; reflexivity. Qed.

(** C2.  An object with a string value that holds a backslash-escaped
    double quote, anywhere among its tokens and whether the object is on
    one line or several, is recovered as one text, the whole object: the
    scanner ends idle, with nothing left open, and [fixJsonFile] writes
    the object once.  On the character after a backslash the quote state
    and the depth are left as they are. *)
Theorem escaped_quote_single_object
  (before after : list token) (pre post : string) :
  forallb token_ok (before ++ quoting pre post :: after) = true ->
  nesting 1 (before ++ quoting pre post :: after) = Some 1 ->
  JsonToDb.scan_lines JsonToDb.idle
    (object_lines (before ++ quoting pre post :: after))
  = (JsonToDb.idle, [object_text (before ++ quoting pre post :: after)])
  /\ Convert.fixJsonFile (object_lines (before ++ quoting pre post :: after))
     = [ ("[" ++ Convert.NL)%string;
         object_text (before ++ quoting pre post :: after);
         (Convert.NL ++ "]")%string ]
  /\ (forall (s : JsonToDb.Scanner) (char : ascii),
        JsonToDb.escapeNext s = true ->
        JsonToDb.inQuotes (fst (JsonToDb.scan_char s char))
        = JsonToDb.inQuotes s
        /\ JsonToDb.openBraces (fst (JsonToDb.scan_char s char))
           = JsonToDb.openBraces s
        /\ snd (JsonToDb.scan_char s char) = None).
Proof.
  intros Hok Hn. split; [|split].
  - now apply scan_object.
  - now apply fixJsonFile_object.
  - intros s char Hs. now rewrite (scan_char_escaped s char Hs).
Qed.

(** The object [{"title":"A \"Great\" Movie"}], whose tokens are well
    formed and balanced. *)
Lemma escaped_quote_single_object_witness :
  forallb token_ok ([Str "title"; Other ":"]
                    ++ quoting "A " (json "Great\' Movie") :: []) = true
  /\ nesting 1 ([Str "title"; Other ":"]
                ++ quoting "A " (json "Great\' Movie") :: []) = Some 1
  /\ JsonToDb.scan_lines JsonToDb.idle
       [json "{'title':'A \'Great\' Movie'}"]
     = (JsonToDb.idle, [json "{'title':'A \'Great\' Movie'}"])
  /\ Convert.fixJsonFile [json "{'title':'A \'Great\' Movie'}"]
     = [ ("[" ++ Convert.NL)%string;
         json "{'title':'A \'Great\' Movie'}";
         (Convert.NL ++ "]")%string ].
Proof.
  split; [reflexivity|]. split; [reflexivity|].
  destruct (escaped_quote_single_object
              [Str "title"; Other ":"] [] "A " (json "Great\' Movie")
              eq_refl eq_refl) as (H1 & H2 & _).
  split; [exact H1 | exact H2].
Defined.

(* ================================================================= *)
(** ** The SurrealDB session *)

Section SessionFacts.

Import JsonToDb.

(** A call either is rejected and changes nothing but the fault list, or
    takes effect. *)
Lemma call_cases (db : Surreal) (stmt : Statement) :
  exists rest,
    call db stmt
    = (mkSurreal (store db) (txn db) rest, Some (DbError stmt))
    \/ call db stmt = (apply (mkSurreal (store db) (txn db) rest) stmt, None).
Proof.
  unfold call. destruct db as [st tx [|[|] rest]]; cbn [faults store txn].
  - exists []. now right.
  - exists rest. now left.
  - exists rest. now right.
Qed.

Lemma call_reliable (db : Surreal) (stmt : Statement) :
  faults db = [] -> call db stmt = (apply db stmt, None).
Proof. intros H. unfold call. now rewrite H. Qed.

(** Inside a transaction, creating records leaves the store alone. *)
Lemma create_each_in_txn (rows : list Row.t) (db : Surreal) (t : list Row.t) :
  txn db = Some t ->
  store (fst (create_each db rows)) = store db
  /\ match snd (create_each db rows) with
     | None => txn (fst (create_each db rows)) = Some (t ++ rows)
     | Some error => exists r, error = DbError (CREATE r)
     end.
Proof.
  revert db t. induction rows as [|r rows IH]; intros db t Ht; cbn [create_each].
  - cbn [fst snd]. now rewrite app_nil_r.
  - unfold create. destruct (call_cases db (CREATE r)) as [rest [H|H]]; rewrite H.
    + cbn [fst snd store txn]. eauto.
    + cbn [apply txn store faults]. rewrite Ht.
      specialize (IH (mkSurreal (store db) (Some (t ++ [r])) rest)
                     (t ++ [r]) eq_refl).
      cbn [store] in IH. rewrite <- app_assoc in IH. exact IH.
Qed.

Lemma create_each_reliable (rows : list Row.t) (db : Surreal) (t : list Row.t) :
  faults db = [] -> txn db = Some t ->
  create_each db rows = (mkSurreal (store db) (Some (t ++ rows)) [], None).
Proof.
  revert db t. induction rows as [|r rows IH]; intros db t Hf Ht; cbn [create_each].
  - rewrite app_nil_r. destruct db; cbn in *; now subst.
  - unfold create. rewrite (call_reliable _ _ Hf). cbn [apply]. rewrite Ht.
    rewrite (IH _ (t ++ [r])); cbn [faults txn store]; try easy.
    now rewrite <- app_assoc.
Qed.

(** One commit call, whatever the session rejects: either the batch is
    committed as one transaction, or the store is as it was; and unless
    [BEGIN] or [CANCEL] itself is rejected, no transaction is left open. *)
Lemma sendBatch_atomic (db : Surreal) (movies : list Movie.t) :
  match sendBatchToSurrealDB db movies with
  | (db', None) =>
      store db' = store db ++ [map formatMovieForDB movies] /\ txn db' = None
  | (db', Some error) =>
      store db' = store db
      /\ match error with
         | DbError BEGIN_TRANSACTION => txn db' = txn db
         | DbError CANCEL_TRANSACTION => True
         | DbError _ => txn db' = None
         | SyntaxError => False
         end
  end.
Proof.
  unfold sendBatchToSurrealDB, query.
  destruct (call_cases db BEGIN_TRANSACTION) as [r0 [H|H]]; rewrite H.
  { cbn. auto. }
  cbn [apply store faults].
  set (db0 := mkSurreal (store db) (Some []) r0).
  destruct (create_each_in_txn (map formatMovieForDB movies) db0 [] eq_refl)
    as [Hst Htx].
  destruct (create_each db0 (map formatMovieForDB movies)) as [db1 [e|]];
    cbn [fst snd] in Hst, Htx.
  - (* a [create] was rejected *)
    destruct Htx as [r ->].
    destruct (call_cases db1 CANCEL_TRANSACTION) as [r1 [H1|H1]]; rewrite H1;
      cbn [apply store txn]; now rewrite Hst.
  - (* every [create] was accepted *)
    cbn [app] in Htx.
    destruct (call_cases db1 COMMIT_TRANSACTION) as [r1 [H1|H1]]; rewrite H1.
    + destruct (call_cases (mkSurreal (store db1) (txn db1) r1)
                           CANCEL_TRANSACTION) as [r2 [H2|H2]]; rewrite H2;
        cbn [apply store txn]; now rewrite Hst.
    + cbn [apply txn store faults]. rewrite Htx. cbn [store txn].
      now rewrite Hst.
Qed.

Lemma sendBatch_reliable (db : Surreal) (movies : list Movie.t) :
  faults db = [] ->
  sendBatchToSurrealDB db movies
  = (mkSurreal (store db ++ [map formatMovieForDB movies]) None [], None).
Proof.
  intros Hf. unfold sendBatchToSurrealDB, query.
  rewrite (call_reliable _ _ Hf). cbn [apply].
  rewrite (create_each_reliable _ (mkSurreal _ _ _) [] Hf eq_refl).
  cbn [store app]. rewrite call_reliable by reflexivity.
  reflexivity.
Qed.

Lemma apply_faults (db : Surreal) (stmt : Statement) :
  faults (apply db stmt) = faults db.
Proof. destruct stmt; cbn; try reflexivity; now destruct (txn db). Qed.

Lemma existsb_firstn_add (f : bool -> bool) (n m : nat) (l : list bool) :
  existsb f (firstn (n + m) l)
  = existsb f (firstn n l) || existsb f (firstn m (skipn n l)).
Proof.
  revert l. induction n as [|n IH]; intros l; cbn [Nat.add firstn skipn existsb].
  - reflexivity.
  - destruct l as [|x l]; cbn [existsb].
    + now rewrite firstn_nil.
    + now rewrite IH, orb_assoc.
Qed.

(** The records are all created exactly when none of the calls is
    rejected; a rejection stops the loop with an exception. *)
Lemma create_each_faults (rows : list Row.t) (db : Surreal) :
  match snd (create_each db rows) with
  | Some _ => rejects_within (length rows) db = true
  | None => rejects_within (length rows) db = false
            /\ faults (fst (create_each db rows))
               = skipn (length rows) (faults db)
  end.
Proof.
  unfold rejects_within. revert db.
  induction rows as [|r rows IH]; intros db; cbn [length firstn existsb create_each].
  - cbn. auto.
  - unfold create, call. destruct db as [st tx [|[|] rest]];
      cbn [faults store txn firstn existsb skipn orb].
    + specialize (IH (apply (mkSurreal st tx []) (CREATE r))).
      rewrite apply_faults in IH. cbn [faults] in IH.
      rewrite firstn_nil in *. cbn [existsb] in *. now rewrite skipn_nil in IH.
    + reflexivity.
    + specialize (IH (apply (mkSurreal st tx rest) (CREATE r))).
      rewrite apply_faults in IH. exact IH.
Qed.

(** A commit call throws exactly when one of its calls is rejected:
    [BEGIN], one [create] per record, and [COMMIT]. *)
Lemma sendBatch_throws (db : Surreal) (movies : list Movie.t) :
  match snd (sendBatchToSurrealDB db movies) with
  | Some _ => rejects_within (length movies + 2) db = true
  | None => rejects_within (length movies + 2) db = false
  end.
Proof.
  unfold rejects_within.
  replace (length movies + 2)%nat with (1 + (length movies + 1))%nat by lia.
  rewrite existsb_firstn_add.
  destruct (faults db) as [|[|] rest] eqn:Hfaults;
    cbn [firstn existsb skipn orb].
  - rewrite (sendBatch_reliable db movies Hfaults). now rewrite firstn_nil.
  - unfold sendBatchToSurrealDB, query at 1, call. now rewrite Hfaults.
  - unfold sendBatchToSurrealDB, query at 1, call. rewrite Hfaults.
    rewrite existsb_firstn_add.
    set (db0 := apply (mkSurreal (store db) (txn db) rest) BEGIN_TRANSACTION).
    assert (Hc := create_each_faults (map formatMovieForDB movies) db0).
    unfold rejects_within in Hc.
    replace (faults db0) with rest in Hc by (unfold db0; now rewrite apply_faults).
    rewrite length_map in Hc.
    destruct (create_each db0 (map formatMovieForDB movies)) as [db1 [e|]];
      cbn [fst snd] in Hc.
    + rewrite Hc. cbn [orb].
      destruct (query db1 CANCEL_TRANSACTION) as [db3 [e'|]]; reflexivity.
    + destruct Hc as [-> Hf]. cbn [orb]. unfold query at 1, call.
      rewrite Hf. destruct (skipn (length movies) rest) as [|[|] rest'];
        cbn [firstn existsb orb]; try reflexivity.
      destruct (query _ CANCEL_TRANSACTION) as [db3 [e'|]]; reflexivity.
Qed.

End SessionFacts.

(* ================================================================= *)
(** ** The ingestion loop *)

Section IngestFacts.

Import JsonToDb.

Variable JSON_parse : string -> option Movie.t.
Variable batchSize : Z.

Local Abbreviation on_object := (on_object JSON_parse batchSize).
Local Abbreviation for_chars := (for_chars JSON_parse batchSize).
Local Abbreviation for_lines := (for_lines JSON_parse batchSize).
Local Abbreviation sendMovies := (sendMoviesToSurrealDB JSON_parse batchSize).

(** The loop is the scanner, with [on_object] run on each text it
    completes. *)
Lemma for_chars_scan (line : string) (s : Scanner) (ing : Ingest) :
  for_chars (s, ing) line
  = (fst (scan_chars s line), fold_left on_object (snd (scan_chars s line)) ing).
Proof.
  revert s ing. induction line as [|c line IH]; intros s ing;
    cbn [JsonToDb.for_chars scan_chars]; [reflexivity|].
  unfold for_char. cbn [fst snd].
  destruct (scan_char s c) as [s1 [text|]]; rewrite IH;
    destruct (scan_chars s1 line) as [s2 outs]; reflexivity.
Qed.

Lemma for_lines_scan (lines : list string) (s : Scanner) (ing : Ingest) :
  for_lines (s, ing) lines
  = (fst (scan_lines s lines), fold_left on_object (snd (scan_lines s lines)) ing).
Proof.
  revert s ing. induction lines as [|l lines IH]; intros s ing;
    cbn [JsonToDb.for_lines fold_left scan_lines]; [reflexivity|].
  unfold for_line at 2, scan_line. rewrite for_chars_scan.
  destruct (scan_chars s l) as [s1 outs1]. cbn [fst snd].
  fold (for_lines (end_of_line s1, fold_left on_object outs1 ing) lines).
  rewrite IH. destruct (scan_lines (end_of_line s1) lines) as [s2 outs2].
  cbn [fst snd]. now rewrite fold_left_app.
Qed.

Lemma sendMovies_objects (db0 : Surreal) (lines : list string) :
  sendMovies db0 lines
  = finish (fold_left on_object (objects lines) (mkIngest 0 0 [] db0 [])).
Proof. unfold sendMoviesToSurrealDB. now rewrite for_lines_scan. Qed.

Lemma syntax_errors_app (a b : list Output) :
  syntax_errors (a ++ b) = (syntax_errors a + syntax_errors b)%nat.
Proof. unfold syntax_errors. now rewrite filter_app, length_app. Qed.

Lemma committed_snoc (db0 : Surreal) (more : list (list Row.t)) :
  concat (store db0 ++ more) = committed db0 ++ concat more.
Proof. unfold committed. apply concat_app. Qed.

Lemma accounts_refl (st : Ingest) : accounts_for JSON_parse [] st st.
Proof.
  unfold accounts_for. cbn. rewrite !Nat.add_0_r, app_nil_r.
  repeat split. exists []. now rewrite app_nil_r, Nat.add_0_r.
Qed.

Lemma accounts_trans (a b : list string) (st1 st2 st3 : Ingest) :
  accounts_for JSON_parse a st1 st2 ->
  accounts_for JSON_parse b st2 st3 ->
  accounts_for JSON_parse (a ++ b) st1 st3.
Proof.
  unfold accounts_for, decode, rejected.
  intros (Hm1 & Hc1 & (m1 & Hs1 & Hb1) & He1) (Hm2 & Hc2 & (m2 & Hs2 & Hb2) & He2).
  rewrite flat_map_app, filter_app, !length_app.
  split; [lia|]. split; [|split].
  - rewrite Hc2. rewrite map_app, app_assoc, Hc1.
    now rewrite <- app_assoc, <- map_app, <- app_assoc.
  - exists (m1 ++ m2). rewrite Hs2, Hs1, length_app. split; [now rewrite app_assoc | lia].
  - lia.
Qed.

(** One completed text. *)
Lemma on_object_accounts (st : Ingest) (text : string) :
  accounts_for JSON_parse [text] st (on_object st text).
Proof.
  unfold accounts_for, decode, rejected, JsonToDb.on_object.
  cbn [flat_map filter].
  destruct (JSON_parse text) as [movie|];
    cbn [movieCount batchCount currentBatch db console app length].
  - destruct (Z.of_nat (length (currentBatch st ++ [movie])) >=? batchSize).
    + assert (H := sendBatch_atomic (db st) (currentBatch st ++ [movie])).
      destruct (sendBatchToSurrealDB (db st) (currentBatch st ++ [movie]))
        as [db' [err|]];
        cbn [movieCount batchCount currentBatch db console].
      * destruct H as [Hst Herr].
        split; [lia|]. split; [unfold committed; now rewrite Hst|].
        split; [exists []; split; [now rewrite app_nil_r | cbn [length]; lia]|].
        rewrite syntax_errors_app.
        destruct err as [|stmt]; [contradiction|]. cbn. lia.
      * destruct H as [Hst _].
        split; [lia|]. split.
        { unfold committed at 1. rewrite Hst, concat_app. cbn [concat map].
          now rewrite !app_nil_r. }
        split; [eexists; split; [exact Hst | cbn; lia]|].
        rewrite syntax_errors_app. cbn. lia.
    + cbn [movieCount batchCount currentBatch db console].
      split; [lia|]. split; [reflexivity|].
      split; [exists []; split; [now rewrite app_nil_r | cbn [length]; lia]|].
      cbn. lia.
  - split; [lia|]. split; [now rewrite app_nil_r|].
    split; [exists []; split; [now rewrite app_nil_r | cbn [length]; lia]|].
    rewrite syntax_errors_app. cbn. lia.
Qed.

Lemma fold_on_object_accounts (texts : list string) (st : Ingest) :
  accounts_for JSON_parse texts st (fold_left on_object texts st).
Proof.
  revert st. induction texts as [|t texts IH]; intros st; cbn [fold_left].
  - apply accounts_refl.
  - change (t :: texts) with ([t] ++ texts).
    eapply accounts_trans; [apply on_object_accounts | apply IH].
Qed.

(** A session that rejects nothing stays so. *)
Lemma on_object_reliable (st : Ingest) (text : string) :
  reliable (db st) -> reliable (db (on_object st text)).
Proof.
  unfold reliable, JsonToDb.on_object. intros Hf.
  destruct (JSON_parse text) as [movie|]; [|exact Hf].
  destruct (Z.of_nat (length (currentBatch st ++ [movie])) >=? batchSize);
    [|exact Hf].
  now rewrite (sendBatch_reliable _ _ Hf).
Qed.

Lemma fold_on_object_reliable (texts : list string) (st : Ingest) :
  reliable (db st) -> reliable (db (fold_left on_object texts st)).
Proof.
  revert st. induction texts as [|t texts IH]; intros st H; cbn [fold_left];
    [exact H | apply IH, on_object_reliable, H].
Qed.

End IngestFacts.

(* ================================================================= *)
(** ** The end of a run *)

Section FinishFacts.

Import JsonToDb.

Variable JSON_parse : string -> option Movie.t.
Variable batchSize : Z.

Local Abbreviation on_object := (on_object JSON_parse batchSize).
Local Abbreviation sendMovies := (sendMoviesToSurrealDB JSON_parse batchSize).

(** What the code after the loop does: on success the open batch, if any,
    is committed and the completion message closes the console; on a
    rejection nothing is committed and the console ends on the error. *)
Lemma finish_spec (st : Ingest) :
  match finish st with
  | (st', None) =>
      movieCount st' = movieCount st
      /\ (exists more,
            store (db st') = store (db st) ++ more
            /\ batchCount st' = (batchCount st + length more)%nat
            /\ concat more = map formatMovieForDB (currentBatch st))
      /\ (exists progress,
            console st'
            = console st ++ progress
              ++ [Completed (movieCount st') (batchCount st')]
            /\ existsb is_completed progress = false)
      /\ syntax_errors (console st') = syntax_errors (console st)
  | (st', Some error) =>
      movieCount st' = movieCount st
      /\ store (db st') = store (db st)
      /\ batchCount st' = batchCount st
      /\ console st' = console st ++ [Error error]
      /\ error <> SyntaxError
      /\ syntax_errors (console st') = syntax_errors (console st)
  end.
Proof.
  unfold finish. destruct (currentBatch st) as [|m ms] eqn:Hb.
  - cbn [movieCount db batchCount console]. split; [reflexivity|]. split.
    + exists []. rewrite app_nil_r. cbn. split; [reflexivity|]. split; [lia|reflexivity].
    + split; [exists []; now cbn|].
      rewrite syntax_errors_app. cbn. lia.
  - assert (H := sendBatch_atomic (db st) (m :: ms)).
    destruct (sendBatchToSurrealDB (db st) (m :: ms)) as [db' [error|]];
      cbn [movieCount db batchCount console].
    + destruct H as [Hst Herr]. repeat split; try assumption.
      * intros ->. exact Herr.
      * rewrite syntax_errors_app. cbn. lia.
    + destruct H as [Hst _]. split; [reflexivity|]. split.
      * eexists. split; [exact Hst|]. cbn [length concat].
        split; [lia | now rewrite app_nil_r].
      * split.
        -- exists [Clear; RecordsCreated (movieCount st) (S (batchCount st))].
           now cbn.
        -- rewrite syntax_errors_app. cbn. lia.
Qed.


(** The loop never prints the completion message. *)
Lemma on_object_not_completed (st : Ingest) (text : string) :
  existsb is_completed (console (on_object st text))
  = existsb is_completed (console st).
Proof.
  unfold JsonToDb.on_object. destruct (JSON_parse text) as [movie|].
  - destruct (Z.of_nat (length (currentBatch st ++ [movie])) >=? batchSize).
    + destruct (sendBatchToSurrealDB _ _) as [db' [err|]];
        cbn [console]; rewrite existsb_app; cbn; now rewrite orb_false_r.
    + reflexivity.
  - cbn [console]. rewrite existsb_app. cbn. now rewrite orb_false_r.
Qed.

Lemma fold_on_object_not_completed (texts : list string) (st : Ingest) :
  existsb is_completed (console (fold_left on_object texts st))
  = existsb is_completed (console st).
Proof.
  revert st. induction texts as [|t texts IH]; intros st; cbn [fold_left];
    [reflexivity | now rewrite IH, on_object_not_completed].
Qed.

End FinishFacts.

(* ================================================================= *)
(** ** Batches on a session that rejects nothing *)

Section BatchFacts.

Import JsonToDb.

Variable JSON_parse : string -> option Movie.t.
Variable batchSize : Z.
Hypothesis batchSize_pos : 0 < batchSize.

Local Abbreviation on_object := (on_object JSON_parse batchSize).
Local Abbreviation sendMovies := (sendMoviesToSurrealDB JSON_parse batchSize).
Local Abbreviation B := (Z.to_nat batchSize).

Lemma length_concat_full (A : Type) (n : nat) (full : list (list A)) :
  Forall (fun b => length b = n) full ->
  length (concat full) = (n * length full)%nat.
Proof.
  induction 1 as [|b full Hb _ IH]; cbn [concat length]; [lia|].
  rewrite length_app, IH, Hb. lia.
Qed.

(** The loop invariant: the store has grown by full batches only, and the
    open batch is short of [batchSize]. *)
Lemma fold_on_object_batches (texts : list string) (st : Ingest) :
  reliable (db st) ->
  (length (currentBatch st) < B)%nat ->
  exists full,
    store (db (fold_left on_object texts st))
    = store (db st) ++ map (map formatMovieForDB) full
    /\ Forall (fun b => length b = B) full
    /\ concat full ++ currentBatch (fold_left on_object texts st)
       = currentBatch st ++ decode JSON_parse texts
    /\ (length (currentBatch (fold_left on_object texts st)) < B)%nat
    /\ batchCount (fold_left on_object texts st)
       = (batchCount st + length full)%nat.
Proof.
  revert st. induction texts as [|t texts IH]; intros st Hrel Hlen;
    cbn [fold_left].
  - exists []. cbn. rewrite !app_nil_r. repeat split; auto.
  - assert (Hstep :
      (JSON_parse t = None
       /\ db (on_object st t) = db st
       /\ currentBatch (on_object st t) = currentBatch st
       /\ batchCount (on_object st t) = batchCount st)
      \/ (exists movie, JSON_parse t = Some movie
          /\ (length (currentBatch st ++ [movie]) < B)%nat
          /\ db (on_object st t) = db st
          /\ currentBatch (on_object st t) = currentBatch st ++ [movie]
          /\ batchCount (on_object st t) = batchCount st)
      \/ (exists movie, JSON_parse t = Some movie
          /\ length (currentBatch st ++ [movie]) = B
          /\ db (on_object st t)
             = mkSurreal (store (db st)
                          ++ [map formatMovieForDB (currentBatch st ++ [movie])])
                         None []
          /\ currentBatch (on_object st t) = []
          /\ batchCount (on_object st t) = S (batchCount st))).
    { unfold JsonToDb.on_object. destruct (JSON_parse t) as [movie|];
        [|left; auto].
      right.
      assert (Hl : length (currentBatch st ++ [movie])
                   = S (length (currentBatch st)))
        by (rewrite length_app; cbn; lia).
      destruct (Z.of_nat (length (currentBatch st ++ [movie])) >=? batchSize)
        eqn:Hge.
      - right. exists movie. rewrite (sendBatch_reliable _ _ Hrel).
        cbn [db currentBatch batchCount]. repeat split; try reflexivity.
        apply Z.geb_le in Hge. lia.
      - left. exists movie. cbn [db currentBatch batchCount].
        repeat split; try reflexivity.
        rewrite Z.geb_leb in Hge. apply Z.leb_gt in Hge. lia. }
    destruct Hstep as [(Hp & Hd & Hc & Hb)
                      | [(movie & Hp & Hl & Hd & Hc & Hb)
                        | (movie & Hp & Hl & Hd & Hc & Hb)]].
    + destruct (IH (on_object st t)) as (full & H1 & H2 & H3 & H4 & H5).
      { unfold reliable. now rewrite Hd. }
      { now rewrite Hc. }
      rewrite Hd in H1. rewrite Hc in H3. rewrite Hb in H5.
      exists full. unfold decode. cbn [flat_map]. rewrite Hp. cbn [app].
      repeat split; assumption.
    + destruct (IH (on_object st t)) as (full & H1 & H2 & H3 & H4 & H5).
      { unfold reliable. now rewrite Hd. }
      { now rewrite Hc. }
      rewrite Hd in H1. rewrite Hc in H3. rewrite Hb in H5.
      exists full. unfold decode. cbn [flat_map]. rewrite Hp. cbn [app].
      repeat split; try assumption.
      rewrite H3. now rewrite <- app_assoc.
    + destruct (IH (on_object st t)) as (full & H1 & H2 & H3 & H4 & H5).
      { unfold reliable. now rewrite Hd. }
      { rewrite Hc. cbn. lia. }
      rewrite Hd in H1. rewrite Hc in H3. rewrite Hb in H5.
      cbn [store app] in H1, H3.
      exists ((currentBatch st ++ [movie]) :: full).
      cbn [map concat length].
      split; [rewrite H1; now rewrite <- app_assoc|].
      split; [now constructor|].
      split.
      * rewrite <- app_assoc, H3. unfold decode. cbn [flat_map].
        rewrite Hp. cbn [app]. now rewrite <- app_assoc.
      * split; [assumption | lia].
Qed.

(** On a session that rejects nothing, with a positive batch size: the
    run ends normally; the transactions it commits are the decoded
    entities cut, in order, into batches; there are [ceil (M / B)] of
    them; all but the last have [B] entities; and the last has [M mod B],
    or [B] when [B] divides a positive [M]. *)
Lemma batches_on_reliable_session (db0 : Surreal) (lines : list string) :
  reliable db0 ->
  exists batches,
    snd (sendMovies db0 lines) = None
    /\ store (db (fst (sendMovies db0 lines)))
       = store db0 ++ map (map formatMovieForDB) batches
    /\ concat batches = decode JSON_parse (objects lines)
    /\ batchCount (fst (sendMovies db0 lines)) = length batches
    /\ length batches
       = ((length (decode JSON_parse (objects lines)) + B - 1) / B)%nat
    /\ Forall (fun b => length b = B) (removelast batches)
    /\ length (last batches [])
       = (if (length (decode JSON_parse (objects lines)) =? 0)%nat then 0
          else if (length (decode JSON_parse (objects lines)) mod B =? 0)%nat
               then B
               else length (decode JSON_parse (objects lines)) mod B)%nat.
Proof.
  intros Hrel. rewrite sendMovies_objects.
  assert (HB : (0 < B)%nat) by lia.
  destruct (fold_on_object_batches (objects lines) (mkIngest 0 0 [] db0 []))
    as (full & H1 & H2 & H3 & H4 & H5); [exact Hrel | cbn; lia |].
  set (st := fold_left _ _ _) in *.
  cbn [db currentBatch batchCount app Nat.add] in H1, H3, H5.
  set (M := length (decode JSON_parse (objects lines))).
  assert (Hr : reliable (db st)) by
    (apply fold_on_object_reliable; exact Hrel).
  assert (HM : M = (B * length full + length (currentBatch st))%nat).
  { unfold M. rewrite <- H3, length_app. now rewrite (length_concat_full _ B). }
  unfold finish. destruct (currentBatch st) as [|m ms] eqn:Hcb.
  - (* the open batch is empty *)
    exists full. cbn [fst snd db batchCount length] in *.
    rewrite app_nil_r in H3. rewrite Nat.add_0_r in HM.
    repeat split; auto.
    + apply (Nat.div_unique _ _ _ (B - 1)%nat); lia.
    + clear - H2. induction H2 as [|b full Hb Hf IH]; cbn [removelast];
        [constructor|]. destruct full; [constructor | constructor; auto].
    + destruct (Nat.eqb_spec M 0) as [H0|H0].
      * destruct full as [|b full]; [reflexivity|]. cbn in HM. nia.
      * replace (M mod B)%nat with 0%nat
          by (rewrite HM, Nat.mul_comm; now rewrite Nat.Div0.mod_mul).
        cbn [Nat.eqb].
        destruct (exists_last (l := full)) as (full' & b & ->).
        { intros ->. cbn in HM. lia. }
        rewrite last_last. apply Forall_app in H2. destruct H2 as [_ H2].
        now inversion H2.
  - (* the open batch is committed last *)
    rewrite (sendBatch_reliable _ _ Hr). cbn [fst snd db batchCount store].
    exists (full ++ [m :: ms]).
    rewrite map_app, app_assoc, <- H1, concat_app, length_app, last_last,
      removelast_last.
    cbn [map concat length] in *. rewrite app_nil_r.
    repeat split; auto; try lia.
    + apply (Nat.div_unique _ _ _ (length ms)); lia.
    + assert (Hmod : (M mod B = S (length ms))%nat).
      { symmetry. apply (Nat.mod_unique _ _ (length full)); lia. }
      rewrite Hmod. destruct (Nat.eqb_spec M 0); [lia | reflexivity].
Qed.

End BatchFacts.

(* ================================================================= *)
(** ** Batching, decode failures, commits and reports *)

(** Three objects and batch size two on a session that rejects nothing:
    a batch of two, then a batch of one. *)
Example three_objects_two_batches :
  JsonToDb.sendMoviesToSurrealDB JSON_parse_sample 2 (empty_db [])
    [json "{'id':1}{'id':2}{'id':3}"]
  = (JsonToDb.mkIngest 3 2 [Movie.bare 3]
       (JsonToDb.mkSurreal
          [ map JsonToDb.formatMovieForDB [Movie.bare 1; Movie.bare 2];
            map JsonToDb.formatMovieForDB [Movie.bare 3] ]
          None [])
       [ JsonToDb.Clear; JsonToDb.RecordsCreated 2 1;
         JsonToDb.Clear; JsonToDb.RecordsCreated 3 2;
         JsonToDb.Completed 3 2 ],
     None).
Proof. vm_compute. reflexivity. Qed.

(** A malformed object between two valid ones: one line on the console,
    and both valid objects committed. *)
Example malformed_between_two_valid :
  JsonToDb.sendMoviesToSurrealDB JSON_parse_sample 1000 (empty_db [])
    [json "{'id':1}"; json "{'id':}"; json "{'id':2}"]
  = (JsonToDb.mkIngest 2 1 [Movie.bare 1; Movie.bare 2]
       (JsonToDb.mkSurreal
          [ map JsonToDb.formatMovieForDB [Movie.bare 1; Movie.bare 2] ]
          None [])
       [ JsonToDb.ErrorParsingObject JsonToDb.SyntaxError;
         JsonToDb.Clear; JsonToDb.RecordsCreated 2 1;
         JsonToDb.Completed 2 1 ],
     None).
Proof. vm_compute. reflexivity. Qed.

(** C3, on a session that rejects a [create].  Batch size two, three
    objects, and the first [create] of the first commit rejected: the
    rejection is caught with the parse errors, the batch is kept open,
    and the next object sends a batch of three. *)
Theorem rejected_commit_grows_the_batch :
  JsonToDb.sendMoviesToSurrealDB JSON_parse_sample 2
    (empty_db [false; true]) [json "{'id':1}{'id':2}{'id':3}"]
  = (JsonToDb.mkIngest 3 1 []
       (JsonToDb.mkSurreal
          [map JsonToDb.formatMovieForDB
               [Movie.bare 1; Movie.bare 2; Movie.bare 3]]
          None [])
       [ JsonToDb.ErrorParsingObject
           (JsonToDb.DbError
              (JsonToDb.CREATE (JsonToDb.formatMovieForDB (Movie.bare 1))));
         JsonToDb.Clear;
         JsonToDb.RecordsCreated 3 1;
         JsonToDb.Completed 3 1 ],
     None).
Proof. vm_compute. reflexivity. Qed.


(** C6.  One commit call either commits the batch as one transaction or
    leaves the store as it was; it throws exactly when one of its calls
    is rejected, and then, unless it is [BEGIN] or [CANCEL] that is
    rejected, no transaction is left open.  In the loop and after it, the
    transactions committed earlier stay in the store and [batchCount]
    grows by the transactions added. *)
Theorem commit_is_all_or_nothing
  (JSON_parse : string -> option Movie.t) (batchSize : Z)
  (db : JsonToDb.Surreal) (movies : list Movie.t)
  (st : JsonToDb.Ingest) (text : string) :
  match JsonToDb.sendBatchToSurrealDB db movies with
  | (db', None) =>
      JsonToDb.store db'
      = JsonToDb.store db ++ [map JsonToDb.formatMovieForDB movies]
      /\ JsonToDb.txn db' = None
      /\ rejects_within (length movies + 2) db = false
  | (db', Some error) =>
      JsonToDb.store db' = JsonToDb.store db
      /\ rejects_within (length movies + 2) db = true
      /\ match error with
         | JsonToDb.DbError JsonToDb.BEGIN_TRANSACTION =>
             JsonToDb.txn db' = JsonToDb.txn db
         | JsonToDb.DbError JsonToDb.CANCEL_TRANSACTION => True
         | JsonToDb.DbError _ => JsonToDb.txn db' = None
         | JsonToDb.SyntaxError => False
         end
  end
  /\ (exists more,
        JsonToDb.store
          (JsonToDb.db (JsonToDb.on_object JSON_parse batchSize st text))
        = JsonToDb.store (JsonToDb.db st) ++ more
        /\ JsonToDb.batchCount (JsonToDb.on_object JSON_parse batchSize st text)
           = (JsonToDb.batchCount st + length more)%nat)
  /\ (exists more,
        JsonToDb.store (JsonToDb.db (fst (JsonToDb.finish st)))
        = JsonToDb.store (JsonToDb.db st) ++ more
        /\ JsonToDb.batchCount (fst (JsonToDb.finish st))
           = (JsonToDb.batchCount st + length more)%nat).
Proof.
  split; [|split].
  - assert (Ha := sendBatch_atomic db movies).
    assert (Ht := sendBatch_throws db movies).
    destruct (JsonToDb.sendBatchToSurrealDB db movies) as [db' [error|]];
      cbn [snd] in Ht; intuition.
  - destruct (on_object_accounts JSON_parse batchSize st text)
      as (_ & _ & H & _). exact H.
  - assert (H := finish_spec st).
    destruct (JsonToDb.finish st) as [st' [error|]]; cbn [fst].
    + destruct H as (_ & Hs & Hb & _). exists [].
      rewrite app_nil_r. cbn [length]. split; [assumption | lia].
    + destruct H as (_ & (more & Hs & Hb & _) & _). eauto.
Qed.

(** C9, as stated.  One object, and the [create] of the final commit
    rejected: the object was decoded, and the console shows the error and
    no count. *)
Lemma fatal_run_reports_no_count :
  JsonToDb.sendMoviesToSurrealDB JSON_parse_sample 1000
    (empty_db [false; true]) [json "{'id':1}"]
  = (JsonToDb.mkIngest 1 0 [Movie.bare 1]
       (JsonToDb.mkSurreal [] None [])
       [ JsonToDb.Error
           (JsonToDb.DbError
              (JsonToDb.CREATE (JsonToDb.formatMovieForDB (Movie.bare 1)))) ],
     Some (JsonToDb.DbError
             (JsonToDb.CREATE (JsonToDb.formatMovieForDB (Movie.bare 1)))))
  /\ existsb reports_counts
       (JsonToDb.console
          (fst (JsonToDb.sendMoviesToSurrealDB JSON_parse_sample 1000
                  (empty_db [false; true]) [json "{'id':1}"])))
     = false.
Proof. split; vm_compute; reflexivity. Qed.

(** C9, amended.  The counters are exact at the end of every run:
    [movieCount] is the number of objects decoded and [batchCount] the
    number of transactions the run committed; the objects that failed to
    decode have one console line each and no counter.  A run that ends
    normally has committed every decoded object and closes the console
    with the completion message carrying the two counters; a run that
    ends on an error closes the console with that error and prints no
    completion message. *)
Theorem completion_reports_exact_counts
  (JSON_parse : string -> option Movie.t) (batchSize : Z)
  (db : JsonToDb.Surreal) (lines : list string) :
  match JsonToDb.sendMoviesToSurrealDB JSON_parse batchSize db lines with
  | (st, None) =>
      JsonToDb.movieCount st = length (decode JSON_parse (objects lines))
      /\ length (JsonToDb.store (JsonToDb.db st))
         = (length (JsonToDb.store db) + JsonToDb.batchCount st)%nat
      /\ syntax_errors (JsonToDb.console st)
         = length (rejected JSON_parse (objects lines))
      /\ committed (JsonToDb.db st)
         = committed db
           ++ map JsonToDb.formatMovieForDB (decode JSON_parse (objects lines))
      /\ last (JsonToDb.console st) JsonToDb.Clear
         = JsonToDb.Completed (JsonToDb.movieCount st) (JsonToDb.batchCount st)
  | (st, Some error) =>
      JsonToDb.movieCount st = length (decode JSON_parse (objects lines))
      /\ length (JsonToDb.store (JsonToDb.db st))
         = (length (JsonToDb.store db) + JsonToDb.batchCount st)%nat
      /\ syntax_errors (JsonToDb.console st)
         = length (rejected JSON_parse (objects lines))
      /\ last (JsonToDb.console st) JsonToDb.Clear = JsonToDb.Error error
      /\ existsb is_completed (JsonToDb.console st) = false
  end.
Proof.
  rewrite sendMovies_objects.
  set (st0 := fold_left _ _ _).
  assert (Hacc := fold_on_object_accounts JSON_parse batchSize
                    (objects lines) (JsonToDb.mkIngest 0 0 [] db [])).
  fold st0 in Hacc.
  destruct Hacc as (Hm & Hc & (more0 & Hs0 & Hb0) & He).
  cbn [JsonToDb.movieCount JsonToDb.batchCount JsonToDb.currentBatch
       JsonToDb.db JsonToDb.console app Nat.add] in Hm, Hc, Hs0, Hb0, He.
  change (syntax_errors []) with 0%nat in He. cbn [Nat.add] in He.
  assert (Hnc := fold_on_object_not_completed JSON_parse batchSize
                   (objects lines) (JsonToDb.mkIngest 0 0 [] db [])).
  fold st0 in Hnc. cbn in Hnc.
  assert (H := finish_spec st0).
  destruct (JsonToDb.finish st0) as [st [error|]].
  - destruct H as (Hm' & Hs & Hb & Hcon & _ & Hse).
    split; [congruence|]. split; [rewrite Hs, Hs0, length_app; lia|].
    split; [congruence|].
    rewrite Hcon. split; [apply last_last|].
    rewrite existsb_app, Hnc. reflexivity.
  - destruct H as (Hm' & (more & Hs & Hb & Hcat) & (progress & Hcon & _) & Hse).
    split; [congruence|].
    split; [rewrite Hs, Hs0, !length_app; lia|].
    split; [congruence|]. split.
    + unfold committed at 1. rewrite Hs, concat_app, Hcat.
      fold (committed (JsonToDb.db st0)). exact Hc.
    + rewrite Hcon, app_assoc. apply last_last.
Qed.

(* ================================================================= *)
(** ** [escapeStr] *)

Section EscapeFacts.

Lemma replace_app (c : ascii) (by_ a b : string) :
  JS.replace c by_ (a ++ b)
  = (JS.replace c by_ a ++ JS.replace c by_ b)%string.
Proof.
  induction a as [|x a IH]; cbn [append JS.replace]; [reflexivity|].
  rewrite IH. destruct (Ascii.eqb x c); [now rewrite append_assoc | reflexivity].
Qed.

(** The replacements act character by character. *)
Lemma escapeStr_app (a b : string) :
  escapeStr (Some (a ++ b)%string)
  = (escapeStr (Some a) ++ escapeStr (Some b))%string.
Proof.
  destruct a as [|x a]; [reflexivity|].
  destruct b as [|y b].
  - rewrite append_nil_r. cbn [escapeStr JS.truthy_string negb].
    now rewrite append_nil_r.
  - cbn [escapeStr JS.truthy_string negb append]. cbv zeta.
    change (String x (a ++ String y b))
      with (String x a ++ String y b)%string.
    now rewrite !replace_app.
Qed.

Lemma escapeStr_cons (c : ascii) (s : string) :
  escapeStr (Some (String c s))
  = (escapeStr (Some (String c EmptyString)) ++ escapeStr (Some s))%string.
Proof. exact (escapeStr_app (String c EmptyString) s). Qed.

(** The image of one character holds no control character and escapes its
    quote; all 256 characters are checked. *)
Lemma escapeStr_char (c : ascii) :
  all_chars (fun x => negb (is_control x))
            (escapeStr (Some (String c EmptyString))) = true
  /\ quotes_escaped false (escapeStr (Some (String c EmptyString))) = true.
Proof.
  destruct c as [[] [] [] [] [] [] [] []]; split; vm_compute; reflexivity.
Qed.

Lemma all_chars_app (p : ascii -> bool) (a b : string) :
  all_chars p (a ++ b) = all_chars p a && all_chars p b.
Proof.
  induction a as [|x a IH]; cbn [append all_chars]; [reflexivity|].
  now rewrite IH, andb_assoc.
Qed.

Lemma all_chars_get (p : ascii -> bool) (s : string) (i : nat) (c : ascii) :
  all_chars p s = true -> String.get i s = Some c -> p c = true.
Proof.
  revert i. induction s as [|x s IH]; intros i Hall Hget; [discriminate|].
  cbn [all_chars] in Hall. apply andb_true_iff in Hall. destruct Hall as [Hx Hs].
  destruct i as [|i]; cbn [String.get] in Hget.
  - now injection Hget as <-.
  - now apply (IH i).
Qed.

Lemma quotes_escaped_app (prev : bool) (a b : string) :
  quotes_escaped prev (a ++ b)
  = quotes_escaped prev a && quotes_escaped (ends_on_backslash prev a) b.
Proof.
  revert prev. induction a as [|x a IH]; intros prev;
    cbn [append quotes_escaped ends_on_backslash]; [reflexivity|].
  now rewrite IH, andb_assoc.
Qed.

Lemma quotes_escaped_weaken (prev : bool) (s : string) :
  quotes_escaped false s = true -> quotes_escaped prev s = true.
Proof.
  destruct s as [|x s]; [reflexivity|]. cbn [quotes_escaped].
  destruct (Ascii.eqb x JS.squote); [discriminate | auto].
Qed.

Lemma quotes_escaped_get (s : string) (prev : bool) (i : nat) :
  quotes_escaped prev s = true ->
  String.get i s = Some JS.squote ->
  (i = 0%nat /\ prev = true)
  \/ exists j, i = S j /\ String.get j s = Some JS.backslash.
Proof.
  revert prev i. induction s as [|x s IH]; intros prev i Hq Hget; [discriminate|].
  cbn [quotes_escaped] in Hq. apply andb_true_iff in Hq. destruct Hq as [Hx Hs].
  destruct i as [|i]; cbn [String.get] in Hget.
  - injection Hget as ->. left. split; [reflexivity|]. exact Hx.
  - right. destruct (IH _ _ Hs Hget) as [[-> Hb] | [j [-> Hj]]].
    + exists 0%nat. split; [reflexivity|]. cbn [String.get].
      apply Ascii.eqb_eq in Hb. now subst.
    + exists (S j). now split.
Qed.

Lemma escapeStr_checked (s : string) :
  all_chars (fun x => negb (is_control x)) (escapeStr (Some s)) = true
  /\ quotes_escaped false (escapeStr (Some s)) = true.
Proof.
  induction s as [|c s [IHa IHq]]; [split; reflexivity|].
  rewrite escapeStr_cons. destruct (escapeStr_char c) as [Ha Hq].
  rewrite all_chars_app, quotes_escaped_app, Ha, Hq, IHa. split; [reflexivity|].
  now apply quotes_escaped_weaken.
Qed.

End EscapeFacts.

(** C10.  The result of [escapeStr] holds no line feed, carriage return,
    tab or form feed; each of its single quotes comes right after a
    backslash; a backslash of the input is doubled before the quotes are
    escaped; and [undefined] and the empty string give the empty
    string. *)
Theorem escapeStr_is_safe (s : string) :
  (forall i c,
      String.get i (escapeStr (Some s)) = Some c ->
      c <> JS.LF /\ c <> JS.CR /\ c <> JS.TAB /\ c <> JS.FF)
  /\ (forall i,
        String.get i (escapeStr (Some s)) = Some JS.squote ->
        exists j, i = S j
                  /\ String.get j (escapeStr (Some s)) = Some JS.backslash)
  /\ escapeStr (Some (String JS.backslash (String JS.squote s)))
     = ("\\\'" ++ escapeStr (Some s))%string
  /\ escapeStr None = EmptyString
  /\ escapeStr (Some EmptyString) = EmptyString.
Proof.
  destruct (escapeStr_checked s) as [Ha Hq].
  split; [|split; [|split; [|split; reflexivity]]].
  - intros i c Hget. assert (Hc := all_chars_get _ _ _ _ Ha Hget).
    apply negb_true_iff in Hc. unfold is_control in Hc.
    repeat (apply orb_false_iff in Hc; destruct Hc as [Hc ?]).
    repeat split; intros ->; discriminate.
  - intros i Hget.
    destruct (quotes_escaped_get _ _ _ Hq Hget) as [[_ H] | H];
      [discriminate | exact H].
  - rewrite escapeStr_cons, (escapeStr_cons JS.squote s).
    now rewrite <- append_assoc.
Qed.

(* ================================================================= *)
(** ** Defaults of the formatters *)

(** C7, as stated.  An object without a poster path: the poster is not
    the empty string, in either formatter. *)
Lemma absent_poster_is_not_empty :
  Movie.poster_path (Movie.bare 1) = None
  /\ JsonToDb.Row.poster (JsonToDb.formatMovieForDB (Movie.bare 1))
     <> EmptyString
  /\ Surql.poster (Surql.bindings (Movie.bare 1)) <> EmptyString.
Proof. repeat split; vm_compute; discriminate. Qed.

(** C7, amended.  In [formatMovieForDB] an absent or falsy title, overview
    or tagline becomes the empty string and an absent or falsy poster path
    becomes ["/empty"]; an absent or falsy budget, revenue, runtime or vote
    average becomes [0]; an absent or falsy release date becomes the date
    of ["0001-01-01"]; an absent or empty genre list becomes the one
    reference ["genre:0"], and the genre list is never empty.  Any other
    value is kept.  The bindings of [formatMovieObject] follow the same
    defaults. *)
Theorem default_policy (movie : Movie.t) :
  let row := JsonToDb.formatMovieForDB movie in
  let b := Surql.bindings movie in
  (if falsy_string (Movie.title movie)
   then JsonToDb.Row.title row = EmptyString /\ Surql.title b = EmptyString
   else Some (JsonToDb.Row.title row) = Movie.title movie)
  /\ (if falsy_string (Movie.overview movie)
      then JsonToDb.Row.overview row = EmptyString
           /\ Surql.overview b = EmptyString
      else Some (JsonToDb.Row.overview row) = Movie.overview movie)
  /\ (if falsy_string (Movie.tagline movie)
      then JsonToDb.Row.tagline row = EmptyString
           /\ Surql.tagline b = EmptyString
      else Some (JsonToDb.Row.tagline row) = Movie.tagline movie)
  /\ (if falsy_string (Movie.poster_path movie)
      then JsonToDb.Row.poster row = "/empty"%string
           /\ Surql.poster b = "/empty"%string
      else Some (JsonToDb.Row.poster row) = Movie.poster_path movie)
  /\ (if falsy_number (Movie.budget movie)
      then JsonToDb.Row.budget row = 0%float /\ Surql.budget b = 0%float
      else Some (JsonToDb.Row.budget row) = Movie.budget movie
           /\ Some (Surql.budget b) = Movie.budget movie)
  /\ (if falsy_number (Movie.revenue movie)
      then JsonToDb.Row.revenue row = 0%float /\ Surql.revenue b = 0%float
      else Some (JsonToDb.Row.revenue row) = Movie.revenue movie
           /\ Some (Surql.revenue b) = Movie.revenue movie)
  /\ (if falsy_number (Movie.runtime movie)
      then JsonToDb.Row.runtime row = 0%float /\ Surql.runtime b = 0%float
      else Some (JsonToDb.Row.runtime row) = Movie.runtime movie
           /\ Some (Surql.runtime b) = Movie.runtime movie)
  /\ (if falsy_number (Movie.vote_average movie)
      then JsonToDb.Row.vote_average row = 0%float
           /\ Surql.vote_average b = 0%float
      else Some (JsonToDb.Row.vote_average row) = Movie.vote_average movie
           /\ Some (Surql.vote_average b) = Movie.vote_average movie)
  /\ (if falsy_string (Movie.release_date movie)
      then JsonToDb.Row.release_date row = JS.new_Date epoch
           /\ Surql.release_date b = epoch
      else Some (JsonToDb.Row.release_date row)
           = option_map JS.new_Date (Movie.release_date movie)
           /\ Some (Surql.release_date b) = Movie.release_date movie)
  /\ match Movie.genres movie with
     | None | Some [] =>
         JsonToDb.Row.genre row = ["genre:0"%string]
         /\ Surql.genres b = "[genre:0]"%string
     | Some gs =>
         JsonToDb.Row.genre row
         = map (fun genre => ("genre:" ++ JS.ToString (Genre.id genre))%string)
               gs
     end
  /\ JsonToDb.Row.genre row <> [].
Proof.
  destruct movie as [id title budget overview poster date revenue runtime
                     tagline vote language genres collection].
  cbv zeta. unfold JsonToDb.formatMovieForDB, Surql.bindings.
  cbn [Movie.title Movie.overview Movie.tagline Movie.poster_path
       Movie.budget Movie.revenue Movie.runtime Movie.vote_average
       Movie.release_date Movie.genres
       JsonToDb.Row.title JsonToDb.Row.overview JsonToDb.Row.tagline
       JsonToDb.Row.poster JsonToDb.Row.budget JsonToDb.Row.revenue
       JsonToDb.Row.runtime JsonToDb.Row.vote_average
       JsonToDb.Row.release_date JsonToDb.Row.genre
       Surql.title Surql.overview Surql.tagline Surql.poster Surql.budget
       Surql.revenue Surql.runtime Surql.vote_average Surql.release_date
       Surql.genres].
  unfold falsy_string, falsy_number, JS.or_string, JS.or_number.
  repeat split.
  - destruct title as [[|c s]|]; cbn; auto.
  - destruct overview as [[|c s]|]; cbn; auto.
  - destruct tagline as [[|c s]|]; cbn; auto.
  - destruct poster as [[|c s]|]; cbn; auto.
  - destruct budget as [n|]; [destruct (JS.truthy_number n)|]; cbn; auto.
  - destruct revenue as [n|]; [destruct (JS.truthy_number n)|]; cbn; auto.
  - destruct runtime as [n|]; [destruct (JS.truthy_number n)|]; cbn; auto.
  - destruct vote as [n|]; [destruct (JS.truthy_number n)|]; cbn; auto.
  - destruct date as [[|c s]|]; cbn; auto.
  - destruct genres as [[|g gs]|]; cbn; auto.
  - destruct genres as [[|g gs]|]; cbn; discriminate.
Qed.

(** C8, as stated.  An object with neither a collection nor a language:
    the collection is [null] (["NULL"] in the generated statements) and the
    language reference is ["language:en"]; neither is a reference to the
    record [0]. *)
Lemma absent_references_are_not_sentinels :
  Movie.belongs_to_collection (Movie.bare 1) = None
  /\ Movie.original_language (Movie.bare 1) = None
  /\ JsonToDb.Row.collection (JsonToDb.formatMovieForDB (Movie.bare 1))
     = None
  /\ JsonToDb.Row.collection (JsonToDb.formatMovieForDB (Movie.bare 1))
     <> Some ("collection:" ++ JS.ToString 0)%string
  /\ JsonToDb.Row.language (JsonToDb.formatMovieForDB (Movie.bare 1))
     = "language:en"%string
  /\ JsonToDb.Row.language (JsonToDb.formatMovieForDB (Movie.bare 1))
     <> ("language:" ++ JS.ToString 0)%string
  /\ Surql.collection (Surql.bindings (Movie.bare 1)) = "NULL"%string
  /\ Surql.language (Surql.bindings (Movie.bare 1)) = "en"%string.
Proof. repeat split; vm_compute; discriminate. Qed.

(** C8, amended.  A collection that is present becomes the reference
    [collection:<id>] and one that is absent becomes [null] (["NULL"] in
    the generated statements); a language code that is present becomes the
    reference [language:<code>] and one that is absent or empty becomes
    [language:en]. *)
Theorem single_reference_defaults (movie : Movie.t) :
  let row := JsonToDb.formatMovieForDB movie in
  let b := Surql.bindings movie in
  match Movie.belongs_to_collection movie with
  | Some c =>
      JsonToDb.Row.collection row
      = Some ("collection:" ++ JS.ToString (Collection.id c))%string
      /\ Surql.collection b
         = ("collection:" ++ JS.ToString (Collection.id c))%string
  | None =>
      JsonToDb.Row.collection row = None
      /\ Surql.collection b = "NULL"%string
  end
  /\ (if falsy_string (Movie.original_language movie)
      then JsonToDb.Row.language row = "language:en"%string
           /\ Surql.language b = "en"%string
      else Some (JsonToDb.Row.language row)
           = option_map (fun code => ("language:" ++ code)%string)
                        (Movie.original_language movie)
           /\ Some (Surql.language b) = Movie.original_language movie).
Proof.
  destruct movie as [id title budget overview poster date revenue runtime
                     tagline vote language genres collection].
  cbv zeta. unfold JsonToDb.formatMovieForDB, Surql.bindings.
  cbn [Movie.belongs_to_collection Movie.original_language
       JsonToDb.Row.collection JsonToDb.Row.language
       Surql.collection Surql.language].
  split.
  - destruct collection; auto.
  - destruct language as [[|c s]|]; cbn; auto.
Qed.

(* ================================================================= *)
(** ** More on [escapeStr] *)

Section EscapeMore.

Lemma length_append (a b : string) :
  String.length (a ++ b) = (String.length a + String.length b)%nat.
Proof. induction a as [|c a IH]; cbn; [reflexivity | now rewrite IH]. Qed.

(** One character and its image, for all 256 characters. *)
Lemma escapeStr_char_back (c : ascii) (rest : string) :
  unescape (escapeStr (Some (String c EmptyString)) ++ rest)
  = String c (unescape rest).
Proof. destruct c as [[] [] [] [] [] [] [] []]; reflexivity. Qed.

Lemma escapeStr_char_length (c : ascii) :
  String.length (escapeStr (Some (String c EmptyString)))
  = ((if is_special c then 1 else 0) + 1)%nat.
Proof. destruct c as [[] [] [] [] [] [] [] []]; reflexivity. Qed.

Lemma escapeStr_char_plain (c : ascii) :
  is_special c = false ->
  escapeStr (Some (String c EmptyString)) = String c EmptyString.
Proof. destruct c as [[] [] [] [] [] [] [] []]; intros H; try reflexivity; discriminate. Qed.

End EscapeMore.

(** X1.  An escaped text can be read back: undoing the backslash codes
    of [escapeStr s] gives [s], so two different strings never escape to
    the same text. *)
Theorem escapeStr_reads_back (s t : string) :
  unescape (escapeStr (Some s)) = s
  /\ (escapeStr (Some s) = escapeStr (Some t) <-> s = t).
Proof.
  assert (Hback : forall u, unescape (escapeStr (Some u)) = u).
  { induction u as [|c u IH]; [reflexivity|].
    now rewrite escapeStr_cons, escapeStr_char_back, IH. }
  split; [apply Hback|]. split; [|now intros ->].
  intros H. rewrite <- (Hback s), <- (Hback t). now rewrite H.
Qed.

(** X2.  [escapeStr] adds exactly one character for each backslash,
    single quote, line feed, carriage return, tab and form feed of its
    argument, and returns the argument itself exactly when it holds none
    of them. *)
Theorem escapeStr_length (s : string) :
  String.length (escapeStr (Some s))
  = (String.length s + count_chars is_special s)%nat
  /\ (escapeStr (Some s) = s <-> count_chars is_special s = 0%nat).
Proof.
  assert (Hlen : String.length (escapeStr (Some s))
                 = (String.length s + count_chars is_special s)%nat).
  { induction s as [|c s IH]; [reflexivity|].
    rewrite escapeStr_cons, length_append, escapeStr_char_length, IH.
    cbn [String.length count_chars]. lia. }
  split; [exact Hlen|]. split.
  - intros H. rewrite H in Hlen. lia.
  - clear Hlen. induction s as [|c s IH]; [reflexivity|].
    cbn [count_chars]. destruct (is_special c) eqn:Hc; [discriminate|].
    intros H. rewrite escapeStr_cons, (escapeStr_char_plain c Hc), (IH H).
    reflexivity.
Qed.

(** X3.  Whatever the movie, the four texts that [formatMovieObject] puts
    between single quotes after escaping them (title, overview, tagline
    and poster) hold no raw control character and no single quote that
    is not behind a backslash. *)
Theorem quoted_bindings_are_escaped (movie : Movie.t) :
  Forall (fun text =>
            all_chars (fun c => negb (is_control c)) text = true
            /\ quotes_escaped false text = true)
         [ Surql.title (Surql.bindings movie);
           Surql.overview (Surql.bindings movie);
           Surql.tagline (Surql.bindings movie);
           Surql.poster (Surql.bindings movie) ].
Proof.
  unfold Surql.bindings.
  cbn [Surql.title Surql.overview Surql.tagline Surql.poster].
  repeat constructor; apply escapeStr_checked.
Qed.

(* ================================================================= *)
(** ** More on the scanner of [json-to-db.ts] *)

Section ScannerMore.

Import JsonToDb.

Lemma glue_app (a b : list string) :
  glue (a ++ b) = (glue a ++ glue b)%string.
Proof.
  induction a as [|x a IH]; cbn [app glue]; [reflexivity|].
  now rewrite IH, append_assoc.
Qed.

(** One character: what is handed over and what stays in the buffer is
    the buffer with the character added. *)
Lemma scan_char_keeps (s : Scanner) (char : ascii) :
  (glue (match snd (scan_char s char) with Some o => [o] | None => [] end)
   ++ objectBuffer (fst (scan_char s char)))%string
  = JS.push (objectBuffer s) char.
Proof.
  unfold scan_char. destruct s as [buf d q e]. scanner_fields.
  destruct e; [reflexivity|].
  destruct (Ascii.eqb char JS.backslash); [reflexivity|].
  destruct (Ascii.eqb char JS.dquote); [reflexivity|].
  destruct q; cbn [negb]; [reflexivity|].
  destruct (Ascii.eqb char JS.lbrace); [reflexivity|].
  destruct (Ascii.eqb char JS.rbrace); [|reflexivity].
  destruct (d - 1 =? 0); cbn [fst snd glue objectBuffer];
    [now rewrite !append_nil_r | reflexivity].
Qed.

Lemma scan_chars_keeps (line : string) (s : Scanner) :
  (glue (snd (scan_chars s line)) ++ objectBuffer (fst (scan_chars s line)))%string
  = (objectBuffer s ++ line)%string.
Proof.
  revert s. induction line as [|c line IH]; intros s; cbn [scan_chars].
  - cbn. now rewrite append_nil_r.
  - assert (H := scan_char_keeps s c).
    destruct (scan_char s c) as [s1 out]. cbn [fst snd] in H.
    specialize (IH s1). destruct (scan_chars s1 line) as [s2 outs].
    cbn [fst snd] in *.
    destruct out as [o|]; cbn [glue app] in *.
    + rewrite append_nil_r in H. rewrite append_assoc, IH, <- append_assoc, H.
      apply append_push.
    + cbn [append] in H. rewrite IH, H. apply append_push.
Qed.

Lemma without_LF_app (a b : string) :
  without_LF (a ++ b) = (without_LF a ++ without_LF b)%string.
Proof. apply replace_app. Qed.

Lemma end_of_line_without_LF (s : Scanner) :
  without_LF (objectBuffer (end_of_line s)) = without_LF (objectBuffer s).
Proof.
  unfold end_of_line.
  destruct (JS.truthy_string (objectBuffer s) && (0 <? openBraces s));
    [|reflexivity].
  cbn [objectBuffer]. unfold JS.push. rewrite without_LF_app. cbn.
  apply append_nil_r.
Qed.

Lemma end_of_line_idle (s : Scanner) : end_of_line s = idle -> s = idle.
Proof.
  unfold end_of_line.
  destruct (JS.truthy_string (objectBuffer s) && (0 <? openBraces s));
    [|easy].
  unfold idle. intros [= H _ _ _]. destruct (objectBuffer s); discriminate.
Qed.

(** Scanning the lines of a token list is walking the tokens. *)
Lemma scan_split_lines (ts : list token) (cur : string) (s0 s : Scanner)
  (outs : list string) :
  scan_chars s0 cur = (s, outs) ->
  scan_lines s0 (split_lines cur ts)
  = (end_of_line (fst (walk s ts)), outs ++ snd (walk s ts)).
Proof.
  revert cur s0 s outs.
  induction ts as [|t ts IH]; intros cur s0 s outs Hcur.
  - cbn [split_lines scan_lines walk fst snd]. unfold scan_line.
    now rewrite Hcur.
  - assert (Hin :
              scan_lines s0 (split_lines (cur ++ render_token t) ts)
              = (end_of_line
                   (fst (let (s1, outs1) := scan_chars s (render_token t) in
                         let (s2, outs2) := walk s1 ts in (s2, outs1 ++ outs2))),
                 outs ++ snd (let (s1, outs1) := scan_chars s (render_token t) in
                              let (s2, outs2) := walk s1 ts in
                              (s2, outs1 ++ outs2)))).
    { rewrite (IH _ s0 (fst (scan_chars s (render_token t)))
                            (outs ++ snd (scan_chars s (render_token t)))).
      - destruct (scan_chars s (render_token t)) as [s1 outs1].
        cbn [fst snd]. destruct (walk s1 ts) as [s2 outs2]. cbn [fst snd].
        now rewrite app_assoc.
      - rewrite scan_chars_app, Hcur. reflexivity. }
    destruct t; cbn [split_lines walk]; try exact Hin.
    cbn [scan_lines]. unfold scan_line. rewrite Hcur.
    rewrite (IH EmptyString (end_of_line s) (end_of_line s) [] eq_refl).
    reflexivity.
Qed.

Lemma walk_app (a b : list token) (s : Scanner) :
  walk s (a ++ b)
  = (fst (walk (fst (walk s a)) b),
     snd (walk s a) ++ snd (walk (fst (walk s a)) b)).
Proof.
  revert s. induction a as [|t a IH]; intros s; cbn [app].
  - cbn [walk fst snd app]. now destruct (walk s b).
  - destruct t; cbn [walk]; try apply IH;
      destruct (scan_chars s _) as [s1 outs1]; rewrite IH;
      destruct (walk s1 a) as [s2 outs2]; cbn [fst snd];
      destruct (walk s2 b) as [s3 outs3]; cbn [fst snd];
      now rewrite app_assoc.
Qed.

(** Inside an open object, up to the brace that closes it. *)
Lemma walk_object (ts : list token) (buf : string) (d : Z) :
  JS.truthy_string buf = true ->
  0 < d ->
  forallb token_ok ts = true ->
  nesting d ts = Some 1 ->
  walk (mkScanner buf d false false) (ts ++ [Close])
  = (idle, [JS.push (buf ++ render ts) JS.rbrace]).
Proof.
  intros Hbuf Hd Hok Hn.
  assert (H := scan_object_rest ts EmptyString (mkScanner buf d false false)
                 buf d eq_refl Hbuf Hd Hok Hn).
  rewrite (scan_split_lines _ EmptyString _ (mkScanner buf d false false) []
             eq_refl) in H.
  cbn [app] in H. injection H as H1 H2.
  apply end_of_line_idle in H1.
  destruct (walk _ _) as [s outs]. cbn [fst snd] in *. now subst.
Qed.

(** Between two objects: line breaks leave no trace, other characters
    stay in the buffer. *)
Lemma walk_separator (sep : list token) (buf : string) :
  forallb is_separator sep = true ->
  walk (mkScanner buf 0 false false) sep
  = (mkScanner (buf ++ render (filter (fun t => negb (is_break t)) sep))
               0 false false, []).
Proof.
  revert buf. induction sep as [|t sep IH]; intros buf Hok.
  - cbn. now rewrite append_nil_r.
  - cbn [forallb] in Hok. apply andb_true_iff in Hok. destruct Hok as [Ht Hs].
    destruct t as [c| | |body|]; try discriminate; cbn [walk filter is_break negb].
    + cbn [is_separator] in Ht.
      rewrite (scan_token (Other c) buf 0 Ht) by discriminate.
      cbn [depth_after]. rewrite (IH _ Hs). cbn [fst snd app render].
      now rewrite append_assoc.
    + unfold end_of_line. cbn [objectBuffer openBraces].
      rewrite andb_false_r. apply (IH _ Hs).
Qed.

Lemma walk_item (item : list token * list token) :
  item_ok item = true ->
  walk idle (item_tokens item) = (idle, [item_text item]).
Proof.
  destruct item as [sep inner]. unfold item_ok, item_tokens, item_text.
  cbn [fst snd]. intros H.
  apply andb_true_iff in H. destruct H as [H Hn].
  apply andb_true_iff in H. destruct H as [Hsep Hok].
  destruct (nesting 1 inner) as [d|] eqn:Hd; [|discriminate].
  apply Z.eqb_eq in Hn. subst d.
  rewrite walk_app. unfold idle at 1 2 3.
  rewrite (walk_separator sep EmptyString Hsep). cbn [fst snd app append].
  set (kept := render _).
  change (Open :: inner ++ [Close]) with ([Open] ++ (inner ++ [Close])).
  rewrite walk_app.
  change (walk (mkScanner kept 0 false false) [Open])
    with (mkScanner (JS.push kept JS.lbrace) (0 + 1) false false, @nil string).
  cbn [fst snd app].
  rewrite (walk_object inner _ 1 (truthy_push _ _) eq_refl Hok Hd).
  cbn [fst snd]. f_equal. f_equal. unfold object_text, JS.push.
  rewrite !append_assoc. reflexivity.
Qed.

Lemma walk_items (items : list (list token * list token)) :
  forallb item_ok items = true ->
  walk idle (flat_map item_tokens items) = (idle, map item_text items).
Proof.
  induction items as [|item items IH]; intros H; [reflexivity|].
  cbn [forallb] in H. apply andb_true_iff in H. destruct H as [Hi Hs].
  cbn [flat_map map]. rewrite walk_app, (walk_item item Hi). cbn [fst snd].
  now rewrite (IH Hs).
Qed.

Lemma nesting_flat (ts : list token) (d : Z) :
  forallb is_flat ts = true -> nesting d ts = Some d.
Proof.
  induction ts as [|t ts IH]; intros H; [reflexivity|].
  cbn [forallb] in H. apply andb_true_iff in H. destruct H as [Ht Hs].
  destruct t; try discriminate; cbn [nesting]; exact (IH Hs).
Qed.

Lemma flat_is_ok (ts : list token) :
  forallb is_flat ts = true -> forallb token_ok ts = true.
Proof.
  induction ts as [|t ts IH]; intros H; [reflexivity|].
  cbn [forallb] in *. apply andb_true_iff in H. destruct H as [Ht Hs].
  rewrite (IH Hs), andb_true_r. now destruct t.
Qed.

(** At depth minus one an object without nested objects goes by without
    being handed over, and leaves the depth at minus one. *)
Lemma scan_hidden_object (inner : list token) (buf : string) :
  forallb is_flat inner = true ->
  scan_chars (mkScanner buf (-1) false false) (object_text inner)
  = (mkScanner (buf ++ object_text inner) (-1) false false, []).
Proof.
  intros Hflat. unfold object_text.
  change (String JS.lbrace (JS.push (render inner) JS.rbrace))
    with (String JS.lbrace EmptyString
          ++ (render inner ++ String JS.rbrace EmptyString))%string.
  rewrite !scan_chars_app.
  change (scan_chars (mkScanner buf (-1) false false)
                     (String JS.lbrace EmptyString))
    with (mkScanner (JS.push buf JS.lbrace) 0 false false, @nil string).
  cbn [fst snd].
  rewrite (scan_tokens inner _ 0 0 (flat_is_ok _ Hflat) (nesting_flat _ _ Hflat)).
  cbn [fst snd app].
  rewrite (scan_token Close _ 0 eq_refl) by (intros _; discriminate).
  cbn [depth_after render_token]. f_equal. f_equal.
  unfold JS.push. now rewrite !append_assoc.
Qed.

End ScannerMore.

(** X4.  Within a line the scanner of [sendMoviesToSurrealDB] neither
    drops, repeats nor reorders a character: the texts handed over,
    followed by what is left in the buffer, are the old buffer followed by
    the line.  Over a whole input the same holds up to the line feeds it
    adds inside open objects. *)
Theorem scanner_keeps_every_character
  (s : JsonToDb.Scanner) (line : string) (lines : list string) :
  (glue (snd (JsonToDb.scan_chars s line))
   ++ JsonToDb.objectBuffer (fst (JsonToDb.scan_chars s line)))%string
  = (JsonToDb.objectBuffer s ++ line)%string
  /\ without_LF
       (glue (snd (JsonToDb.scan_lines s lines))
        ++ JsonToDb.objectBuffer (fst (JsonToDb.scan_lines s lines)))
     = without_LF (JsonToDb.objectBuffer s ++ glue lines).
Proof.
  split; [apply scan_chars_keeps|].
  revert s. induction lines as [|l lines IH]; intros s.
  - cbn. now rewrite append_nil_r.
  - cbn [JsonToDb.scan_lines glue]. unfold JsonToDb.scan_line.
    assert (H := scan_chars_keeps l s).
    destruct (JsonToDb.scan_chars s l) as [s1 outs1]. cbn [fst snd] in H.
    specialize (IH (JsonToDb.end_of_line s1)).
    destruct (JsonToDb.scan_lines (JsonToDb.end_of_line s1) lines)
      as [s2 outs2]. cbn [fst snd] in *.
    rewrite glue_app, append_assoc, without_LF_app, IH.
    rewrite without_LF_app, end_of_line_without_LF.
    rewrite <- !without_LF_app, <- !append_assoc, H. reflexivity.
Qed.

(** The objects of a sequence of items followed by separators. *)
Lemma objects_of_items
  (items : list (list token * list token)) (tail : list token) :
  forallb item_ok items = true ->
  forallb is_separator tail = true ->
  objects (split_lines EmptyString (flat_map item_tokens items ++ tail))
  = map item_text items.
Proof.
  intros Hitems Htail. unfold objects.
  rewrite (scan_split_lines _ EmptyString _ JsonToDb.idle [] eq_refl).
  cbn [snd app].
  rewrite walk_app, (walk_items items Hitems). cbn [fst snd].
  unfold JsonToDb.idle at 1.
  rewrite (walk_separator tail EmptyString Htail). cbn [snd].
  apply app_nil_r.
Qed.

(** X5.  A dump that is a sequence of well-formed objects, each on one
    line or several, with separators between them and after the last, a
    separator being a line break or a character that is neither a brace,
    a double quote nor a backslash: the scanner hands over one text per
    object, in order, each made of the separator characters met before
    the object, without their line breaks, and of the exact text of the
    object.  (A backslash is no separator: it hides the brace that
    follows it, see [backslash_between_objects].) *)
Theorem objects_of_a_clean_dump
  (items : list (list token * list token)) (tail : list token) :
  forallb item_ok items = true ->
  forallb is_separator tail = true ->
  objects (split_lines EmptyString (flat_map item_tokens items ++ tail))
  = map item_text items.
Proof. exact (objects_of_items items tail). Qed.

(** Three objects, two of them on the first line and the third spread
    over the next three lines after a blank. *)
Lemma objects_of_a_clean_dump_witness :
  forallb item_ok
    [ ([], [Str "a"; Other ":"; Other "1"]);
      ([], [Str "b"; Other ":"; Other "2"]);
      ([Break; Other " "], [Break; Str "c"; Other ":"; Other "3"; Break]) ]
  = true
  /\ forallb is_separator [Break] = true
  /\ objects [ json "{'a':1}{'b':2}"; " {"%string; json "'c':3"; "}"%string;
               EmptyString ]
     = [ json "{'a':1}"; json "{'b':2}";
         (" {" ++ Convert.NL ++ json "'c':3" ++ Convert.NL ++ "}")%string ].
Proof.
  split; [reflexivity|]. split; [reflexivity|].
  exact (objects_of_a_clean_dump
           [ ([], [Str "a"; Other ":"; Other "1"]);
             ([], [Str "b"; Other ":"; Other "2"]);
             ([Break; Other " "],
              [Break; Str "c"; Other ":"; Other "3"; Break]) ]
           [Break] eq_refl eq_refl).
Defined.

(** A backslash between two objects is not a separator: it hides the
    brace that follows it, and the second object is never handed over. *)
Example backslash_between_objects :
  JsonToDb.scan_lines JsonToDb.idle
    [ (json "{'a':1}" ++ String JS.backslash (json "{'b':2}"))%string ]
  = (JsonToDb.mkScanner (String JS.backslash (json "{'b':2}")) (-1)
                        false false,
     [json "{'a':1}"]).
Proof. vm_compute. reflexivity. Qed.

(** X6.  After a stray closing brace, objects that hold no nested object
    are never handed over: a line made of a closing brace followed by any
    number of such objects completes no text and ends at depth minus
    one. *)
Theorem stray_brace_hides_objects (flats : list (list token)) :
  forallb (forallb is_flat) flats = true ->
  JsonToDb.scan_lines JsonToDb.idle
    [String JS.rbrace (glue (map object_text flats))]
  = (JsonToDb.mkScanner (String JS.rbrace (glue (map object_text flats)))
                        (-1) false false, []).
Proof.
  intros Hflat. cbn [JsonToDb.scan_lines]. unfold JsonToDb.scan_line.
  change (String JS.rbrace (glue (map object_text flats)))
    with (String JS.rbrace EmptyString ++ glue (map object_text flats))%string.
  rewrite scan_chars_app.
  change (JsonToDb.scan_chars JsonToDb.idle (String JS.rbrace EmptyString))
    with (JsonToDb.mkScanner (String JS.rbrace EmptyString) (-1) false false,
          @nil string).
  cbn [fst snd app].
  assert (H : forall buf,
             JsonToDb.scan_chars (JsonToDb.mkScanner buf (-1) false false)
                                 (glue (map object_text flats))
             = (JsonToDb.mkScanner (buf ++ glue (map object_text flats))
                                   (-1) false false, [])).
  { induction flats as [|inner flats IH]; intros buf.
    - cbn. now rewrite append_nil_r.
    - cbn [forallb] in Hflat. apply andb_true_iff in Hflat.
      destruct Hflat as [Hi Hs]. cbn [map glue].
      rewrite scan_chars_app, (scan_hidden_object inner buf Hi).
      cbn [fst snd]. rewrite (IH Hs). cbn [app].
      now rewrite append_assoc. }
  rewrite H. reflexivity.
Qed.

Lemma stray_brace_hides_objects_witness :
  forallb (forallb is_flat)
    [ [Str "id"; Other ":"; Other "1"]; [Str "id"; Other ":"; Other "2"] ]
  = true
  /\ JsonToDb.scan_lines JsonToDb.idle [json "}{'id':1}{'id':2}"]
     = (JsonToDb.mkScanner (json "}{'id':1}{'id':2}") (-1) false false, []).
Proof.
  split; [reflexivity|].
  exact (stray_brace_hides_objects
           [ [Str "id"; Other ":"; Other "1"];
             [Str "id"; Other ":"; Other "2"] ] eq_refl).
Defined.

(* ================================================================= *)
(** ** More on [sendMoviesToSurrealDB] *)

Section PipelineMore.

Import JsonToDb.

Variable JSON_parse : string -> option Movie.t.
Variable batchSize : Z.

Local Abbreviation on_object := (on_object JSON_parse batchSize).

(** With a batch size of one or less the open batch is always empty
    between two objects, and each object is committed on its own. *)
Lemma fold_on_object_singletons (texts : list string) (st : Ingest) :
  batchSize <= 1 ->
  reliable (db st) ->
  currentBatch st = [] ->
  currentBatch (fold_left on_object texts st) = []
  /\ reliable (db (fold_left on_object texts st))
  /\ store (db (fold_left on_object texts st))
     = store (db st)
       ++ map (fun movie => [formatMovieForDB movie]) (decode JSON_parse texts)
  /\ batchCount (fold_left on_object texts st)
     = (batchCount st + length (decode JSON_parse texts))%nat.
Proof.
  intros HB. revert st.
  induction texts as [|t texts IH]; intros st Hrel Hcb; cbn [fold_left].
  - cbn. rewrite app_nil_r. repeat split; auto.
  - assert (Hstep :
      on_object st t
      = match JSON_parse t with
        | Some movie =>
            mkIngest (S (movieCount st)) (S (batchCount st)) []
              (mkSurreal (store (db st) ++ [[formatMovieForDB movie]]) None [])
              (console st
               ++ [Clear;
                   RecordsCreated (S (movieCount st)) (S (batchCount st))])
        | None =>
            mkIngest (movieCount st) (batchCount st) (currentBatch st) (db st)
                     (console st ++ [ErrorParsingObject SyntaxError])
        end).
    { unfold JsonToDb.on_object. destruct (JSON_parse t) as [movie|];
        [|reflexivity].
      rewrite Hcb. cbn [app length].
      replace (Z.of_nat 1 >=? batchSize) with true
        by (symmetry; apply Z.geb_le; lia).
      now rewrite (sendBatch_reliable _ _ Hrel). }
    rewrite Hstep. unfold decode. cbn [flat_map].
    fold (decode JSON_parse texts).
    destruct (JSON_parse t) as [movie|].
    + destruct (IH (mkIngest (S (movieCount st)) (S (batchCount st)) []
                      (mkSurreal (store (db st) ++ [[formatMovieForDB movie]])
                                 None [])
                      (console st
                       ++ [Clear;
                           RecordsCreated (S (movieCount st))
                                          (S (batchCount st))]))
                   eq_refl eq_refl) as (H1 & H2 & H3 & H4).
      rewrite H3, H4. cbn [db store batchCount map app length].
      split; [exact H1|]. split; [exact H2|].
      split; [now rewrite <- app_assoc | lia].
    + destruct (IH (mkIngest (movieCount st) (batchCount st) (currentBatch st)
                      (db st) (console st ++ [ErrorParsingObject SyntaxError]))
                   Hrel Hcb) as (H1 & H2 & H3 & H4).
      cbn [app]. auto.
Qed.

(** What one object adds to the store is nothing or one transaction that
    is not empty. *)
Lemma on_object_commits_nonempty (st : Ingest) (text : string) :
  exists more,
    store (db (on_object st text)) = store (db st) ++ more
    /\ Forall (fun transaction => transaction <> []) more.
Proof.
  unfold JsonToDb.on_object. destruct (JSON_parse text) as [movie|].
  - destruct (Z.of_nat (length (currentBatch st ++ [movie])) >=? batchSize).
    + assert (H := sendBatch_atomic (db st) (currentBatch st ++ [movie])).
      destruct (sendBatchToSurrealDB _ _) as [db' [err|]]; cbn [db].
      * exists []. rewrite app_nil_r. split; [apply H | constructor].
      * eexists. split; [apply H|]. constructor; [|constructor].
        rewrite map_app. intros Hnil. now apply app_eq_nil in Hnil.
    + exists []. cbn [db]. now rewrite app_nil_r.
  - exists []. cbn [db]. now rewrite app_nil_r.
Qed.

Lemma fold_on_object_commits_nonempty (texts : list string) (st : Ingest) :
  exists more,
    store (db (fold_left on_object texts st)) = store (db st) ++ more
    /\ Forall (fun transaction => transaction <> []) more.
Proof.
  revert st. induction texts as [|t texts IH]; intros st; cbn [fold_left].
  - exists []. now rewrite app_nil_r.
  - destruct (IH (on_object st t)) as (m2 & H2 & F2).
    destruct (on_object_commits_nonempty st t) as (m1 & H1 & F1).
    exists (m1 ++ m2). rewrite H2, H1, app_assoc.
    split; [reflexivity | now apply Forall_app].
Qed.

End PipelineMore.

(** X7.  On a session that rejects nothing and with a positive batch
    size, a run ends normally and the transactions it commits are the
    decoded entities in input order, cut into [ceil (M / B)] batches: all
    but the last of [B] entities, the last of [M mod B], or of [B] when
    [B] divides a positive [M]; [batchCount] is their number. *)
Theorem batches_of_a_reliable_run
  (JSON_parse : string -> option Movie.t) (batchSize : Z)
  (db0 : JsonToDb.Surreal) (lines : list string) :
  0 < batchSize ->
  reliable db0 ->
  exists batches,
    snd (JsonToDb.sendMoviesToSurrealDB JSON_parse batchSize db0 lines) = None
    /\ JsonToDb.store
         (JsonToDb.db
            (fst (JsonToDb.sendMoviesToSurrealDB JSON_parse batchSize db0 lines)))
       = JsonToDb.store db0 ++ map (map JsonToDb.formatMovieForDB) batches
    /\ concat batches = decode JSON_parse (objects lines)
    /\ JsonToDb.batchCount
         (fst (JsonToDb.sendMoviesToSurrealDB JSON_parse batchSize db0 lines))
       = length batches
    /\ length batches
       = ((length (decode JSON_parse (objects lines)) + Z.to_nat batchSize - 1)
          / Z.to_nat batchSize)%nat
    /\ Forall (fun b => length b = Z.to_nat batchSize) (removelast batches)
    /\ length (last batches [])
       = (if (length (decode JSON_parse (objects lines)) =? 0)%nat then 0
          else if (length (decode JSON_parse (objects lines))
                   mod Z.to_nat batchSize =? 0)%nat
               then Z.to_nat batchSize
               else length (decode JSON_parse (objects lines))
                    mod Z.to_nat batchSize)%nat.
Proof. intros HB Hrel. now apply batches_on_reliable_session. Qed.

Lemma batches_of_a_reliable_run_witness :
  0 < 2
  /\ reliable (empty_db [])
  /\ exists batches,
       JsonToDb.store
         (JsonToDb.db
            (fst (JsonToDb.sendMoviesToSurrealDB JSON_parse_sample 2
                    (empty_db []) [json "{'id':1}{'id':2}{'id':3}"])))
       = JsonToDb.store (empty_db [])
         ++ map (map JsonToDb.formatMovieForDB) batches
       /\ length batches = 2%nat.
Proof.
  split; [reflexivity|]. split; [reflexivity|].
  destruct (batches_of_a_reliable_run JSON_parse_sample 2 (empty_db [])
              [json "{'id':1}{'id':2}{'id':3}"] eq_refl eq_refl)
    as (batches & _ & Hs & _ & _ & Hl & _).
  exists batches. split; [exact Hs | exact Hl].
Defined.

(** X8.  Round trip of a clean dump.  When the input is a sequence of
    well-formed objects, with or without separators, whose texts decode
    to the entities [movies], the session rejects nothing and the batch
    size is the number of objects, the run commits exactly one
    transaction: the formatted entities, in input order. *)
Theorem clean_dump_is_one_batch
  (JSON_parse : string -> option Movie.t)
  (db0 : JsonToDb.Surreal)
  (items : list (list token * list token)) (tail : list token)
  (movies : list Movie.t) :
  forallb item_ok items = true ->
  forallb is_separator tail = true ->
  map JSON_parse (map item_text items) = map Some movies ->
  movies <> [] ->
  reliable db0 ->
  JsonToDb.sendMoviesToSurrealDB JSON_parse (Z.of_nat (length movies)) db0
    (split_lines EmptyString (flat_map item_tokens items ++ tail))
  = (JsonToDb.mkIngest (length movies) 1 []
       (JsonToDb.mkSurreal
          (JsonToDb.store db0 ++ [map JsonToDb.formatMovieForDB movies])
          None [])
       [ JsonToDb.Clear;
         JsonToDb.RecordsCreated (length movies) 1;
         JsonToDb.Completed (length movies) 1 ],
     None).
Proof.
  intros Hitems Htail Hparse Hne Hrel.
  rewrite sendMovies_objects, (objects_of_items items tail Hitems Htail).
  set (texts := map item_text items) in *. clearbody texts. clear Hitems Htail.
  assert (Hgen : forall done todo ts st,
             map JSON_parse ts = map Some todo ->
             (length done + length todo = length movies)%nat ->
             todo <> [] ->
             JsonToDb.currentBatch st = done ->
             reliable (JsonToDb.db st) ->
             fold_left (JsonToDb.on_object JSON_parse
                          (Z.of_nat (length movies))) ts st
             = JsonToDb.mkIngest
                 (JsonToDb.movieCount st + length todo)
                 (S (JsonToDb.batchCount st)) []
                 (JsonToDb.mkSurreal
                    (JsonToDb.store (JsonToDb.db st)
                     ++ [map JsonToDb.formatMovieForDB (done ++ todo)])
                    None [])
                 (JsonToDb.console st
                  ++ [ JsonToDb.Clear;
                       JsonToDb.RecordsCreated
                         (JsonToDb.movieCount st + length todo)
                         (S (JsonToDb.batchCount st)) ])).
  { intros done todo. revert done.
    induction todo as [|m todo IH]; intros done ts st Hp Hlen Hne' Hcb Hr;
      [contradiction|].
    destruct ts as [|t ts]; [discriminate|]. cbn [map] in Hp.
    injection Hp as Ht Hts. cbn [fold_left].
    unfold JsonToDb.on_object at 2. rewrite Ht, Hcb.
    assert (Hl : length (done ++ [m]) = S (length done))
      by (rewrite length_app; cbn; lia).
    cbn [length] in Hlen.
    destruct todo as [|m' todo'].
    - (* the last object fills the batch *)
      destruct ts; [|discriminate]. cbn [fold_left length] in *.
      replace (Z.of_nat (length (done ++ [m])) >=? Z.of_nat (length movies))
        with true by (symmetry; apply Z.geb_le; lia).
      rewrite (sendBatch_reliable _ _ Hr).
      now rewrite Nat.add_1_r.
    - replace (Z.of_nat (length (done ++ [m])) >=? Z.of_nat (length movies))
        with false by (symmetry; rewrite Z.geb_leb; apply Z.leb_gt;
                       cbn [length] in Hlen; lia).
      rewrite (IH (done ++ [m]) ts _ Hts); cbn [JsonToDb.currentBatch
        JsonToDb.db JsonToDb.movieCount JsonToDb.batchCount JsonToDb.console];
        try easy; [|cbn [length] in *; lia].
      rewrite <- app_assoc. cbn [app length].
      replace (S (JsonToDb.movieCount st) + S (length todo'))%nat
        with (JsonToDb.movieCount st + S (S (length todo')))%nat by lia.
      reflexivity. }
  rewrite (Hgen [] movies texts (JsonToDb.mkIngest 0 0 [] db0 [])
             Hparse eq_refl Hne eq_refl Hrel).
  reflexivity.
Qed.

(** Two objects on one line, batch size two. *)
Lemma clean_dump_is_one_batch_witness :
  forallb item_ok [ ([], [Str "id"; Other ":"; Other "1"]);
                    ([], [Str "id"; Other ":"; Other "2"]) ] = true
  /\ forallb is_separator [] = true
  /\ map JSON_parse_sample
         (map item_text [ ([], [Str "id"; Other ":"; Other "1"]);
                          ([], [Str "id"; Other ":"; Other "2"]) ])
     = map Some [Movie.bare 1; Movie.bare 2]
  /\ [Movie.bare 1; Movie.bare 2] <> []
  /\ reliable (empty_db [])
  /\ JsonToDb.sendMoviesToSurrealDB JSON_parse_sample 2 (empty_db [])
       [json "{'id':1}{'id':2}"]
     = (JsonToDb.mkIngest 2 1 []
          (JsonToDb.mkSurreal
             [map JsonToDb.formatMovieForDB [Movie.bare 1; Movie.bare 2]]
             None [])
          [ JsonToDb.Clear; JsonToDb.RecordsCreated 2 1;
            JsonToDb.Completed 2 1 ],
        None).
Proof.
  split; [reflexivity|]. split; [reflexivity|]. split; [reflexivity|].
  split; [discriminate|]. split; [reflexivity|].
  exact (clean_dump_is_one_batch JSON_parse_sample (empty_db [])
           [ ([], [Str "id"; Other ":"; Other "1"]);
             ([], [Str "id"; Other ":"; Other "2"]) ] []
           [Movie.bare 1; Movie.bare 2]
           eq_refl eq_refl eq_refl ltac:(discriminate) eq_refl).
Defined.

(** X9.  With a batch size of one, zero or less, and a session that
    rejects nothing, every decoded entity is committed at once in a
    transaction of its own, and the run ends normally with as many
    batches as entities. *)
Theorem small_batch_size_commits_one_by_one
  (JSON_parse : string -> option Movie.t) (batchSize : Z)
  (db0 : JsonToDb.Surreal) (lines : list string) :
  batchSize <= 1 ->
  reliable db0 ->
  snd (JsonToDb.sendMoviesToSurrealDB JSON_parse batchSize db0 lines) = None
  /\ JsonToDb.store
       (JsonToDb.db
          (fst (JsonToDb.sendMoviesToSurrealDB JSON_parse batchSize db0 lines)))
     = JsonToDb.store db0
       ++ map (fun movie => [JsonToDb.formatMovieForDB movie])
              (decode JSON_parse (objects lines))
  /\ JsonToDb.batchCount
       (fst (JsonToDb.sendMoviesToSurrealDB JSON_parse batchSize db0 lines))
     = length (decode JSON_parse (objects lines)).
Proof.
  intros HB Hrel. rewrite sendMovies_objects.
  destruct (fold_on_object_singletons JSON_parse batchSize (objects lines)
              (JsonToDb.mkIngest 0 0 [] db0 []) HB Hrel eq_refl)
    as (Hcb & _ & Hs & Hb).
  unfold JsonToDb.finish. rewrite Hcb. cbn [fst snd JsonToDb.db
    JsonToDb.batchCount]. auto.
Qed.

Lemma small_batch_size_commits_one_by_one_witness :
  -5 <= 1
  /\ reliable (empty_db [])
  /\ JsonToDb.store
       (JsonToDb.db
          (fst (JsonToDb.sendMoviesToSurrealDB JSON_parse_sample (-5)
                  (empty_db []) [json "{'id':1}{'id':2}"])))
     = JsonToDb.store (empty_db [])
       ++ map (fun movie => [JsonToDb.formatMovieForDB movie])
              (decode JSON_parse_sample (objects [json "{'id':1}{'id':2}"])).
Proof.
  split; [discriminate|]. split; [reflexivity|].
  exact (proj1 (proj2 (small_batch_size_commits_one_by_one JSON_parse_sample
                         (-5) (empty_db []) [json "{'id':1}{'id':2}"]
                         ltac:(discriminate) eq_refl))).
Defined.

(** X10.  Whatever the input, the batch size and the calls the session
    rejects, a run only adds to the store, and never adds an empty
    transaction. *)
Theorem run_commits_no_empty_transaction
  (JSON_parse : string -> option Movie.t) (batchSize : Z)
  (db0 : JsonToDb.Surreal) (lines : list string) :
  exists more,
    JsonToDb.store
      (JsonToDb.db
         (fst (JsonToDb.sendMoviesToSurrealDB JSON_parse batchSize db0 lines)))
    = JsonToDb.store db0 ++ more
    /\ Forall (fun transaction => transaction <> []) more.
Proof.
  rewrite sendMovies_objects.
  destruct (fold_on_object_commits_nonempty JSON_parse batchSize
              (objects lines) (JsonToDb.mkIngest 0 0 [] db0 []))
    as (more & Hs & Hne).
  set (st := fold_left _ _ _) in *. cbn [JsonToDb.db] in Hs.
  unfold JsonToDb.finish. destruct (JsonToDb.currentBatch st) as [|m ms] eqn:Hcb.
  - exists more. cbn [fst JsonToDb.db]. auto.
  - assert (H := sendBatch_atomic (JsonToDb.db st) (m :: ms)).
    destruct (JsonToDb.sendBatchToSurrealDB _ _) as [db' [err|]];
      cbn [fst JsonToDb.db].
    + exists more. destruct H as [H _]. rewrite H. auto.
    + destruct H as [H _]. exists (more ++ [map JsonToDb.formatMovieForDB (m :: ms)]).
      rewrite H, Hs, app_assoc. split; [reflexivity|].
      apply Forall_app. split; [exact Hne|].
      constructor; [discriminate | constructor].
Qed.

(* ================================================================= *)
(** ** More on [fixJsonFile] *)

Section ConvertMore.

Import JsonToDb.

Lemma intersperse_snoc (A : Type) (sep : A) (xs : list A) (x : A) :
  intersperse sep (xs ++ [x])
  = intersperse sep xs
    ++ (match xs with [] => [] | _ :: _ => [sep] end) ++ [x].
Proof.
  induction xs as [|y xs IH]; [reflexivity|].
  cbn [app intersperse]. destruct xs as [|z xs]; [reflexivity|].
  cbn [app] in *. now rewrite IH.
Qed.

Lemma glue_intersperse (sep : string) (xs : list string) :
  glue (intersperse sep xs) = JS.join sep xs.
Proof.
  induction xs as [|x xs IH]; [reflexivity|].
  cbn [intersperse JS.join glue]. destruct xs as [|y xs].
  - apply append_nil_r.
  - cbn [glue]. now rewrite IH.
Qed.

(** One character keeps the two scanners in step; a chunk is written
    exactly when a text is handed over. *)
Lemma in_step_char (st : Convert.State) (s : Scanner) (objs : list string)
  (char : ascii) :
  in_step st s objs ->
  exists objs',
    in_step (Convert.for_char st char) (fst (scan_char s char)) objs'
    /\ length objs'
       = (length objs
          + length (match snd (scan_char s char) with
                    | Some o => [o]
                    | None => []
                    end))%nat.
Proof.
  intros (Hd & Hq & He & Hw & Hf).
  rewrite (for_char_scan st (objectBuffer s) char), Hd, Hq, He.
  replace (mkScanner (objectBuffer s) (openBraces s) (inQuotes s) (escapeNext s))
    with s by now destruct s.
  destruct (scan_char s char) as [s' [text|]]; cbn [fst snd].
  - exists (objs ++ [JS.trim (Convert.lineBuffer st)]).
    unfold in_step. scanner_fields.
    rewrite intersperse_snoc, Hw, Hf, length_app. cbn [length].
    repeat split; try reflexivity.
    + destruct objs; reflexivity.
    + destruct objs; reflexivity.
  - exists objs. unfold in_step. scanner_fields. cbn [length].
    repeat split; auto.
Qed.

Lemma in_step_chars (line : string) (st : Convert.State) (s : Scanner)
  (objs : list string) :
  in_step st s objs ->
  exists objs',
    in_step (Convert.for_chars st line) (fst (scan_chars s line)) objs'
    /\ length objs' = (length objs + length (snd (scan_chars s line)))%nat.
Proof.
  revert st s objs. induction line as [|c line IH]; intros st s objs H.
  - exists objs. cbn. split; [exact H | lia].
  - cbn [Convert.for_chars scan_chars].
    destruct (in_step_char st s objs c H) as (objs1 & H1 & L1).
    destruct (scan_char s c) as [s1 out]. cbn [fst snd] in *.
    destruct (IH _ _ _ H1) as (objs2 & H2 & L2).
    destruct (scan_chars s1 line) as [s2 outs]. cbn [fst snd] in *.
    exists objs2. split; [exact H2|].
    destruct out; cbn [length] in *; lia.
Qed.

Lemma in_step_lines (lines : list string) (st : Convert.State) (s : Scanner)
  (objs : list string) :
  in_step st s objs ->
  exists objs',
    in_step (fold_left Convert.for_line lines st) (fst (scan_lines s lines))
            objs'
    /\ length objs' = (length objs + length (snd (scan_lines s lines)))%nat.
Proof.
  revert st s objs. induction lines as [|l lines IH]; intros st s objs H.
  - exists objs. cbn. split; [exact H | lia].
  - cbn [fold_left scan_lines]. unfold scan_line.
    assert (H0 : in_step
                   (Convert.mkState (Convert.isFirstObject st)
                      (Convert.lineBuffer st ++ l)
                      (Convert.openBraces st) (Convert.inQuotes st)
                      (Convert.escapeNext st) (Convert.writeStream st))
                   s objs) by exact H.
    destruct (in_step_chars l _ s objs H0) as (objs1 & H1 & L1).
    destruct (scan_chars s l) as [s1 outs1]. cbn [fst snd] in *.
    assert (H1' : in_step (Convert.for_line st l) (end_of_line s1) objs1).
    { unfold Convert.for_line.
      set (st1 := Convert.for_chars _ l) in *.
      assert (Heol : openBraces (end_of_line s1) = openBraces s1
                     /\ inQuotes (end_of_line s1) = inQuotes s1
                     /\ escapeNext (end_of_line s1) = escapeNext s1).
      { unfold end_of_line.
        now destruct (JS.truthy_string (objectBuffer s1)
                      && (0 <? openBraces s1)). }
      destruct Heol as (E1 & E2 & E3).
      destruct H1 as (Hd & Hq & He & Hw & Hf).
      unfold in_step. rewrite E1, E2, E3.
      destruct (JS.truthy_string (Convert.lineBuffer st1)); scanner_fields;
        repeat split; assumption. }
    destruct (IH _ _ _ H1') as (objs2 & H2 & L2).
    destruct (scan_lines (end_of_line s1) lines) as [s2 outs2].
    cbn [fst snd] in *.
    exists objs2. split; [exact H2|]. rewrite length_app. lia.
Qed.

(** A blank line between two objects changes nothing. *)
Lemma for_line_blank (st : Convert.State) (k : nat) :
  Convert.lineBuffer st = EmptyString ->
  fold_left Convert.for_line (repeat EmptyString k) st = st.
Proof.
  intros Hb. induction k as [|k IH]; [reflexivity|].
  cbn [repeat fold_left]. unfold Convert.for_line at 2.
  cbn [Convert.for_chars]. scanner_fields. rewrite Hb.
  cbn [append JS.truthy_string].
  replace (Convert.mkState _ _ _ _ _ _) with st
    by (destruct st; cbn in *; now subst).
  exact IH.
Qed.

(** One object on lines of its own, written after [objs]. *)
Lemma for_line_object (inner : list token) (objs : list string) (k : nat) :
  object_ok inner = true ->
  fold_left Convert.for_line (repeat EmptyString k ++ object_lines inner)
    (Convert.mkState (match objs with [] => true | _ :: _ => false end)
                     EmptyString 0 false false
                     (("[" ++ Convert.NL)%string :: intersperse comma objs))
  = Convert.mkState false EmptyString 0 false false
      (("[" ++ Convert.NL)%string
       :: intersperse comma (objs ++ [object_text inner])).
Proof.
  unfold object_ok. intros H. apply andb_true_iff in H. destruct H as [Hok Hn].
  destruct (nesting 1 inner) as [d|] eqn:Hd; [|discriminate].
  apply Z.eqb_eq in Hn. subst d.
  rewrite fold_left_app, for_line_blank by reflexivity.
  unfold object_lines. cbn [split_lines app render_token].
  rewrite (fixJsonFile_object_rest inner _ (Convert.mkState _ _ 0 false false _)
             EmptyString (String JS.lbrace EmptyString) 1); try easy.
  scanner_fields. cbn [append].
  change (JS.push (String JS.lbrace (render inner)) JS.rbrace)
    with (String JS.lbrace (JS.push (render inner) JS.rbrace)).
  rewrite trim_braced. fold (object_text inner).
  rewrite intersperse_snoc. cbn [app]. unfold comma.
  destruct objs; reflexivity.
Qed.

End ConvertMore.

(** X11.  Whatever the input, [fixJsonFile] writes the opening bracket,
    then one chunk for each closing brace met at depth one outside a
    string literal, with a comma and a line feed between two chunks and
    none before the first or after the last, then the closing bracket;
    the chunks are as many as the texts [sendMoviesToSurrealDB] hands to
    [JSON.parse] on the same input. *)
Theorem fixJsonFile_output_shape (lines : list string) :
  exists objs,
    Convert.fixJsonFile lines
    = (("[" ++ Convert.NL)%string :: intersperse comma objs)
      ++ [(Convert.NL ++ "]")%string]
    /\ length objs = length (objects lines).
Proof.
  destruct (in_step_lines lines Convert.start JsonToDb.idle [])
    as (objs & (_ & _ & _ & Hw & _) & Hl).
  { repeat split. }
  exists objs. unfold Convert.fixJsonFile, objects. now rewrite Hw.
Qed.

(** X12.  When every object of the dump is well formed and starts on a
    line of its own, after any number of blank lines, the file written
    by [fixJsonFile] is the opening bracket, the exact texts of the
    objects joined by a comma and a line feed, and the closing bracket. *)
Theorem fixJsonFile_on_own_lines (items : list (nat * list token)) :
  forallb (fun item => object_ok (snd item)) items = true ->
  glue (Convert.fixJsonFile (own_lines items))
  = ("[" ++ Convert.NL
     ++ JS.join comma (map (fun item => object_text (snd item)) items)
     ++ Convert.NL ++ "]")%string.
Proof.
  intros Hok.
  assert (Hgen : forall objs,
             fold_left Convert.for_line (own_lines items)
               (Convert.mkState (match objs with [] => true | _ :: _ => false end)
                  EmptyString 0 false false
                  (("[" ++ Convert.NL)%string :: intersperse comma objs))
             = Convert.mkState
                 (match objs ++ map (fun item => object_text (snd item)) items
                  with [] => true | _ :: _ => false end)
                 EmptyString 0 false false
                 (("[" ++ Convert.NL)%string
                  :: intersperse comma
                       (objs ++ map (fun item => object_text (snd item)) items))).
  { induction items as [|[k inner] items IH]; intros objs.
    - cbn. now rewrite app_nil_r.
    - cbn [forallb snd] in Hok. apply andb_true_iff in Hok.
      destruct Hok as [Hi Hs].
      change (own_lines ((k, inner) :: items))
        with ((repeat EmptyString k ++ object_lines inner) ++ own_lines items).
      cbn [map snd].
      rewrite fold_left_app, (for_line_object inner objs k Hi).
      assert (Hnext := IH Hs (objs ++ [object_text inner])).
      replace (match objs ++ [object_text inner] with
               | [] => true
               | _ :: _ => false
               end) with false in Hnext by now destruct objs.
      rewrite Hnext, <- !app_assoc. reflexivity. }
  assert (H0 := Hgen []). cbn [intersperse app] in H0.
  unfold Convert.fixJsonFile. fold Convert.start in H0. rewrite H0.
  scanner_fields. rewrite glue_app. cbn [glue]. rewrite glue_intersperse.
  now rewrite !append_nil_r, !append_assoc.
Qed.

(** Two objects, the second after a blank line and spread over three
    lines. *)
Lemma fixJsonFile_on_own_lines_witness :
  forallb (fun item => object_ok (snd item))
    [ (0%nat, [Str "a"; Other ":"; Other "1"]);
      (1%nat, [Break; Str "b"; Other ":"; Other "2"; Break]) ] = true
  /\ glue (Convert.fixJsonFile
             [ json "{'a':1}"; EmptyString; "{"%string; json "'b':2";
               "}"%string ])
     = ("[" ++ Convert.NL ++ json "{'a':1}" ++ "," ++ Convert.NL
        ++ "{" ++ Convert.NL ++ json "'b':2" ++ Convert.NL ++ "}"
        ++ Convert.NL ++ "]")%string.
Proof.
  split; [reflexivity|].
  exact (fixJsonFile_on_own_lines
           [ (0%nat, [Str "a"; Other ":"; Other "1"]);
             (1%nat, [Break; Str "b"; Other ":"; Other "2"; Break]) ]
           eq_refl).
Defined.

(* ================================================================= *)
(** ** The statement file *)

Section GeneratorFacts.

Variable JSON_parse : string -> option Movie.t.
Variable batchSize : Z.
Variable NumberToString : float -> string.
Variable now : string.
Variable outputPath : string.

Local Abbreviation on_object :=
  (Generator.on_object JSON_parse batchSize NumberToString).
Local Abbreviation writeBatchToFile :=
  (Generator.writeBatchToFile NumberToString).
Local Abbreviation B := (Z.to_nat batchSize).

(** Full batches followed by a shorter open one: how many they are and
    how long the last is. *)
Lemma batches_shape (A : Type) (n : nat) (full : list (list A))
  (rest : list A) :
  (0 < n)%nat ->
  Forall (fun b => length b = n) full ->
  (length rest < n)%nat ->
  length (full ++ match rest with [] => [] | _ :: _ => [rest] end)
  = batch_count (length (concat full ++ rest)) n
  /\ Forall (fun b => length b = n)
            (removelast (full ++ match rest with [] => [] | _ :: _ => [rest] end))
  /\ length (last (full ++ match rest with [] => [] | _ :: _ => [rest] end) [])
     = last_batch_size (length (concat full ++ rest)) n.
Proof.
  intros Hn Hfull Hrest. unfold batch_count, last_batch_size.
  rewrite (length_app (concat full) rest), (length_concat_full _ n full Hfull).
  destruct rest as [|x rest].
  - rewrite app_nil_r. cbn [length]. rewrite Nat.add_0_r.
    split; [apply (Nat.div_unique _ _ _ (n - 1)%nat); lia|]. split.
    + clear - Hfull. induction Hfull as [|b full Hb Hf IH]; cbn [removelast];
        [constructor|]. destruct full; [constructor | constructor; auto].
    + destruct (Nat.eqb_spec (n * length full) 0) as [H0|H0].
      * destruct full as [|b full]; [reflexivity|]. cbn [length] in H0. nia.
      * rewrite Nat.mul_comm, Nat.Div0.mod_mul. cbn [Nat.eqb].
        destruct (exists_last (l := full)) as (full' & b & ->).
        { intros ->. cbn in H0. lia. }
        rewrite last_last. apply Forall_app in Hfull.
        destruct Hfull as [_ Hb]. now inversion Hb.
  - rewrite length_app, last_last, removelast_last. cbn [length] in *.
    split; [apply (Nat.div_unique _ _ _ (length rest)); lia|].
    split; [exact Hfull|].
    assert (Hmod : ((n * length full + S (length rest)) mod n
                    = S (length rest))%nat).
    { symmetry. apply (Nat.mod_unique _ _ (length full)); lia. }
    rewrite Hmod.
    destruct (Nat.eqb_spec (n * length full + S (length rest)) 0); [lia|].
    reflexivity.
Qed.

Lemma write_batches_app (k : nat) (a b : list (list Movie.t)) :
  write_batches NumberToString k (a ++ b)
  = write_batches NumberToString k a
    ++ write_batches NumberToString (k + length a) b.
Proof.
  revert k. induction a as [|x a IH]; intros k; cbn [app write_batches length].
  - now rewrite Nat.add_0_r.
  - rewrite IH, <- app_assoc. now rewrite Nat.add_succ_r.
Qed.

Lemma writeBatchToFile_app (ws : list string) (movies : list Movie.t)
  (k : nat) :
  writeBatchToFile ws movies k = ws ++ writeBatchToFile [] movies k.
Proof. reflexivity. Qed.

(** The loop is the scanner, with [on_object] run on each text it
    completes. *)
Lemma generator_for_chars_scan (line : string) (s : JsonToDb.Scanner)
  (st : Generator.State) :
  Generator.for_chars JSON_parse batchSize NumberToString (s, st) line
  = (fst (JsonToDb.scan_chars s line),
     fold_left on_object (snd (JsonToDb.scan_chars s line)) st).
Proof.
  revert s st. induction line as [|c line IH]; intros s st;
    cbn [Generator.for_chars JsonToDb.scan_chars]; [reflexivity|].
  unfold Generator.for_char. cbn [fst snd].
  destruct (JsonToDb.scan_char s c) as [s1 [text|]]; rewrite IH;
    destruct (JsonToDb.scan_chars s1 line) as [s2 outs]; reflexivity.
Qed.

Lemma generator_for_lines_scan (lines : list string) (s : JsonToDb.Scanner)
  (st : Generator.State) :
  fold_left (Generator.for_line JSON_parse batchSize NumberToString) lines
            (s, st)
  = (fst (JsonToDb.scan_lines s lines),
     fold_left on_object (snd (JsonToDb.scan_lines s lines)) st).
Proof.
  revert s st. induction lines as [|l lines IH]; intros s st;
    cbn [fold_left JsonToDb.scan_lines]; [reflexivity|].
  unfold Generator.for_line at 2, JsonToDb.scan_line.
  rewrite generator_for_chars_scan.
  destruct (JsonToDb.scan_chars s l) as [s1 outs1]. cbn [fst snd].
  rewrite IH. destruct (JsonToDb.scan_lines (JsonToDb.end_of_line s1) lines)
    as [s2 outs2].
  cbn [fst snd]. now rewrite fold_left_app.
Qed.

Hypothesis batchSize_pos : 0 < batchSize.

(** The loop invariant: full batches written, numbered on from
    [batchCount], and an open batch short of [batchSize]. *)
Lemma generator_fold_batches (texts : list string) (st : Generator.State) :
  (length (Generator.currentBatch st) < B)%nat ->
  exists full,
    Generator.writeStream (fold_left on_object texts st)
    = Generator.writeStream st
      ++ write_batches NumberToString (Generator.batchCount st) full
    /\ Forall (fun b => length b = B) full
    /\ concat full ++ Generator.currentBatch (fold_left on_object texts st)
       = Generator.currentBatch st ++ decode JSON_parse texts
    /\ (length (Generator.currentBatch (fold_left on_object texts st)) < B)%nat
    /\ Generator.batchCount (fold_left on_object texts st)
       = (Generator.batchCount st + length full)%nat
    /\ Generator.movieCount (fold_left on_object texts st)
       = (Generator.movieCount st + length (decode JSON_parse texts))%nat.
Proof.
  revert st. induction texts as [|t texts IH]; intros st Hlen; cbn [fold_left].
  - exists []. cbn. rewrite !app_nil_r. repeat split; auto.
  - unfold decode. cbn [flat_map]. fold (decode JSON_parse texts).
    assert (Hstep :
      on_object st t
      = match JSON_parse t with
        | None =>
            Generator.mkState (Generator.movieCount st)
              (Generator.batchCount st) (Generator.currentBatch st)
              (Generator.writeStream st)
              (Generator.console st ++ [Generator.ErrorParsingObject])
        | Some movie =>
            if (S (length (Generator.currentBatch st)) =? B)%nat then
              Generator.mkState (S (Generator.movieCount st))
                (S (Generator.batchCount st)) []
                (writeBatchToFile (Generator.writeStream st)
                   (Generator.currentBatch st ++ [movie])
                   (Generator.batchCount st))
                (Generator.console st
                 ++ [Generator.Processed (S (Generator.movieCount st))
                                         (S (Generator.batchCount st))])
            else
              Generator.mkState (S (Generator.movieCount st))
                (Generator.batchCount st)
                (Generator.currentBatch st ++ [movie])
                (Generator.writeStream st) (Generator.console st)
        end).
    { unfold Generator.on_object. destruct (JSON_parse t) as [movie|];
        [|reflexivity].
      rewrite length_app. cbn [length].
      destruct (Nat.eqb_spec (S (length (Generator.currentBatch st))) B) as [E|E].
      - replace (Z.of_nat (length (Generator.currentBatch st) + 1) >=? batchSize)
          with true by (symmetry; apply Z.geb_le; lia). reflexivity.
      - replace (Z.of_nat (length (Generator.currentBatch st) + 1) >=? batchSize)
          with false by (symmetry; rewrite Z.geb_leb; apply Z.leb_gt; lia).
        reflexivity. }
    rewrite Hstep. destruct (JSON_parse t) as [movie|].
    + destruct (Nat.eqb_spec (S (length (Generator.currentBatch st))) B) as [E|E].
      * destruct (IH (Generator.mkState (S (Generator.movieCount st))
                        (S (Generator.batchCount st)) []
                        (writeBatchToFile (Generator.writeStream st)
                           (Generator.currentBatch st ++ [movie])
                           (Generator.batchCount st))
                        (Generator.console st
                         ++ [Generator.Processed (S (Generator.movieCount st))
                                                 (S (Generator.batchCount st))])))
          as (full & H1 & H2 & H3 & H4 & H5 & H6); [cbn; lia|].
        exists ((Generator.currentBatch st ++ [movie]) :: full).
        rewrite H1, H5, H6.
        cbn [Generator.writeStream Generator.batchCount Generator.movieCount
             Generator.currentBatch write_batches concat length app] in *.
        split; [rewrite writeBatchToFile_app, <- !app_assoc; reflexivity|].
        split.
        { constructor; [rewrite length_app; cbn; lia | exact H2]. }
        split; [rewrite <- app_assoc, H3; now rewrite <- app_assoc|].
        split; [exact H4|]. split; lia.
      * destruct (IH (Generator.mkState (S (Generator.movieCount st))
                        (Generator.batchCount st)
                        (Generator.currentBatch st ++ [movie])
                        (Generator.writeStream st) (Generator.console st)))
          as (full & H1 & H2 & H3 & H4 & H5 & H6).
        { cbn [Generator.currentBatch]. rewrite length_app. cbn. lia. }
        exists full. rewrite H1, H5, H6.
        cbn [Generator.writeStream Generator.batchCount Generator.movieCount
             Generator.currentBatch length app] in *.
        split; [reflexivity|]. split; [exact H2|].
        split; [rewrite H3; now rewrite <- app_assoc|].
        split; [exact H4|]. split; lia.
    + destruct (IH (Generator.mkState (Generator.movieCount st)
                      (Generator.batchCount st) (Generator.currentBatch st)
                      (Generator.writeStream st)
                      (Generator.console st ++ [Generator.ErrorParsingObject])))
        as (full & H1 & H2 & H3 & H4 & H5 & H6); [exact Hlen|].
      exists full. cbn [app]. auto 10.
Qed.

End GeneratorFacts.

(** X13.  The chunks [writeBatchToFile] adds for a batch, put end to end,
    are the comment with the batch number counted from one, the opening
    of the [LET] list, the formatted objects joined by a comma and a
    line feed and followed by one line feed (nothing at all for an empty
    batch), and the closing of the list with the [FOR] loop. *)
Theorem writeBatchToFile_text
  (NumberToString : float -> string) (writeStream : list string)
  (movies : list Movie.t) (batchNumber : nat) :
  glue (Generator.writeBatchToFile NumberToString writeStream movies
          batchNumber)
  = (glue writeStream
     ++ "-- Batch " ++ JS.ToString (Z.of_nat (S batchNumber)) ++ Generator.NL
     ++ "LET $movies = [" ++ Generator.NL
     ++ match movies with
        | [] => EmptyString
        | _ :: _ =>
            JS.join ("," ++ Generator.NL)
                    (map (Surql.formatMovieObject NumberToString) movies)
            ++ Generator.NL
        end
     ++ "];" ++ Generator.NL ++ Generator.NL
     ++ "FOR $movie IN $movies {" ++ Generator.NL
     ++ "  CREATE movie CONTENT $movie;" ++ Generator.NL
     ++ "};" ++ Generator.NL ++ Generator.NL)%string.
Proof.
  assert (Hm : glue (Generator.write_movies NumberToString movies)
               = match movies with
                 | [] => EmptyString
                 | _ :: _ =>
                     (JS.join ("," ++ Generator.NL)
                        (map (Surql.formatMovieObject NumberToString) movies)
                      ++ Generator.NL)%string
                 end).
  { induction movies as [|m movies IH]; [reflexivity|].
    cbn [Generator.write_movies map JS.join glue].
    destruct movies as [|m' movies']; [reflexivity|].
    cbn [glue map] in *. rewrite IH. now rewrite !append_assoc. }
  unfold Generator.writeBatchToFile. rewrite !glue_app, Hm.
  replace (Z.of_nat batchNumber + 1) with (Z.of_nat (S batchNumber)) by lia.
  cbn [glue]. now rewrite !append_assoc, !append_nil_r.
Qed.

(** X14.  With a positive batch size the statement file is the header
    that opens the transaction, the batches and the one [COMMIT]: the
    batches hold the decoded entities in input order, are numbered from
    one without a gap, are [ceil (M / B)] in number, all of [B] entities
    but the last, which has [M mod B], or [B] when [B] divides a positive
    [M]; the counters are the numbers of entities and of batches. *)
Theorem statement_file_batches
  (JSON_parse : string -> option Movie.t) (batchSize : Z)
  (NumberToString : float -> string) (now outputPath : string)
  (lines : list string) :
  0 < batchSize ->
  exists batches,
    Generator.writeStream
      (Generator.convertMoviesToOptimizedSurql JSON_parse batchSize
         NumberToString now outputPath lines)
    = Generator.header now
      ++ write_batches NumberToString 0 batches
      ++ [("COMMIT TRANSACTION;" ++ Generator.NL)%string]
    /\ concat batches = decode JSON_parse (objects lines)
    /\ length batches
       = batch_count (length (decode JSON_parse (objects lines)))
                     (Z.to_nat batchSize)
    /\ Forall (fun b => length b = Z.to_nat batchSize) (removelast batches)
    /\ length (last batches [])
       = last_batch_size (length (decode JSON_parse (objects lines)))
                         (Z.to_nat batchSize)
    /\ Generator.movieCount
         (Generator.convertMoviesToOptimizedSurql JSON_parse batchSize
            NumberToString now outputPath lines)
       = length (decode JSON_parse (objects lines))
    /\ Generator.batchCount
         (Generator.convertMoviesToOptimizedSurql JSON_parse batchSize
            NumberToString now outputPath lines)
       = length batches.
Proof.
  intros HB. unfold Generator.convertMoviesToOptimizedSurql.
  rewrite generator_for_lines_scan. cbn [snd]. fold (objects lines).
  destruct (generator_fold_batches JSON_parse batchSize NumberToString HB
              (objects lines)
              (Generator.mkState 0 0 [] (Generator.header now) []))
    as (full & H1 & H2 & H3 & H4 & H5 & H6); [cbn; lia|].
  set (st := fold_left _ _ _) in *.
  cbn [Generator.writeStream Generator.batchCount Generator.movieCount
       Generator.currentBatch app Nat.add] in H1, H3, H5, H6.
  destruct (batches_shape Movie.t (Z.to_nat batchSize) full
              (Generator.currentBatch st)) as (S1 & S2 & S3);
    [lia | exact H2 | exact H4 |].
  rewrite H3 in S1, S3.
  exists (full ++ match Generator.currentBatch st with
                  | [] => []
                  | _ :: _ => [Generator.currentBatch st]
                  end).
  unfold Generator.finish.
  destruct (Generator.currentBatch st) as [|m ms] eqn:Hcb;
    cbn [Generator.writeStream Generator.batchCount Generator.movieCount].
  - rewrite app_nil_r in *. rewrite H1, <- app_assoc.
    repeat split; auto.
  - rewrite write_batches_app, concat_app, length_app. cbn [concat length].
    rewrite app_nil_r, H3.
    unfold Generator.writeBatchToFile at 1.
    rewrite H1, H5. cbn [write_batches Nat.add].
    rewrite app_nil_r, <- !app_assoc.
    rewrite length_app in S1. cbn [length] in S1.
    split; [unfold Generator.writeBatchToFile; cbn [app];
            now rewrite <- !app_assoc|].
    repeat split; auto; lia.
Qed.

Lemma statement_file_batches_witness :
  0 < 2
  /\ exists batches,
       concat batches
       = decode JSON_parse_sample (objects [json "{'id':1}{'id':2}{'id':3}"])
       /\ length batches = 2%nat.
Proof.
  split; [reflexivity|].
  destruct (statement_file_batches JSON_parse_sample 2
              (fun _ => EmptyString) "now" "out.surql"
              [json "{'id':1}{'id':2}{'id':3}"] eq_refl)
    as (batches & _ & Hc & Hl & _).
  exists batches. split; [exact Hc | exact Hl].
Defined.

(* ================================================================= *)
(** ** The importer scripts *)

(** X15.  The importer and [formatMovieForDB] agree on every movie that
    has a genre list: the record of [formatMovieForDB] is the parameter
    object of the importer, with each [RecordId] written as table, colon,
    id and the release date wrapped in a [Date].  On a movie without a
    genre list the importer throws a [TypeError], where [formatMovieForDB]
    falls back on [genre:0]. *)
Theorem importer_agrees_with_formatMovieForDB (movie : Movie.t) :
  match Importer.movie_params movie with
  | inl params => JsonToDb.formatMovieForDB movie = row_of_params params
  | inr error =>
      error = Importer.TypeError
      /\ Movie.genres movie = None
      /\ JsonToDb.Row.genre (JsonToDb.formatMovieForDB movie)
         = ["genre:0"%string]
  end.
Proof.
  destruct movie as [id title budget overview poster date revenue runtime
                     tagline vote language genres collection].
  unfold Importer.movie_params, JsonToDb.formatMovieForDB, row_of_params.
  cbn [Movie.genres Movie.id Movie.title Movie.budget Movie.overview
       Movie.poster_path Movie.release_date Movie.revenue Movie.runtime
       Movie.tagline Movie.vote_average Movie.original_language
       Movie.belongs_to_collection].
  destruct genres as [gs|]; [|repeat split].
  cbn [Importer.Params.id Importer.Params.title Importer.Params.budget
       Importer.Params.overview Importer.Params.poster
       Importer.Params.release_date Importer.Params.revenue
       Importer.Params.runtime Importer.Params.tagline
       Importer.Params.vote_average Importer.Params.language
       Importer.Params.genre Importer.Params.collection].
  f_equal.
  - destruct date as [[|c d]|]; reflexivity.
  - destruct gs as [|g gs]; [reflexivity|].
    rewrite map_map. reflexivity.
  - destruct collection; reflexivity.
Qed.

(** X16.  The importer is not atomic.  Its loop creates the movies one
    by one until the first movie without a genre list or the first
    rejected query, and stops there: the movies before it stay created,
    in order, and the movies from it on are not created. *)
Theorem importer_stops_at_first_failure
  (db : Importer.Session) (movies : list Movie.t) :
  exists done rest params,
    movies = done ++ rest
    /\ map Importer.movie_params done = map inl params
    /\ Importer.created (fst (Importer.import_movies db movies))
       = Importer.created db ++ params
    /\ match snd (Importer.import_movies db movies) with
       | None => rest = []
       | Some Importer.TypeError =>
           exists movie rest', rest = movie :: rest'
                               /\ Movie.genres movie = None
       | Some Importer.QueryError =>
           exists movie rest', rest = movie :: rest'
                               /\ Movie.genres movie <> None
       end.
Proof.
  revert db. induction movies as [|m movies IH]; intros db.
  - exists [], [], []. cbn. now rewrite app_nil_r.
  - cbn [Importer.import_movies].
    destruct (Importer.movie_params m) as [p|e] eqn:Hp.
    + assert (Hg : Movie.genres m <> None).
      { unfold Importer.movie_params in Hp.
        destruct (Movie.genres m); [discriminate | discriminate]. }
      unfold Importer.query.
      destruct (Importer.faults db) as [|[|] fs] eqn:Hf.
      * destruct (IH (Importer.mkSession (Importer.created db ++ [p]) []))
          as (done & rest & ps & H1 & H2 & H3 & H4).
        exists (m :: done), rest, (p :: ps). cbn [app map].
        split; [now f_equal|]. split; [now rewrite H2, Hp|].
        split; [|exact H4].
        rewrite H3. cbn [Importer.created]. now rewrite <- app_assoc.
      * exists [], (m :: movies), []. cbn [fst snd app map Importer.created].
        rewrite app_nil_r. repeat split. eauto.
      * destruct (IH (Importer.mkSession (Importer.created db ++ [p]) fs))
          as (done & rest & ps & H1 & H2 & H3 & H4).
        exists (m :: done), rest, (p :: ps). cbn [app map].
        split; [now f_equal|]. split; [now rewrite H2, Hp|].
        split; [|exact H4].
        rewrite H3. cbn [Importer.created]. now rewrite <- app_assoc.
    + exists [], (m :: movies), []. cbn [fst snd app map].
      rewrite app_nil_r. repeat split.
      unfold Importer.movie_params in Hp.
      destruct (Movie.genres m) eqn:Hg; [discriminate|].
      injection Hp as <-. eauto.
Qed.

(* ================================================================= *)
(** ** [collections.ts] *)

Section CollectionsFacts.

Variable Data : Type.
Variable fetch : string -> option Data.

Lemma fetch_window_app (a b : list string) :
  Collections.fetch_window Data fetch (a ++ b)
  = Collections.fetch_window Data fetch a
    ++ Collections.fetch_window Data fetch b.
Proof. unfold Collections.fetch_window. apply flat_map_app. Qed.

(** The loop from the window [k] on: the rest of the list is fetched in
    order, with a pause and a message after every window but the last. *)
Lemma windows_from (collections : list string) (fuel k : nat)
  (st : Collections.State Data) :
  (length collections <= Collections.batchSize * k + fuel)%nat ->
  (k <= (length collections - 1) / Collections.batchSize \/ 
   length collections <= Collections.batchSize * k)%nat ->
  Collections.windows Data fetch fuel collections (Collections.batchSize * k) st
  = Collections.mkState
      (Collections.collectionData st
       ++ Collections.fetch_window Data fetch
            (skipn (Collections.batchSize * k) collections))
      (Collections.console st
       ++ progress k ((length collections - 1) / Collections.batchSize - k)
                   (length collections))
      (Collections.pauses st
       + ((length collections - 1) / Collections.batchSize - k))
      (Collections.written st).
Proof.
  unfold Collections.batchSize.
  set (n := length collections).
  revert k st. induction fuel as [|fuel IH]; intros k st Hfuel Hk.
  - assert (Hn : (n <= 40 * k)%nat) by lia.
    cbn [Collections.windows]. rewrite skipn_all2 by exact Hn.
    assert (Hq : ((n - 1) / 40 - k = 0)%nat).
    { assert ((n - 1) / 40 <= k)%nat; [|lia].
      apply Nat.Div0.div_le_upper_bound. lia. }
    rewrite Hq. cbn. rewrite !app_nil_r, Nat.add_0_r. now destruct st.
  - cbn [Collections.windows]. fold n.
    destruct (Nat.ltb_spec (40 * k) n) as [Hlt|Hge].
    + assert (Hslice : Collections.slice collections (40 * k) (40 * k + 40)
                       = firstn 40 (skipn (40 * k) collections)).
      { unfold Collections.slice. f_equal. lia. }
      unfold Collections.batchSize. rewrite Hslice.
      replace (40 * k + 40)%nat with (40 * S k)%nat by lia.
      assert (Hdata : forall data,
                 (data ++ Collections.fetch_window Data fetch
                            (firstn 40 (skipn (40 * k) collections)))
                 ++ Collections.fetch_window Data fetch
                      (skipn (40 * S k) collections)
                 = data ++ Collections.fetch_window Data fetch
                             (skipn (40 * k) collections)).
      { intros data. rewrite <- app_assoc, <- fetch_window_app. do 2 f_equal.
        replace (40 * S k)%nat with (40 + 40 * k)%nat by lia.
        rewrite <- skipn_skipn. apply firstn_skipn. }
      destruct (Nat.ltb_spec (40 * S k) n) as [Hmore|Hlast].
      * (* another window follows *)
        assert (Hq : (S k <= (n - 1) / 40)%nat)
          by (apply Nat.div_le_lower_bound; lia).
        rewrite IH; [| lia | left; lia].
        cbn [Collections.collectionData Collections.console
             Collections.pauses Collections.written].
        rewrite Hdata.
        assert (Hlen : length (firstn 40 (skipn (40 * k) collections)) = 40%nat).
        { rewrite length_firstn, length_skipn. fold n. lia. }
        rewrite Hlen.
        replace ((n - 1) / 40 - k)%nat with (S ((n - 1) / 40 - S k)) by lia.
        unfold progress. cbn [seq map]. unfold Collections.batchSize.
        replace (40 * k + 40)%nat with (40 * S k)%nat by lia.
        rewrite <- app_assoc. cbn [app]. f_equal. lia.
      * (* the last window *)
        assert (Hq : ((n - 1) / 40 - k = 0)%nat).
        { assert ((n - 1) / 40 < S k)%nat; [|lia].
          apply Nat.Div0.div_lt_upper_bound. lia. }
        rewrite IH; [| lia | right; lia].
        cbn [Collections.collectionData Collections.console
             Collections.pauses Collections.written].
        rewrite Hdata, Hq.
        assert (Hq' : ((n - 1) / 40 - S k = 0)%nat) by lia.
        rewrite Hq'. cbn. now rewrite !app_nil_r, !Nat.add_0_r.
    + rewrite skipn_all2 by (fold n; lia).
      assert (Hq : ((n - 1) / 40 - k = 0)%nat).
      { assert ((n - 1) / 40 <= k)%nat; [|lia].
        apply Nat.Div0.div_le_upper_bound. lia. }
      rewrite Hq. cbn. rewrite !app_nil_r, Nat.add_0_r. now destruct st.
Qed.

(** The whole loop on a list that is not empty. *)
Lemma windows_all (c : string) (cs : list string) :
  Collections.windows Data fetch (length (c :: cs)) (c :: cs) 0
    (Collections.mkState [] [] 0 None)
  = Collections.mkState
      (Collections.fetch_window Data fetch (c :: cs))
      (progress 0 (length cs / Collections.batchSize) (S (length cs)))
      (length cs / Collections.batchSize) None.
Proof.
  pose proof (windows_from (c :: cs) (length (c :: cs)) 0
                (Collections.mkState [] [] 0 None)) as H.
  change (Collections.batchSize * 0)%nat with 0%nat in H.
  rewrite H; [| lia | left; lia].
  cbn [Collections.collectionData Collections.console Collections.pauses
       Collections.written skipn app length].
  replace (S (length cs) - 1)%nat with (length cs) by lia.
  rewrite Nat.sub_0_r. reflexivity.
Qed.

End CollectionsFacts.

(** X17.  Cutting the list in windows of forty loses and repeats
    nothing: whatever the length of the list, the file [collections.ts]
    writes holds the answers to the requests for its collections that
    did not fail, one request per collection, in the order of the list.
    On an empty list the script writes no file at all. *)
Theorem collections_are_fetched_once_in_order
  (Data : Type) (fetch : string -> option Data) (collections : list string) :
  Collections.written (Collections.main Data fetch collections)
  = match collections with
    | [] => None
    | _ :: _ => Some (Collections.fetch_window Data fetch collections)
    end.
Proof.
  destruct collections as [|c cs]; [reflexivity|].
  unfold Collections.main. rewrite windows_all. reflexivity.
Qed.

(** X18.  For [n >= 1] collections the script pauses [(n - 1) / 40]
    times, once after each window of forty but the last, and prints
    before each pause the number of collections processed so far, a
    multiple of forty; the last message gives the number of answers
    saved. *)
Theorem collections_pause_between_windows
  (Data : Type) (fetch : string -> option Data)
  (c : string) (cs : list string) :
  Collections.pauses (Collections.main Data fetch (c :: cs))
  = (length cs / Collections.batchSize)%nat
  /\ Collections.console (Collections.main Data fetch (c :: cs))
     = progress 0 (length cs / Collections.batchSize) (S (length cs))
       ++ [Collections.Saved
             (length (Collections.fetch_window Data fetch (c :: cs)))].
Proof.
  unfold Collections.main. rewrite windows_all.
  cbn [Collections.pauses Collections.console Collections.collectionData].
  split; reflexivity.
Qed.

Section SplitFacts.

Lemma split_not_nil (c : ascii) (s : string) : Collections.split c s <> [].
Proof.
  induction s as [|a s IH]; cbn [Collections.split]; [discriminate|].
  destruct (Ascii.eqb a c); [discriminate|].
  destruct (Collections.split c s); discriminate.
Qed.

Lemma split_no_colon (s : string) :
  no_colon s = true -> Collections.split ":" s = [s].
Proof.
  unfold no_colon.
  induction s as [|a s IH]; cbn [all_chars Collections.split]; [reflexivity|].
  intros H. apply andb_prop in H as [Ha Hs].
  apply negb_true_iff in Ha. rewrite Ha, (IH Hs). reflexivity.
Qed.

Lemma split_at_colon (a b : string) :
  no_colon a = true ->
  Collections.split ":" (a ++ ":" ++ b) = a :: Collections.split ":" b.
Proof.
  unfold no_colon.
  induction a as [|x a IH]; cbn [all_chars append Collections.split];
    [reflexivity|].
  intros H. apply andb_prop in H as [Hx Ha].
  apply negb_true_iff in Hx. rewrite Hx.
  change (String ":" b) with (":" ++ b)%string.
  rewrite (IH Ha). reflexivity.
Qed.

Lemma no_colon_uint (d : Decimal.uint) :
  no_colon (NilEmpty.string_of_uint d) = true.
Proof. induction d; cbn; auto. Qed.

Lemma no_colon_ToString (n : Z) : no_colon (JS.ToString n) = true.
Proof.
  unfold JS.ToString, NilEmpty.string_of_int.
  destruct (Z.to_int n) as [d|d]; [apply no_colon_uint|].
  unfold no_colon. cbn [all_chars]. apply no_colon_uint.
Qed.

Lemma id_of_last (table id : string) :
  no_colon table = true -> no_colon id = true ->
  Collections.id_of (table ++ ":" ++ id) = id.
Proof.
  intros Ht Hi. unfold Collections.id_of.
  now rewrite split_at_colon, split_no_colon.
Qed.

End SplitFacts.

(** X19.  The id [collections.ts] requests for an item is the text
    between the first and the second colon of its [collection] field, or
    up to the end when there is one colon only; for a field without a
    colon the script requests the collection named [undefined]. *)
Theorem id_of_reads_between_colons (table id more : string) :
  no_colon table = true -> no_colon id = true ->
  Collections.id_of (table ++ ":" ++ id) = id
  /\ Collections.id_of (table ++ ":" ++ id ++ ":" ++ more) = id
  /\ Collections.id_of table = "undefined"%string.
Proof.
  intros Ht Hi. repeat split.
  - now apply id_of_last.
  - unfold Collections.id_of.
    rewrite !split_at_colon by assumption. reflexivity.
  - unfold Collections.id_of. now rewrite split_no_colon.
Qed.

Lemma id_of_reads_between_colons_witness :
  Collections.id_of "collection:10" = "10"%string
  /\ Collections.id_of "collection:10:1" = "10"%string
  /\ Collections.id_of "collection" = "undefined"%string.
Proof.
  apply (id_of_reads_between_colons "collection" "10" "1"); reflexivity.
Defined.

(** X20.  [collections.ts] reads back what [formatMovieForDB] writes:
    from the collection reference of a record it takes the decimal text
    of the id of the collection of the movie. *)
Theorem id_of_collection_reference (movie : Movie.t) :
  option_map Collections.id_of
    (JsonToDb.Row.collection (JsonToDb.formatMovieForDB movie))
  = option_map (fun c => JS.ToString (Collection.id c))
      (Movie.belongs_to_collection movie).
Proof.
  unfold JsonToDb.formatMovieForDB. cbn [JsonToDb.Row.collection].
  destruct (Movie.belongs_to_collection movie) as [c|]; [|reflexivity].
  cbn [option_map]. f_equal.
  apply (id_of_last "collection"); [reflexivity | apply no_colon_ToString].
Qed.

(* ================================================================= *)
(** ** The statement generator and the sender *)

Lemma unescape_escapeStr (s : string) : unescape (escapeStr (Some s)) = s.
Proof.
  induction s as [|c s IH]; [reflexivity|].
  now rewrite escapeStr_cons, escapeStr_char_back, IH.
Qed.

(** X21.  The statement [formatMovieObject] writes for a movie describes
    the record [formatMovieForDB] sends for it: the quoted texts read
    back as the texts of the record, the date and the numbers are the
    same, the language is the same link, the genre list is the list of
    the record between brackets, and the collection is the link of the
    record, or [NULL] where the record has none. *)
Theorem statement_describes_the_record (movie : Movie.t) :
  let b := Surql.bindings movie in
  let r := JsonToDb.formatMovieForDB movie in
  unescape (Surql.title b) = JsonToDb.Row.title r
  /\ unescape (Surql.overview b) = JsonToDb.Row.overview r
  /\ unescape (Surql.tagline b) = JsonToDb.Row.tagline r
  /\ unescape (Surql.poster b) = JsonToDb.Row.poster r
  /\ JS.new_Date (Surql.release_date b) = JsonToDb.Row.release_date r
  /\ Surql.budget b = JsonToDb.Row.budget r
  /\ Surql.revenue b = JsonToDb.Row.revenue r
  /\ Surql.runtime b = JsonToDb.Row.runtime r
  /\ Surql.vote_average b = JsonToDb.Row.vote_average r
  /\ ("language:" ++ Surql.language b)%string = JsonToDb.Row.language r
  /\ Surql.genres b
     = ("[" ++ JS.join ", " (JsonToDb.Row.genre r) ++ "]")%string
  /\ Surql.collection b
     = match JsonToDb.Row.collection r with
       | Some link => link
       | None => "NULL"%string
       end.
Proof.
  unfold Surql.bindings, JsonToDb.formatMovieForDB.
  cbn [Surql.title Surql.overview Surql.tagline Surql.poster
       Surql.release_date Surql.budget Surql.revenue Surql.runtime
       Surql.vote_average Surql.language Surql.genres Surql.collection
       JsonToDb.Row.title JsonToDb.Row.overview JsonToDb.Row.tagline
       JsonToDb.Row.poster JsonToDb.Row.release_date JsonToDb.Row.budget
       JsonToDb.Row.revenue JsonToDb.Row.runtime JsonToDb.Row.vote_average
       JsonToDb.Row.language JsonToDb.Row.genre JsonToDb.Row.collection].
  rewrite !unescape_escapeStr.
  repeat split.
  - destruct (Movie.release_date movie) as [[|c d]|]; reflexivity.
  - destruct (Movie.genres movie) as [[|g gs]|]; reflexivity.
  - destruct (Movie.belongs_to_collection movie); reflexivity.
Qed.

(* ================================================================= *)
(** ** Truncated input and malformed objects *)

Section TruncationFacts.

Import JsonToDb.

Variable JSON_parse : string -> option Movie.t.
Variable batchSize : Z.

Local Abbreviation on_object := (on_object JSON_parse batchSize).
Local Abbreviation sendMovies := (sendMoviesToSurrealDB JSON_parse batchSize).

Lemma end_of_line_flags (s : Scanner) :
  exists buf,
    end_of_line s = mkScanner buf (openBraces s) (inQuotes s) (escapeNext s).
Proof.
  unfold end_of_line.
  destruct (JS.truthy_string (objectBuffer s) && (0 <? openBraces s));
    [eexists; reflexivity|].
  exists (objectBuffer s). now destruct s.
Qed.

(** A text that closes no object is taken in without anything being
    handed over, whatever the depth it starts at and the depth it leaves. *)
Lemma walk_tail (ts : list token) (buf : string) (d : Z) :
  forallb token_ok ts = true ->
  closes_no_object d ts = true ->
  exists buf',
    walk (mkScanner buf d false false) ts
    = (mkScanner buf' (fold_left depth_after ts d) false false, []).
Proof.
  revert buf d. induction ts as [|t ts IH]; intros buf d Hok Hno.
  - exists buf. reflexivity.
  - cbn [forallb] in Hok. apply andb_true_iff in Hok. destruct Hok as [Ht Hts].
    assert (Hstep : (t = Close -> d - 1 <> 0)
                    /\ closes_no_object (depth_after d t) ts = true).
    { destruct t; cbn [closes_no_object depth_after] in *;
        try (split; [discriminate | assumption]).
      apply andb_true_iff in Hno. destruct Hno as [Hd Hno].
      apply negb_true_iff, Z.eqb_neq in Hd. split; [intros _; lia | exact Hno]. }
    destruct Hstep as [Hc Hno'].
    assert (Hin : exists buf',
               (let (s1, outs1) :=
                  scan_chars (mkScanner buf d false false) (render_token t) in
                let (s2, outs2) := walk s1 ts in (s2, outs1 ++ outs2))
               = (mkScanner buf' (fold_left depth_after ts (depth_after d t))
                            false false, [])).
    { rewrite (scan_token t buf d Ht Hc).
      destruct (IH (buf ++ render_token t)%string _ Hts Hno') as [buf' H].
      exists buf'. now rewrite H. }
    destruct t; cbn [walk fold_left]; try exact Hin.
    destruct (end_of_line_flags (mkScanner buf d false false)) as [buf1 H1].
    rewrite H1. cbn [openBraces inQuotes escapeNext].
    exact (IH buf1 d Hts Hno').
Qed.

(** The objects of a dump are the objects before its tail. *)
Lemma scan_dump (items : list (list token * list token)) (tail : list token) :
  forallb item_ok items = true ->
  forallb token_ok tail = true ->
  closes_no_object 0 tail = true ->
  openBraces (fst (scan_lines idle (dump items tail)))
  = fold_left depth_after tail 0
  /\ objects (dump items tail) = map item_text items.
Proof.
  intros Hitems Hok Hno. unfold objects, dump.
  rewrite (scan_split_lines _ EmptyString _ idle [] eq_refl).
  cbn [fst snd app].
  rewrite walk_app, (walk_items items Hitems). cbn [fst snd].
  destruct (walk_tail tail EmptyString 0 Hok Hno) as [buf H].
  unfold idle at 1 2. rewrite H. cbn [fst snd]. split; [|apply app_nil_r].
  destruct (end_of_line_flags (mkScanner buf (fold_left depth_after tail 0)
                                 false false)) as [buf' H'].
  now rewrite H'.
Qed.


(** One more line on the console changes nothing else, in the loop and
    after it. *)
Lemma on_object_insert (st : Ingest) (text : string)
  (c1 c2 : list Output) (x : Output) :
  console st = c1 ++ c2 ->
  exists c2',
    console (on_object st text) = c1 ++ c2'
    /\ on_object (with_console st (c1 ++ x :: c2)) text
       = with_console (on_object st text) (c1 ++ x :: c2').
Proof.
  intros H. unfold JsonToDb.on_object, with_console.
  cbn [movieCount batchCount currentBatch db console].
  destruct (JSON_parse text) as [movie|].
  - destruct (Z.of_nat (length (currentBatch st ++ [movie])) >=? batchSize).
    + destruct (sendBatchToSurrealDB (db st) (currentBatch st ++ [movie]))
        as [db' [err|]];
        cbn [movieCount batchCount currentBatch db console];
        rewrite H; eexists; rewrite <- !app_assoc;
        (split; [reflexivity|]); reflexivity.
    + cbn [movieCount batchCount currentBatch db console].
      exists c2. split; [exact H | reflexivity].
  - cbn [movieCount batchCount currentBatch db console].
    rewrite H. eexists. rewrite <- !app_assoc.
    split; reflexivity.
Qed.

Lemma fold_on_object_insert (texts : list string) (st : Ingest)
  (c1 c2 : list Output) (x : Output) :
  console st = c1 ++ c2 ->
  exists c2',
    console (fold_left on_object texts st) = c1 ++ c2'
    /\ fold_left on_object texts (with_console st (c1 ++ x :: c2))
       = with_console (fold_left on_object texts st) (c1 ++ x :: c2').
Proof.
  revert st c2. induction texts as [|t texts IH]; intros st c2 H.
  - exists c2. split; [exact H | reflexivity].
  - cbn [fold_left].
    destruct (on_object_insert st t c1 c2 x H) as (c3 & H3 & E3).
    rewrite E3. exact (IH _ c3 H3).
Qed.

Lemma finish_insert (st : Ingest) (c1 c2 : list Output) (x : Output) :
  console st = c1 ++ c2 ->
  exists c2',
    console (fst (finish st)) = c1 ++ c2'
    /\ finish (with_console st (c1 ++ x :: c2))
       = (with_console (fst (finish st)) (c1 ++ x :: c2'), snd (finish st)).
Proof.
  intros H. unfold finish, with_console.
  cbn [movieCount batchCount currentBatch db console].
  destruct (currentBatch st) as [|m ms].
  - cbn [fst snd movieCount batchCount currentBatch db console].
    rewrite H. eexists. rewrite <- !app_assoc. split; reflexivity.
  - destruct (sendBatchToSurrealDB (db st) (m :: ms)) as [db' [error|]];
      cbn [fst snd movieCount batchCount currentBatch db console];
      rewrite H; eexists; rewrite <- !app_assoc; split; reflexivity.
Qed.

(** A text that does not parse, between the texts [before] and [after]. *)
Lemma run_with_rejected (db0 : Surreal) (before after : list string)
  (bad : string) :
  JSON_parse bad = None ->
  exists c1 c2,
    console (fst (finish (fold_left on_object (before ++ after)
                                    (mkIngest 0 0 [] db0 []))))
    = c1 ++ c2
    /\ finish (fold_left on_object (before ++ bad :: after)
                         (mkIngest 0 0 [] db0 []))
       = (with_console
            (fst (finish (fold_left on_object (before ++ after)
                                    (mkIngest 0 0 [] db0 []))))
            (c1 ++ ErrorParsingObject SyntaxError :: c2),
          snd (finish (fold_left on_object (before ++ after)
                                 (mkIngest 0 0 [] db0 [])))).
Proof.
  intros Hbad. rewrite !fold_left_app. cbn [fold_left].
  set (st := fold_left on_object before _).
  assert (Hst : on_object st bad
                = with_console st
                    (console st ++ ErrorParsingObject SyntaxError :: [])).
  { unfold JsonToDb.on_object. now rewrite Hbad. }
  rewrite Hst.
  destruct (fold_on_object_insert after st (console st) []
              (ErrorParsingObject SyntaxError) (eq_sym (app_nil_r _)))
    as (c2 & H2 & E2).
  rewrite E2.
  destruct (finish_insert (fold_left on_object after st) (console st) c2
              (ErrorParsingObject SyntaxError) H2) as (c3 & H3 & E3).
  exists (console st), c3. split; assumption.
Qed.

End TruncationFacts.



(** C5.  A well-formed object that [JSON.parse] rejects, anywhere in a
    sequence of well-formed objects: the scanner goes on and hands over
    every object before it and after it; the entities decoded are those
    of the objects before it followed by those of the objects after it;
    and the run is the run on the input without that object, with the
    same counters, batch, session and outcome, but for one
    "Error parsing object" line on the console.  Every text that parses
    is counted and sits in the store or in the open batch, every text
    that does not has its line on the console, and the error that ends a
    run, if any, is never a parse error. *)
Theorem decode_error_is_isolated
  (JSON_parse : string -> option Movie.t) (batchSize : Z)
  (db : JsonToDb.Surreal)
  (before after : list (list token * list token))
  (bad : list token * list token) (tail : list token) :
  forallb item_ok (before ++ bad :: after) = true ->
  forallb token_ok tail = true ->
  closes_no_object 0 tail = true ->
  JSON_parse (item_text bad) = None ->
  objects (dump (before ++ bad :: after) tail)
  = map item_text before ++ item_text bad :: map item_text after
  /\ decode JSON_parse (objects (dump (before ++ bad :: after) tail))
     = decode JSON_parse (map item_text before)
       ++ decode JSON_parse (map item_text after)
  /\ (exists c1 c2,
        JsonToDb.console
          (fst (JsonToDb.sendMoviesToSurrealDB JSON_parse batchSize db
                  (dump (before ++ after) tail)))
        = c1 ++ c2
        /\ JsonToDb.sendMoviesToSurrealDB JSON_parse batchSize db
             (dump (before ++ bad :: after) tail)
           = (with_console
                (fst (JsonToDb.sendMoviesToSurrealDB JSON_parse batchSize db
                        (dump (before ++ after) tail)))
                (c1 ++ JsonToDb.ErrorParsingObject JsonToDb.SyntaxError :: c2),
              snd (JsonToDb.sendMoviesToSurrealDB JSON_parse batchSize db
                     (dump (before ++ after) tail))))
  /\ accounts_for JSON_parse
       (map item_text before ++ item_text bad :: map item_text after)
       (JsonToDb.mkIngest 0 0 [] db [])
       (snd (JsonToDb.for_lines JSON_parse batchSize
               (JsonToDb.idle, JsonToDb.mkIngest 0 0 [] db [])
               (dump (before ++ bad :: after) tail)))
  /\ snd (JsonToDb.sendMoviesToSurrealDB JSON_parse batchSize db
            (dump (before ++ bad :: after) tail))
     <> Some JsonToDb.SyntaxError.
Proof.
  intros Hitems Hok Hno Hbad.
  assert (Hobjs : objects (dump (before ++ bad :: after) tail)
                  = map item_text before ++ item_text bad :: map item_text after).
  { destruct (scan_dump _ tail Hitems Hok Hno) as [_ H].
    now rewrite H, map_app. }
  assert (Hitems' : forallb item_ok (before ++ after) = true).
  { rewrite forallb_app in *. cbn [forallb] in Hitems.
    apply andb_true_iff in Hitems. destruct Hitems as [Hb Ha].
    apply andb_true_iff in Ha. destruct Ha as [_ Ha]. now rewrite Hb, Ha. }
  assert (Hobjs' : objects (dump (before ++ after) tail)
                   = map item_text before ++ map item_text after).
  { destruct (scan_dump _ tail Hitems' Hok Hno) as [_ H].
    now rewrite H, map_app. }
  split; [exact Hobjs|]. split.
  { rewrite Hobjs. unfold decode. rewrite flat_map_app. cbn [flat_map].
    now rewrite Hbad. }
  split.
  { rewrite !sendMovies_objects, Hobjs, Hobjs'.
    apply run_with_rejected, Hbad. }
  split.
  { rewrite for_lines_scan. cbn [snd]. fold (objects (dump (before ++ bad :: after) tail)).
    rewrite Hobjs. apply fold_on_object_accounts. }
  rewrite sendMovies_objects.
  set (st0 := fold_left _ _ _). assert (H := finish_spec st0).
  destruct (JsonToDb.finish st0) as [st' [e|]]; cbn [snd]; [|discriminate].
  destruct H as (_ & _ & _ & _ & He & _). congruence.
Qed.

(** The input of three lines [{"id":1}], [{"id":}], [{"id":2}]: the
    second object does not parse, the first and the third are decoded
    and committed. *)
Lemma decode_error_is_isolated_witness :
  forallb item_ok
    ([ ([], [Str "id"; Other ":"; Other "1"]) ]
     ++ ([Break], [Str "id"; Other ":"])
     :: [ ([Break], [Str "id"; Other ":"; Other "2"]) ]) = true
  /\ forallb token_ok [] = true
  /\ closes_no_object 0 [] = true
  /\ JSON_parse_sample (item_text ([Break], [Str "id"; Other ":"])) = None
  /\ dump ([ ([], [Str "id"; Other ":"; Other "1"]) ]
           ++ ([Break], [Str "id"; Other ":"])
           :: [ ([Break], [Str "id"; Other ":"; Other "2"]) ]) []
     = [json "{'id':1}"; json "{'id':}"; json "{'id':2}"]
  /\ decode JSON_parse_sample
       (objects [json "{'id':1}"; json "{'id':}"; json "{'id':2}"])
     = [Movie.bare 1; Movie.bare 2].
Proof.
  split; [reflexivity|]. split; [reflexivity|]. split; [reflexivity|].
  split; [reflexivity|]. split; [reflexivity|].
  exact (proj1 (proj2 (decode_error_is_isolated JSON_parse_sample 1000
                         (empty_db [])
                         [ ([], [Str "id"; Other ":"; Other "1"]) ]
                         [ ([Break], [Str "id"; Other ":"; Other "2"]) ]
                         ([Break], [Str "id"; Other ":"]) []
                         eq_refl eq_refl eq_refl eq_refl))).
Defined.
